(** * Front-end scripts of the car price estimator

    A shallow embedding of the browser scripts of the repository:

    - the Alpine data-table component ([dataTable] of the admin dashboard
      components file), in [Module DataTable];
    - the cascading selectors, the form validation and the submit listener
      of [car-price-estimator.js], in [Module Estimator];
    - the form validation and the submit listener of its English variant,
      whose cascade starts at the brand, in [Module EstimatorEn];
    - the cascading selectors of [car-assessment.js], in [Module Assessment];
    - the getters of the data table ([paginatedData], [pageInfo],
      [pageNumbers]), in [Module DataTableView];
    - the cascading selectors of the English variant, in
      [Module EstimatorEnCascade];
    - the modal component, in [Module Modal], and the cookie and token
      helpers of the form component, in [Module FormComponent].

    The modules [TableSpec], [FormSpec], [EstimatorSpec], [EstimatorEnSpec],
    [AssessmentSpec] and [SubmitSpec], and after them [TableMoreSpec],
    [CascadeSpec], [AssessmentCascadeSpec], [EstimatorEnCascadeSpec],
    [CookieSpec], [ModalSpec] and [ReadableSpec], hold the notions the
    statements are written with; the theorems follow them.

    Conventions of the embedding.
    - JavaScript strings are [string]s of ASCII characters; [toLowerCase]
      acts on the letters A-Z.
    - JavaScript numbers are integers ([Z]) or [NaN]: identifiers, years,
      prices, page numbers and record counts.  Fractional, infinite and
      exponent-notation numbers are outside the embedding.
    - A table cell holds a scalar: [null], a boolean, a number or a string.
    - An [async] function is a function of the outcome of the request it
      awaits, given by a server function from requests to outcomes; a
      listener runs to completion before the next one starts.
    - The page is the set of selects (by id), the inputs, the submit button
      and a log of what leaves the page: requests, console errors, dialogs,
      the submission of the form. *)

From Stdlib Require Import ZArith Ascii String List Bool Lia.
From stdpp Require Import base decidable option list strings gmap pretty.

Local Open Scope string_scope.
Local Open Scope Z_scope.

(** ** JavaScript strings *)

Module JsString.

Definition is_upper (c : ascii) : bool :=
  ((65 <=? nat_of_ascii c)%nat && (nat_of_ascii c <=? 90)%nat)%bool.

Definition is_lower (c : ascii) : bool :=
  ((97 <=? nat_of_ascii c)%nat && (nat_of_ascii c <=? 122)%nat)%bool.

Definition lower_char (c : ascii) : ascii :=
  if is_upper c then ascii_of_nat (nat_of_ascii c + 32) else c.

Definition upper_char (c : ascii) : ascii :=
  if is_lower c then ascii_of_nat (nat_of_ascii c - 32) else c.

(** [s.toLowerCase()] and [s.toUpperCase()] *)
Fixpoint toLowerCase (s : string) : string :=
  match s with
  | EmptyString => EmptyString
  | String c r => String (lower_char c) (toLowerCase r)
  end.

Fixpoint toUpperCase (s : string) : string :=
  match s with
  | EmptyString => EmptyString
  | String c r => String (upper_char c) (toUpperCase r)
  end.

(** [s.startsWith(t)] *)
Fixpoint startsWith (s t : string) : bool :=
  match t, s with
  | EmptyString, _ => true
  | String _ _, EmptyString => false
  | String b t', String a s' => (if ascii_dec a b then true else false) && startsWith s' t'
  end.

(** [s.includes(t)]: [t] occurs in [s] as a contiguous run of characters. *)
Fixpoint includes (s t : string) : bool :=
  startsWith s t ||
  match s with
  | EmptyString => false
  | String _ s' => includes s' t
  end.

(** [s.charAt(0).toUpperCase() + s.slice(1)] *)
Definition capitalize (s : string) : string :=
  match s with
  | EmptyString => EmptyString
  | String c r => String (upper_char c) r
  end.

(** [s.split(sep)] for a one-character separator. *)
Fixpoint split_go (sep : ascii) (cur : string) (s : string) : list string :=
  match s with
  | EmptyString => [cur]
  | String c r =>
      if ascii_dec c sep then cur :: split_go sep EmptyString r
      else split_go sep (cur ++ String c EmptyString) r
  end.

Definition split (sep : ascii) (s : string) : list string :=
  split_go sep EmptyString s.

(** [l.join(sep)] *)
Fixpoint join (sep : string) (l : list string) : string :=
  match l with
  | [] => EmptyString
  | [x] => x
  | x :: r => x ++ sep ++ join sep r
  end.

(** A string is truthy when it is not empty. *)
Definition truthy (s : string) : bool :=
  match s with EmptyString => false | _ => true end.

End JsString.

(** ** JavaScript values held in table cells and filters *)

Module Js.

Inductive number : Type :=
| NaN
| Num (z : Z).

Inductive value : Type :=
| VUndefined
| VNull
| VBool (b : bool)
| VNum (x : number)
| VStr (s : string).

(** [String(v)] *)
Definition ToString (v : value) : string :=
  match v with
  | VUndefined => "undefined"
  | VNull => "null"
  | VBool true => "true"
  | VBool false => "false"
  | VNum NaN => "NaN"
  | VNum (Num z) => pretty z
  | VStr s => s
  end.

(** Truthiness, as tested by [if (v)] and [v || w]. *)
Definition truthy (v : value) : bool :=
  match v with
  | VUndefined | VNull => false
  | VBool b => b
  | VNum NaN => false
  | VNum (Num z) => negb (z =? 0)
  | VStr s => JsString.truthy s
  end.

Definition is_space (c : ascii) : bool :=
  match nat_of_ascii c with
  | 9%nat | 10%nat | 11%nat | 12%nat | 13%nat | 32%nat => true
  | _ => false
  end.

Definition is_digit (c : ascii) : bool :=
  ((48 <=? nat_of_ascii c)%nat && (nat_of_ascii c <=? 57)%nat)%bool.

Definition digit_value (c : ascii) : Z := Z.of_nat (nat_of_ascii c) - 48.

Fixpoint skip_spaces (s : string) : string :=
  match s with
  | String c r => if is_space c then skip_spaces r else s
  | EmptyString => EmptyString
  end.

(** The longest run of decimal digits at the head of [s], as a number,
    with what follows it. *)
Fixpoint digits_go (acc : Z) (s : string) : Z * string :=
  match s with
  | String c r => if is_digit c then digits_go (10 * acc + digit_value c) r else (acc, s)
  | EmptyString => (acc, EmptyString)
  end.

(** [None] when [s] does not start with a digit. *)
Definition digits (s : string) : option (Z * string) :=
  match s with
  | String c _ => if is_digit c then Some (digits_go 0 s) else None
  | EmptyString => None
  end.

Definition signed (s : string) : Z * string :=
  match s with
  | String "+"%char r => (1, r)
  | String "-"%char r => (-1, r)
  | _ => (1, s)
  end.

(** [Number(s)] for a string: surrounding white space is dropped, the
    empty string is 0, a signed run of digits is that integer, anything
    else is [NaN].  (A string that spells a fraction, an exponent, a
    hexadecimal number or [Infinity] is outside the embedding.) *)
Definition StringToNumber (s : string) : number :=
  match skip_spaces s with
  | EmptyString => Num 0
  | t =>
      let '(sg, u) := signed t in
      match digits u with
      | Some (n, rest) =>
          match skip_spaces rest with
          | EmptyString => Num (sg * n)
          | _ => NaN
          end
      | None => NaN
      end
  end.

(** [parseFloat(s)] for a string: the longest numeric prefix after
    leading white space; [NaN] when there is none. *)
Definition parseFloat_string (s : string) : number :=
  let '(sg, u) := signed (skip_spaces s) in
  match digits u with
  | Some (n, _) => Num (sg * n)
  | None => NaN
  end.

(** [Number(v)] *)
Definition ToNumber (v : value) : number :=
  match v with
  | VUndefined => NaN
  | VNull => Num 0
  | VBool true => Num 1
  | VBool false => Num 0
  | VNum x => x
  | VStr s => StringToNumber s
  end.

(** The global [isNaN(v)] and [parseFloat(v)]. *)
Definition isNaN (v : value) : bool :=
  match ToNumber v with NaN => true | Num _ => false end.

Definition parseFloat (v : value) : number :=
  parseFloat_string (ToString v).

(** [a < b] and [a > b]: two strings are compared character by
    character, anything else as numbers, and a comparison with [NaN]
    is false. *)
Definition lt (a b : value) : bool :=
  match a, b with
  | VStr x, VStr y => String.ltb x y
  | _, _ =>
      match ToNumber a, ToNumber b with
      | Num x, Num y => x <? y
      | _, _ => false
      end
  end.

Definition gt (a b : value) : bool := lt b a.

(** A record: the own properties of an object, in insertion order. *)
Definition record : Type := list (string * value).

(** [item[key]] *)
Fixpoint get (item : record) (key : string) : value :=
  match item with
  | [] => VUndefined
  | (k, v) :: r => if String.eqb k key then v else get r key
  end.

(** [Object.values(item)] *)
Definition Object_values (item : record) : list value := map snd item.

(** [{...target, ...source}]: a key of [source] already in [target]
    keeps its place and takes the new value; a new key goes last. *)
Fixpoint assign1 {A} (target : list (string * A)) (k : string) (v : A) : list (string * A) :=
  match target with
  | [] => [(k, v)]
  | (k', v') :: r => if String.eqb k' k then (k', v) :: r else (k', v') :: assign1 r k v
  end.

Definition spread {A} (target source : list (string * A)) : list (string * A) :=
  fold_left (fun acc kv => assign1 acc (fst kv) (snd kv)) source target.

(** [Array.prototype.sort(comparefn)], as the insertion sort engines run
    on short arrays: each element in turn is placed in the sorted prefix
    before the first element it compares below.  (ECMAScript leaves the
    order open when [comparefn] is not a consistent order.) *)
Section Sort.
Context {A : Type} (comparefn : A -> A -> Z).

Fixpoint insert (pivot : A) (sorted : list A) : list A :=
  match sorted with
  | [] => [pivot]
  | y :: r => if comparefn pivot y <? 0 then pivot :: y :: r else y :: insert pivot r
  end.

Definition sort (l : list A) : list A :=
  fold_left (fun sorted pivot => insert pivot sorted) l [].

End Sort.

End Js.

(** ** The data-table component ([dataTable(config)]) *)

Module DataTable.
Import Js.

(** [config]: the defaults [apiUrl: ''], [columns: []], [serverSide: false]
    overridden by the caller's object. *)
Record config : Type := Config {
  apiUrl : string;
  columns : list string;
  serverSide : bool
}.

(** The reactive object [dataTable] returns. *)
Record table : Type := Table {
  data : list record;
  filteredData : list record;
  loading : bool;
  error : option string;
  currentPage : Z;
  pageSize : Z;
  totalPages : Z;
  totalRecords : Z;
  sortField : option string;
  sortDirection : string;
  search : string;
  filters : list (string * value);
  cfg : config
}.

(** The state [dataTable(config)] starts in. *)
Definition dataTable (c : config) : table :=
  {| data := []; filteredData := []; loading := false; error := None;
     currentPage := 1; pageSize := 25; totalPages := 1; totalRecords := 0;
     sortField := None; sortDirection := "asc";
     search := ""; filters := []; cfg := c |}.

(** Assignments [this.f = v]. *)
Definition set_data (v : list record) (t : table) : table :=
  Table v (filteredData t) (loading t) (error t) (currentPage t) (pageSize t)
    (totalPages t) (totalRecords t) (sortField t) (sortDirection t) (search t) (filters t) (cfg t).
Definition set_filteredData (v : list record) (t : table) : table :=
  Table (data t) v (loading t) (error t) (currentPage t) (pageSize t)
    (totalPages t) (totalRecords t) (sortField t) (sortDirection t) (search t) (filters t) (cfg t).
Definition set_loading (v : bool) (t : table) : table :=
  Table (data t) (filteredData t) v (error t) (currentPage t) (pageSize t)
    (totalPages t) (totalRecords t) (sortField t) (sortDirection t) (search t) (filters t) (cfg t).
Definition set_error (v : option string) (t : table) : table :=
  Table (data t) (filteredData t) (loading t) v (currentPage t) (pageSize t)
    (totalPages t) (totalRecords t) (sortField t) (sortDirection t) (search t) (filters t) (cfg t).
Definition set_currentPage (v : Z) (t : table) : table :=
  Table (data t) (filteredData t) (loading t) (error t) v (pageSize t)
    (totalPages t) (totalRecords t) (sortField t) (sortDirection t) (search t) (filters t) (cfg t).
Definition set_totalPages (v : Z) (t : table) : table :=
  Table (data t) (filteredData t) (loading t) (error t) (currentPage t) (pageSize t)
    v (totalRecords t) (sortField t) (sortDirection t) (search t) (filters t) (cfg t).
Definition set_totalRecords (v : Z) (t : table) : table :=
  Table (data t) (filteredData t) (loading t) (error t) (currentPage t) (pageSize t)
    (totalPages t) v (sortField t) (sortDirection t) (search t) (filters t) (cfg t).
Definition set_sortField (v : option string) (t : table) : table :=
  Table (data t) (filteredData t) (loading t) (error t) (currentPage t) (pageSize t)
    (totalPages t) (totalRecords t) v (sortDirection t) (search t) (filters t) (cfg t).
Definition set_sortDirection (v : string) (t : table) : table :=
  Table (data t) (filteredData t) (loading t) (error t) (currentPage t) (pageSize t)
    (totalPages t) (totalRecords t) (sortField t) v (search t) (filters t) (cfg t).

(** The decoded body of the table endpoint: a JSON array of records, or an
    object [{data, total}] whose [total] may be missing. *)
Inductive result : Type :=
| RArray (rows : list record)
| RObject (rows : list record) (total : option Z).

(** What [await fetch(...)] followed by [await response.json()] comes to:
    one of the two rejects, or the body is decoded. *)
Inductive outcome : Type :=
| Rejected
| Decoded (r : result).

(** [result.data || []] *)
Definition result_data_or_empty (r : result) : list record :=
  match r with
  | RArray _ => []
  | RObject rows _ => rows
  end.

(** [result.total || 0] *)
Definition result_total_or_0 (r : result) : Z :=
  match r with
  | RArray _ => 0
  | RObject _ None => 0
  | RObject _ (Some n) => n
  end.

(** [result.data || result || []] (an array is truthy, also when empty) *)
Definition result_data_or_result (r : result) : list record :=
  match r with
  | RArray rows => rows
  | RObject rows _ => rows
  end.

(** [Math.ceil(a / b)] on integers, [b] not 0. *)
Definition ceil_div (a b : Z) : Z := - ((- a) / b).

(** [calculatePagination()] *)
Definition calculatePagination (t : table) : table :=
  set_totalPages (ceil_div (totalRecords t) (pageSize t)) t.

(** The two predicates of [applyFilters]:
    [Object.values(item).some(value => String(value).toLowerCase().includes(searchTerm))]
    and [String(item[key]).toLowerCase().includes(String(value).toLowerCase())]. *)
Definition search_hit (searchTerm : string) (item : record) : bool :=
  existsb (fun value => JsString.includes (JsString.toLowerCase (ToString value)) searchTerm)
    (Object_values item).

Definition filter_hit (key : string) (value : value) (item : record) : bool :=
  JsString.includes (JsString.toLowerCase (ToString (get item key)))
    (JsString.toLowerCase (ToString value)).

(** [applyFilters()] *)
Definition applyFilters (t : table) : table :=
  let filtered := data t in
  let filtered :=
    if JsString.truthy (search t) then
      let searchTerm := JsString.toLowerCase (search t) in
      List.filter (search_hit searchTerm) filtered
    else filtered in
  let filtered :=
    fold_left (fun filtered kv =>
                 if truthy (snd kv) then List.filter (filter_hit (fst kv) (snd kv)) filtered
                 else filtered)
      (filters t) filtered in
  set_totalRecords (Z.of_nat (length filtered)) (set_filteredData filtered t).

(** The object handed to [URLSearchParams] in [loadData]. *)
Definition queryParams (params : list (string * value)) (t : table) : list (string * string) :=
  let base : list (string * value) :=
    [ ("page", VNum (Num (currentPage t)));
      ("size", VNum (Num (pageSize t)));
      ("search", VStr (search t));
      ("sort", VStr (match sortField t with Some f => f | None => "" end));
      ("direction", VStr (sortDirection t)) ] in
  map (fun kv => (fst kv, ToString (snd kv))) (spread (spread base (filters t)) params).

(** The comparison function [sort] hands to [Array.prototype.sort]. *)
Definition comparator (sortDirection field : string) (a b : record) : Z :=
  let valueA := get a field in
  let valueB := get b field in
  let '(valueA, valueB) :=
    if negb (isNaN valueA) && negb (isNaN valueB)
    then (VNum (parseFloat valueA), VNum (parseFloat valueB))
    else (valueA, valueB) in
  if String.eqb sortDirection "asc" then
    if gt valueA valueB then 1 else -1
  else
    if lt valueA valueB then 1 else -1.

Section WithServer.
(** The server: the outcome of a request to a URL with a query. *)
Context (fetch : string -> list (string * string) -> outcome).

(** [loadData(params)] *)
Definition loadData (params : list (string * value)) (t : table) : table :=
  let t := set_loading true t in
  let t := set_error None t in
  let t :=
    match fetch (apiUrl (cfg t)) (queryParams params t) with
    | Decoded result =>
        let t :=
          if serverSide (cfg t) then
            let t := set_data (result_data_or_empty result) t in
            let t := set_totalRecords (result_total_or_0 result) t in
            set_filteredData (data t) t
          else
            applyFilters (set_data (result_data_or_result result) t) in
        calculatePagination t
    | Rejected =>
        set_error (Some "Failed to load data") t
    end in
  set_loading false t.

(** [init()] *)
Definition init (t : table) : table :=
  calculatePagination (loadData [] t).

(** [sort(field)].  In server-side mode [this.loadData()] is started and
    not awaited; the state given is the one after that reload has settled. *)
Definition sort (field : string) (t : table) : table :=
  let t :=
    if decide (sortField t = Some field) then
      set_sortDirection (if String.eqb (sortDirection t) "asc" then "desc" else "asc") t
    else
      set_sortDirection "asc" (set_sortField (Some field) t) in
  if serverSide (cfg t) then loadData [] t
  else set_filteredData (Js.sort (comparator (sortDirection t) field) (filteredData t)) t.

(** [goToPage(page)], with the reload of server-side mode settled. *)
Definition goToPage (page : Z) (t : table) : table :=
  if (1 <=? page) && (page <=? totalPages t) then
    let t := set_currentPage page t in
    if serverSide (cfg t) then loadData [] t else t
  else t.

(** [nextPage()] and [prevPage()] *)
Definition nextPage (t : table) : table := goToPage (currentPage t + 1) t.
Definition prevPage (t : table) : table := goToPage (currentPage t - 1) t.

(** [performSearch()] *)
Definition performSearch (t : table) : table :=
  if serverSide (cfg t) then
    loadData [] (set_currentPage 1 t)
  else
    calculatePagination (set_currentPage 1 (applyFilters t)).

End WithServer.

End DataTable.

(** ** The page: the elements the form scripts read and write *)

Module Dom.

(** An [<option>] of a select.  The scripts build options from plain
    names, so an option is kept as its attributes and its text. *)
Record option_el : Type := OptionEl {
  opt_value : string;
  opt_text : string;
  opt_disabled : bool;
  opt_selected : bool
}.

(** [<option value="" disabled selected>text</option>] *)
Definition placeholder_option (text : string) : option_el :=
  OptionEl "" text true true.

(** [<option value="">text</option>] *)
Definition plain_placeholder (text : string) : option_el :=
  OptionEl "" text false false.

(** [<option value="x">x</option>] *)
Definition item_option (x : string) : option_el :=
  OptionEl x x false false.

(** A [<select>]: its options, its [disabled] flag and its [value]. *)
Record select : Type := Select {
  innerHTML : list option_el;
  disabled : bool;
  value : string
}.

(** The value a drop-down shows once its options are parsed: that of the
    last option marked [selected], else of the first option that is not
    disabled, else the empty string. *)
Definition selected_value (opts : list option_el) : string :=
  match last (List.filter opt_selected opts) with
  | Some o => opt_value o
  | None =>
      match head (List.filter (fun o => negb (opt_disabled o)) opts) with
      | Some o => opt_value o
      | None => ""
      end
  end.

(** An [<input>]: its [name], [type], [required] and checked state, and
    the trimmed text of the [h4] of the closest [.card-body] around it. *)
Record input : Type := Input {
  name : string;
  type : string;
  required : bool;
  checked : bool;
  card_title : option string
}.

(** The submit button. *)
Record button : Type := Button {
  btn_disabled : bool;
  classList : gset string;
  btn_innerHTML : string;
  originalText : option string
}.

(** What a handler does that is seen outside the page. *)
Inductive event : Type :=
| EvFetch (url : string)
| EvConsoleError (msg : string)
| EvSwalFire (icon title text : string)
| EvAlert (msg : string)
| EvPreventDefault
| EvFormSubmit (delay : Z).

(** A notification the user sees. *)
Definition user_facing (e : event) : bool :=
  match e with
  | EvSwalFire _ _ _ | EvAlert _ => true
  | _ => false
  end.

(** A request. *)
Definition is_fetch (e : event) : bool :=
  match e with
  | EvFetch _ => true
  | _ => false
  end.

(** The page: its selects by id, its inputs in document order, the submit
    button, whether [Swal] is defined, and what has left the page so far. *)
Record page : Type := Page {
  selects : gmap string select;
  inputs : list input;
  submitBtn : button;
  swal : bool;
  log : list event
}.

(** What a script throws. *)
Inductive exn : Type :=
| TypeError
| FetchError.

Inductive res (A : Type) : Type :=
| Ok (a : A)
| Throw (e : exn).
Arguments Ok {A} a.
Arguments Throw {A} e.

(** A computation on the page that returns or throws. *)
Definition M (A : Type) : Type := page -> res A * page.

Definition ret {A} (a : A) : M A := fun w => (Ok a, w).

Definition throw {A} (e : exn) : M A := fun w => (Throw e, w).

Definition bind {A B} (c : M A) (k : A -> M B) : M B :=
  fun w =>
    match c w with
    | (Ok a, w') => k a w'
    | (Throw e, w') => (Throw e, w')
    end.

(** [try { body } catch (error) { handler }] *)
Definition try_catch {A} (body : M A) (handler : exn -> M A) : M A :=
  fun w =>
    match body w with
    | (Ok a, w') => (Ok a, w')
    | (Throw e, w') => handler e w'
    end.

Declare Scope js_scope.
Delimit Scope js_scope with js.
Notation "'let*' x ':=' c 'in' k" := (bind c (fun x => k))
  (at level 10, x name, c at level 100, k at level 200) : js_scope.
Notation "c1 ';;;' c2" := (bind c1 (fun _ => c2))
  (at level 100, c2 at level 200, right associativity) : js_scope.
Local Open Scope js_scope.

(** [l.forEach(f)] *)
Fixpoint forEach {A} (l : list A) (f : A -> M unit) : M unit :=
  match l with
  | [] => ret tt
  | x :: r => f x ;;; forEach r f
  end.

(** Assignments to the parts of the page. *)
Definition with_selects (m : gmap string select) (w : page) : page :=
  Page m (inputs w) (submitBtn w) (swal w) (log w).

Definition with_submitBtn (b : button) (w : page) : page :=
  Page (selects w) (inputs w) b (swal w) (log w).

Definition with_log (l : list event) (w : page) : page :=
  Page (selects w) (inputs w) (submitBtn w) (swal w) l.

Definition emit (e : event) : M unit :=
  fun w => (Ok tt, with_log (log w ++ [e]) w).

(** [document.getElementById(id)] for a select; [null] is [None]. *)
Definition getElementById (id : string) : M (option select) :=
  fun w => (Ok (selects w !! id), w).

(** Reading and writing a property of the select with this id; on [null]
    either is a [TypeError]. *)
Definition read {A} (id : string) (prop : select -> A) : M A :=
  fun w =>
    match selects w !! id with
    | Some s => (Ok (prop s), w)
    | None => (Throw TypeError, w)
    end.

Definition write (id : string) (f : select -> select) : M unit :=
  fun w =>
    match selects w !! id with
    | Some s => (Ok tt, with_selects (<[id := f s]> (selects w)) w)
    | None => (Throw TypeError, w)
    end.

(** [el.innerHTML = ...], [el.innerHTML += '<option ...>'], [el.disabled = b] *)
Definition set_innerHTML (opts : list option_el) (s : select) : select :=
  Select opts (disabled s) (selected_value opts).

Definition add_innerHTML (o : option_el) (s : select) : select :=
  set_innerHTML (innerHTML s ++ [o]) s.

Definition set_disabled (b : bool) (s : select) : select :=
  Select (innerHTML s) b (value s).

(** [document.querySelector('input[name="g"]:checked') !== null] *)
Definition has_checked (groupName : string) (w : page) : bool :=
  existsb (fun i => String.eqb (name i) groupName && checked i) (inputs w).

Definition query_checked (groupName : string) : M bool :=
  fun w => (Ok (has_checked groupName w), w).

(** Writing the submit button. *)
Definition write_submitBtn (f : button -> button) : M unit :=
  fun w => (Ok tt, with_submitBtn (f (submitBtn w)) w).

Definition read_submitBtn {A} (prop : button -> A) : M A :=
  fun w => (Ok (prop (submitBtn w)), w).

(** [classList.add], [classList.remove], [classList.toggle(c, force)] *)
Definition classList_add (c : string) (b : button) : button :=
  Button (btn_disabled b) ({[ c ]} ∪ classList b) (btn_innerHTML b) (originalText b).

Definition classList_remove (c : string) (b : button) : button :=
  Button (btn_disabled b) (classList b ∖ {[ c ]}) (btn_innerHTML b) (originalText b).

Definition classList_toggle (c : string) (force : bool) (b : button) : button :=
  if force then classList_add c b else classList_remove c b.

Definition set_btn_disabled (d : bool) (b : button) : button :=
  Button d (classList b) (btn_innerHTML b) (originalText b).

(** [console.error(msg, error)] *)
Definition console_error (msg : string) : M unit := emit (EvConsoleError msg).

(** What [await fetch(url)] followed by [await response.json()] comes to
    on an option endpoint: one of the two rejects, or the body is decoded, a
    JSON array of names. *)
Inductive outcome : Type :=
| Rejected
| Decoded (names : list string).

(** [encodeURIComponent(s)] on ASCII text. *)
Definition unreserved (c : ascii) : bool :=
  JsString.is_upper c || JsString.is_lower c || Js.is_digit c ||
  existsb (fun d => if ascii_dec c d then true else false)
    ["-"; "_"; "."; "!"; "~"; "*"; "'"; "("; ")"]%char.

Definition hex_digit (n : nat) : ascii :=
  ascii_of_nat (if (n <? 10)%nat then 48 + n else 55 + n).

Fixpoint encodeURIComponent (s : string) : string :=
  match s with
  | EmptyString => EmptyString
  | String c r =>
      if unreserved c then String c (encodeURIComponent r)
      else String "%" (String (hex_digit (nat_of_ascii c / 16))
             (String (hex_digit (nat_of_ascii c mod 16)) (encodeURIComponent r)))
  end.

(** The levels of the cascade, top down. *)
Inductive level : Type := Category | Brand | Model | Variant | Year.

Definition level_index (l : level) : nat :=
  match l with
  | Category => 0
  | Brand => 1
  | Model => 2
  | Variant => 3
  | Year => 4
  end.

End Dom.

(** ** [car-price-estimator.js] *)

Module Estimator.
Import Dom.
Local Open Scope js_scope.

(** [API_URLS], which the page template defines. *)
Record api_urls : Type := ApiUrls {
  categories : string;
  brands : string;
  models : string;
  variants : string;
  years : string
}.

(** [getPlaceholderText(selectId)] *)
Definition getPlaceholderText (selectId : string) : string :=
  if String.eqb selectId "brandSelect" then "Pilih Brand"
  else if String.eqb selectId "modelSelect" then "Pilih Model"
  else if String.eqb selectId "variantSelect" then "Pilih Variant"
  else if String.eqb selectId "yearSelect" then "Pilih Tahun"
  else "Pilih".

(** [resetSelects(selectIds)] *)
Definition resetSelects (selectIds : list string) : M unit :=
  forEach selectIds (fun id =>
    let* select := getElementById id in
    match select with
    | Some _ =>
        let placeholder := getPlaceholderText id in
        write id (set_innerHTML [placeholder_option placeholder]) ;;;
        write id (set_disabled true)
    | None => ret tt
    end).

(** [showLoading(selectElement)], the element given by its id. *)
Definition showLoading (id : string) : M unit :=
  write id (set_innerHTML [placeholder_option "Loading..."]) ;;;
  write id (set_disabled true).

(** [showError(message)] *)
Definition showError (message : string) : M unit :=
  fun w =>
    if swal w then emit (EvSwalFire "error" "Oops!" message) w
    else emit (EvAlert message) w.

Definition requiredRadioGroups : list string :=
  [ "exterior_condition"; "interior_condition"; "mechanical_condition";
    "accident_history"; "service_history"; "number_of_owners";
    "tires_brakes"; "modifications"; "market_demand"; "brand_category";
    "price_tier" ].

(** [requiredRadioGroups.every(groupName => querySelector(...) !== null)] *)
Fixpoint every (groups : list string) : M bool :=
  match groups with
  | [] => ret true
  | groupName :: r =>
      let* found := query_checked groupName in
      if found then every r else ret false
  end.

(** [validateForm()] *)
Definition validateForm : M unit :=
  let* category := read "categorySelect" value in
  let* brand := read "brandSelect" value in
  let* model := read "modelSelect" value in
  let* variant := read "variantSelect" value in
  let* year := read "yearSelect" value in
  let* allRadiosSelected := every requiredRadioGroups in
  let isValid :=
    JsString.truthy category && JsString.truthy brand && JsString.truthy model &&
    JsString.truthy variant && JsString.truthy year && allRadiosSelected in
  write_submitBtn (set_btn_disabled (negb isValid)) ;;;
  write_submitBtn (classList_toggle "disabled:opacity-50" (negb isValid)) ;;;
  if isValid then
    write_submitBtn (classList_add "btn-primary") ;;;
    write_submitBtn (classList_remove "btn-disabled")
  else
    write_submitBtn (classList_remove "btn-primary") ;;;
    write_submitBtn (classList_add "btn-disabled").

(** [getReadableFieldName(fieldName)] *)
Definition fieldNames : list (string * string) :=
  [ ("exterior_condition", "Exterior Condition");
    ("interior_condition", "Interior Condition");
    ("mechanical_condition", "Mechanical Condition");
    ("accident_history", "Accident History");
    ("service_history", "Service History");
    ("number_of_owners", "Number of Owners");
    ("tires_brakes", "Tires & Brakes");
    ("modifications", "Modifications");
    ("market_demand", "Market Demand");
    ("brand_category", "Brand Category");
    ("price_tier", "Price Tier") ].

Fixpoint lookup_name (table : list (string * string)) (k : string) : option string :=
  match table with
  | [] => None
  | (k', v) :: r => if String.eqb k' k then Some v else lookup_name r k
  end.

Definition getReadableFieldName (fieldName : string) : string :=
  match lookup_name fieldNames fieldName with
  | Some n => if JsString.truthy n then n else fieldName
  | None => fieldName
  end.

(** The loop of [validateFormBeforeSubmit] over the radio groups. *)
Fixpoint check_groups (groups : list string) : M bool :=
  match groups with
  | [] => ret true
  | groupName :: r =>
      let* found := query_checked groupName in
      if negb found then
        showError ("Silakan pilih kondisi untuk " ++ getReadableFieldName groupName ++ ".") ;;;
        ret false
      else check_groups r
  end.

(** [validateFormBeforeSubmit()] *)
Definition validateFormBeforeSubmit : M bool :=
  let* category := read "categorySelect" value in
  let* brand := read "brandSelect" value in
  let* model := read "modelSelect" value in
  let* variant := read "variantSelect" value in
  let* year := read "yearSelect" value in
  if negb (JsString.truthy category) || negb (JsString.truthy brand) ||
     negb (JsString.truthy model) || negb (JsString.truthy variant) ||
     negb (JsString.truthy year)
  then
    showError "Silakan lengkapi semua spesifikasi kendaraan." ;;;
    ret false
  else check_groups requiredRadioGroups.

(** The markup of the busy button (white space between its lines aside). *)
Definition dquote : string := String (ascii_of_nat 34) EmptyString.

Definition loading_markup : string :=
  "<span class=" ++ dquote ++ "loading loading-spinner loading-sm mr-2" ++ dquote
    ++ "></span> Memproses...".

(** [showLoadingState()] *)
Definition showLoadingState : M unit :=
  let* originalText := read_submitBtn btn_innerHTML in
  write_submitBtn (set_btn_disabled true) ;;;
  write_submitBtn (fun b => Button (btn_disabled b) (classList b) loading_markup (Dom.originalText b)) ;;;
  write_submitBtn (fun b => Button (btn_disabled b) (classList b) (btn_innerHTML b) (Some originalText)).

(** [submitForm()]: [form.submit()] is set to run after one second. *)
Definition submitForm : M unit := emit (EvFormSubmit 1000).

(** The [submit] listener [setupFormValidation] installs. *)
Definition on_submit : M unit :=
  emit EvPreventDefault ;;;
  let* ok := validateFormBeforeSubmit in
  if negb ok then ret tt
  else showLoadingState ;;; submitForm.

(** The id of each level's select. *)
Definition select_id (l : level) : string :=
  match l with
  | Category => "categorySelect"
  | Brand => "brandSelect"
  | Model => "modelSelect"
  | Variant => "variantSelect"
  | Year => "yearSelect"
  end.

Section WithServer.
Context (API_URLS : api_urls) (server : string -> outcome).

(** [await fetch(url)] followed by [await response.json()] *)
Definition fetch_json (url : string) : M (list string) :=
  emit (EvFetch url) ;;;
  match server url with
  | Decoded names => ret names
  | Rejected => throw FetchError
  end.

(** [loadCategories()] *)
Definition loadCategories : M unit :=
  try_catch
    (let* categories := fetch_json (categories API_URLS) in
     write "categorySelect" (set_innerHTML [placeholder_option "Pilih Category"]) ;;;
     forEach categories (fun category => write "categorySelect" (add_innerHTML (item_option category))))
    (fun error =>
       console_error "Error loading categories:" ;;;
       showError "Gagal memuat kategori. Silakan refresh halaman.").

(** The [change] listener of [categorySelect]. *)
Definition categorySelect_change : M unit :=
  let* category := read "categorySelect" value in
  if JsString.truthy category then
    try_catch
      (showLoading "brandSelect" ;;;
       let* brands := fetch_json (brands API_URLS ++ "?category=" ++ encodeURIComponent category) in
       write "brandSelect" (set_innerHTML [placeholder_option "Pilih Brand"]) ;;;
       forEach brands (fun brand => write "brandSelect" (add_innerHTML (item_option brand))) ;;;
       write "brandSelect" (set_disabled false) ;;;
       resetSelects ["modelSelect"; "variantSelect"; "yearSelect"] ;;;
       validateForm)
      (fun error =>
         console_error "Error loading brands:" ;;;
         showError "Gagal memuat brand. Silakan coba lagi.")
  else
    write "brandSelect" (set_disabled true) ;;;
    resetSelects ["brandSelect"; "modelSelect"; "variantSelect"; "yearSelect"] ;;;
    validateForm.

(** The [change] listener of [brandSelect]. *)
Definition brandSelect_change : M unit :=
  let* brand := read "brandSelect" value in
  if JsString.truthy brand then
    try_catch
      (showLoading "modelSelect" ;;;
       let* models := fetch_json (models API_URLS ++ "?brand=" ++ encodeURIComponent brand) in
       write "modelSelect" (set_innerHTML [placeholder_option "Pilih Model"]) ;;;
       forEach models (fun model => write "modelSelect" (add_innerHTML (item_option model))) ;;;
       write "modelSelect" (set_disabled false) ;;;
       resetSelects ["variantSelect"; "yearSelect"] ;;;
       validateForm)
      (fun error =>
         console_error "Error loading models:" ;;;
         showError "Gagal memuat model. Silakan coba lagi.")
  else
    resetSelects ["modelSelect"; "variantSelect"; "yearSelect"] ;;;
    validateForm.

(** The [change] listener of [modelSelect]. *)
Definition modelSelect_change : M unit :=
  let* brand := read "brandSelect" value in
  let* model := read "modelSelect" value in
  if JsString.truthy brand && JsString.truthy model then
    try_catch
      (showLoading "variantSelect" ;;;
       let* variants := fetch_json (variants API_URLS ++ "?brand=" ++ encodeURIComponent brand
                                      ++ "&model=" ++ encodeURIComponent model) in
       write "variantSelect" (set_innerHTML [placeholder_option "Pilih Variant"]) ;;;
       forEach variants (fun variant => write "variantSelect" (add_innerHTML (item_option variant))) ;;;
       write "variantSelect" (set_disabled false) ;;;
       resetSelects ["yearSelect"] ;;;
       validateForm)
      (fun error =>
         console_error "Error loading variants:" ;;;
         showError "Gagal memuat variant. Silakan coba lagi.")
  else
    resetSelects ["variantSelect"; "yearSelect"] ;;;
    validateForm.

(** The [change] listener of [variantSelect]. *)
Definition variantSelect_change : M unit :=
  let* brand := read "brandSelect" value in
  let* model := read "modelSelect" value in
  let* variant := read "variantSelect" value in
  if JsString.truthy brand && JsString.truthy model && JsString.truthy variant then
    try_catch
      (showLoading "yearSelect" ;;;
       let* years := fetch_json (years API_URLS ++ "?brand=" ++ encodeURIComponent brand
                                   ++ "&model=" ++ encodeURIComponent model
                                   ++ "&variant=" ++ encodeURIComponent variant) in
       write "yearSelect" (set_innerHTML [placeholder_option "Pilih Tahun"]) ;;;
       forEach years (fun year => write "yearSelect" (add_innerHTML (item_option year))) ;;;
       write "yearSelect" (set_disabled false) ;;;
       validateForm)
      (fun error =>
         console_error "Error loading years:" ;;;
         showError "Gagal memuat tahun. Silakan coba lagi.")
  else
    resetSelects ["yearSelect"] ;;;
    validateForm.

(** The [change] listener of [yearSelect]. *)
Definition yearSelect_change : M unit := validateForm.

(** The listener of each level's [change] event. *)
Definition on_change (l : level) : M unit :=
  match l with
  | Category => categorySelect_change
  | Brand => brandSelect_change
  | Model => modelSelect_change
  | Variant => variantSelect_change
  | Year => yearSelect_change
  end.

End WithServer.

End Estimator.

(** ** The English variant of the estimator script

    Its cascade starts at the brand; its required radio groups are read
    from the page. *)

Module EstimatorEn.
Import Dom.
Local Open Scope js_scope.

(** [[...new Set(names)]]: the names in order of first appearance. *)
Fixpoint unique_go (seen : list string) (l : list string) : list string :=
  match l with
  | [] => []
  | x :: r =>
      if existsb (String.eqb x) seen then unique_go seen r
      else x :: unique_go (x :: seen) r
  end.

Definition unique (l : list string) : list string := unique_go [] l.

(** [document.querySelectorAll('input[type="radio"][required]')] mapped to
    the names, without repetition. *)
Definition uniqueGroupNames (w : page) : list string :=
  unique (map name (List.filter (fun i => String.eqb (type i) "radio" && required i) (inputs w))).

(** [showError(message)] *)
Definition showError (message : string) : M unit :=
  fun w =>
    if swal w then emit (EvSwalFire "error" "Oops!" message) w
    else emit (EvAlert message) w.

(** [uniqueGroupNames.every(groupName => querySelector(...) !== null)] *)
Fixpoint every (groups : list string) : M bool :=
  match groups with
  | [] => ret true
  | groupName :: r =>
      let* found := query_checked groupName in
      if found then every r else ret false
  end.

(** [validateForm()] *)
Definition validateForm : M unit :=
  let* brand := read "brandSelect" value in
  let* model := read "modelSelect" value in
  let* variant := read "variantSelect" value in
  let* year := read "yearSelect" value in
  let* uniqueGroupNames := (fun w => (Ok (uniqueGroupNames w), w)) in
  let* allRadiosSelected := every uniqueGroupNames in
  let isValid :=
    JsString.truthy brand && JsString.truthy model &&
    JsString.truthy variant && JsString.truthy year && allRadiosSelected in
  write_submitBtn (set_btn_disabled (negb isValid)) ;;;
  write_submitBtn (classList_toggle "disabled:opacity-50" (negb isValid)) ;;;
  if isValid then
    write_submitBtn (classList_add "btn-primary") ;;;
    write_submitBtn (classList_remove "btn-disabled")
  else
    write_submitBtn (classList_remove "btn-primary") ;;;
    write_submitBtn (classList_add "btn-disabled").

(** [getReadableFieldName(fieldName)]: the title of the card around the
    first input of that name, else the name with its words capitalised. *)
Definition getReadableFieldName (fieldName : string) (w : page) : string :=
  let fallback :=
    JsString.join " " (map JsString.capitalize (JsString.split "_" fieldName)) in
  match List.find (fun i => String.eqb (name i) fieldName) (inputs w) with
  | Some radioInput =>
      match card_title radioInput with
      | Some title => title
      | None => fallback
      end
  | None => fallback
  end.

(** The loop of [validateFormBeforeSubmit] over the radio groups. *)
Fixpoint check_groups (groups : list string) : M bool :=
  match groups with
  | [] => ret true
  | groupName :: r =>
      let* found := query_checked groupName in
      if negb found then
        let* readable := (fun w => (Ok (getReadableFieldName groupName w), w)) in
        showError ("Please select condition for " ++ readable ++ ".") ;;;
        ret false
      else check_groups r
  end.

(** [validateFormBeforeSubmit()] *)
Definition validateFormBeforeSubmit : M bool :=
  let* brand := read "brandSelect" value in
  let* model := read "modelSelect" value in
  let* variant := read "variantSelect" value in
  let* year := read "yearSelect" value in
  if negb (JsString.truthy brand) || negb (JsString.truthy model) ||
     negb (JsString.truthy variant) || negb (JsString.truthy year)
  then
    showError "Please complete all vehicle specifications." ;;;
    ret false
  else
    let* uniqueGroupNames := (fun w => (Ok (uniqueGroupNames w), w)) in
    check_groups uniqueGroupNames.

(** [showLoadingState()] and [submitForm()], as in the other script. *)
Definition showLoadingState : M unit := Estimator.showLoadingState.
Definition submitForm : M unit := Estimator.submitForm.

(** The [submit] listener [setupFormValidation] installs. *)
Definition on_submit : M unit :=
  emit EvPreventDefault ;;;
  let* ok := validateFormBeforeSubmit in
  if negb ok then ret tt
  else showLoadingState ;;; submitForm.

End EstimatorEn.

(** ** [car-assessment.js] *)

Module Assessment.
Import Dom.
Local Open Scope js_scope.

(** [resetSelects(selectIds)] *)
Definition resetSelects (selectIds : list string) : M unit :=
  forEach selectIds (fun id =>
    write id (set_innerHTML [plain_placeholder ("Pilih " ++ JsString.capitalize id)]) ;;;
    write id (set_disabled true)).

Section WithServer.
Context (server : string -> outcome).

(** [await fetch(url)] followed by [await response.json()] *)
Definition fetch_json (url : string) : M (list string) :=
  emit (EvFetch url) ;;;
  match server url with
  | Decoded names => ret names
  | Rejected => throw FetchError
  end.

(** [loadCategories()] *)
Definition loadCategories : M unit :=
  try_catch
    (let* categories := fetch_json "/api/categories/" in
     write "category" (set_innerHTML [plain_placeholder "Pilih Kategori"]) ;;;
     forEach categories (fun category => write "category" (add_innerHTML (item_option category))))
    (fun error => console_error "Error loading categories:").

(** The [change] listener of [category]. *)
Definition category_change : M unit :=
  let* category := read "category" value in
  if JsString.truthy category then
    try_catch
      (let* brands := fetch_json ("/api/brands/?category=" ++ category) in
       write "brand" (set_innerHTML [plain_placeholder "Pilih Brand"]) ;;;
       forEach brands (fun brand => write "brand" (add_innerHTML (item_option brand))) ;;;
       write "brand" (set_disabled false) ;;;
       resetSelects ["model"; "variant"; "year"])
      (fun error => console_error "Error loading brands:")
  else
    write "brand" (set_disabled true) ;;;
    resetSelects ["brand"; "model"; "variant"; "year"].

(** The [change] listener of [brand]. *)
Definition brand_change : M unit :=
  let* brand := read "brand" value in
  if JsString.truthy brand then
    try_catch
      (let* models := fetch_json ("/api/models/?brand=" ++ brand) in
       write "model" (set_innerHTML [plain_placeholder "Pilih Model"]) ;;;
       forEach models (fun model => write "model" (add_innerHTML (item_option model))) ;;;
       write "model" (set_disabled false) ;;;
       resetSelects ["variant"; "year"])
      (fun error => console_error "Error loading models:")
  else
    resetSelects ["model"; "variant"; "year"].

(** The [change] listener of [model]. *)
Definition model_change : M unit :=
  let* brand := read "brand" value in
  let* model := read "model" value in
  if JsString.truthy brand && JsString.truthy model then
    try_catch
      (let* variants := fetch_json ("/api/variants/?brand=" ++ brand ++ "&model=" ++ model) in
       write "variant" (set_innerHTML [plain_placeholder "Pilih Variant"]) ;;;
       forEach variants (fun variant => write "variant" (add_innerHTML (item_option variant))) ;;;
       write "variant" (set_disabled false) ;;;
       resetSelects ["year"])
      (fun error => console_error "Error loading variants:")
  else
    resetSelects ["variant"; "year"].

(** The [change] listener of [variant]. *)
Definition variant_change : M unit :=
  let* brand := read "brand" value in
  let* model := read "model" value in
  let* variant := read "variant" value in
  if JsString.truthy brand && JsString.truthy model && JsString.truthy variant then
    try_catch
      (let* years := fetch_json ("/api/years/?brand=" ++ brand ++ "&model=" ++ model
                                   ++ "&variant=" ++ variant) in
       write "year" (set_innerHTML [plain_placeholder "Pilih Tahun"]) ;;;
       forEach years (fun year => write "year" (add_innerHTML (item_option year))) ;;;
       write "year" (set_disabled false))
      (fun error => console_error "Error loading years:")
  else
    resetSelects ["year"].

(** The id of each level's select and the listener of its [change]
    event; the script installs none on [year]. *)
Definition select_id (l : level) : string :=
  match l with
  | Category => "category"
  | Brand => "brand"
  | Model => "model"
  | Variant => "variant"
  | Year => "year"
  end.

Definition on_change (l : level) : M unit :=
  match l with
  | Category => category_change
  | Brand => brand_change
  | Model => model_change
  | Variant => variant_change
  | Year => ret tt
  end.

End WithServer.

End Assessment.


(** ** The getters of the data table *)

Module DataTableView.
Import Js DataTable.

(** [l.slice(start, end)]: a negative index counts from the end, and both
    are clamped to the length. *)
Definition slice {A} (l : list A) (start stop : Z) : list A :=
  let len := Z.of_nat (length l) in
  let k := if start <? 0 then Z.max (len + start) 0 else Z.min start len in
  let final := if stop <? 0 then Z.max (len + stop) 0 else Z.min stop len in
  firstn (Z.to_nat (Z.max (final - k) 0)) (skipn (Z.to_nat k) l).

(** [get paginatedData()] *)
Definition paginatedData (t : table) : list record :=
  if serverSide (cfg t) then filteredData t
  else
    let start := (currentPage t - 1) * pageSize t in
    let stop := start + pageSize t in
    slice (filteredData t) start stop.

(** The two numbers [pageInfo] prints before the total. *)
Definition pageInfo_start (t : table) : Z := (currentPage t - 1) * pageSize t + 1.
Definition pageInfo_end (t : table) : Z := Z.min (currentPage t * pageSize t) (totalRecords t).

(** [get pageInfo()] *)
Definition pageInfo (t : table) : string :=
  let start := pageInfo_start t in
  let stop := pageInfo_end t in
  ToString (VNum (Num start)) ++ "-" ++ ToString (VNum (Num stop)) ++ " of "
    ++ ToString (VNum (Num (totalRecords t))).

(** [for (let i = lo; i <= hi; i++) pages.push(i)] *)
Definition push_range (lo hi : Z) : list Z :=
  map (fun k => lo + Z.of_nat k) (seq 0 (Z.to_nat (hi - lo + 1))).

(** [get pageNumbers()] *)
Definition pageNumbers (t : table) : list Z :=
  let maxPages := 5 in
  let startPage := Z.max 1 (currentPage t - maxPages / 2) in
  let endPage := Z.min (totalPages t) (startPage + maxPages - 1) in
  let startPage :=
    if endPage - startPage + 1 <? maxPages then Z.max 1 (endPage - maxPages + 1)
    else startPage in
  push_range startPage endPage.

End DataTableView.

(** ** The listeners of the English variant of the estimator script *)

Module EstimatorEnCascade.
Import Dom.
Local Open Scope js_scope.

(** [getPlaceholderText(selectId)] *)
Definition getPlaceholderText (selectId : string) : string :=
  if String.eqb selectId "brandSelect" then "Select Brand"
  else if String.eqb selectId "modelSelect" then "Select Model"
  else if String.eqb selectId "variantSelect" then "Select Variant"
  else if String.eqb selectId "yearSelect" then "Select Year"
  else "Select".

(** [resetSelects(selectIds)] *)
Definition resetSelects (selectIds : list string) : M unit :=
  forEach selectIds (fun id =>
    let* select := getElementById id in
    match select with
    | Some _ =>
        let placeholder := getPlaceholderText id in
        write id (set_innerHTML [placeholder_option placeholder]) ;;;
        write id (set_disabled true)
    | None => ret tt
    end).

(** [showLoading(selectElement)], the element given by its id. *)
Definition showLoading (id : string) : M unit :=
  write id (set_innerHTML [placeholder_option "Loading..."]) ;;;
  write id (set_disabled true).

Section WithServer.
Context (API_URLS : Estimator.api_urls) (server : string -> outcome).

(** [await fetch(url)] followed by [await response.json()] *)
Definition fetch_json (url : string) : M (list string) :=
  emit (EvFetch url) ;;;
  match server url with
  | Decoded names => ret names
  | Rejected => throw FetchError
  end.

(** [loadBrands()] *)
Definition loadBrands : M unit :=
  try_catch
    (let* brands := fetch_json (Estimator.brands API_URLS) in
     write "brandSelect" (set_innerHTML [placeholder_option "Select Brand"]) ;;;
     forEach brands (fun brand => write "brandSelect" (add_innerHTML (item_option brand))) ;;;
     write "brandSelect" (set_disabled false))
    (fun error =>
       console_error "Error loading brands:" ;;;
       EstimatorEn.showError "Failed to load brand. Please refresh the page.").

(** The [change] listener of [brandSelect]. *)
Definition brandSelect_change : M unit :=
  let* brand := read "brandSelect" value in
  if JsString.truthy brand then
    try_catch
      (showLoading "modelSelect" ;;;
       let* models := fetch_json (Estimator.models API_URLS ++ "?brand=" ++ encodeURIComponent brand) in
       write "modelSelect" (set_innerHTML [placeholder_option "Select Model"]) ;;;
       forEach models (fun model => write "modelSelect" (add_innerHTML (item_option model))) ;;;
       write "modelSelect" (set_disabled false) ;;;
       resetSelects ["variantSelect"; "yearSelect"] ;;;
       EstimatorEn.validateForm)
      (fun error =>
         console_error "Error loading models:" ;;;
         EstimatorEn.showError "Failed to load model. Please try again.")
  else
    resetSelects ["modelSelect"; "variantSelect"; "yearSelect"] ;;;
    EstimatorEn.validateForm.

(** The [change] listener of [modelSelect]. *)
Definition modelSelect_change : M unit :=
  let* brand := read "brandSelect" value in
  let* model := read "modelSelect" value in
  if JsString.truthy brand && JsString.truthy model then
    try_catch
      (showLoading "variantSelect" ;;;
       let* variants := fetch_json (Estimator.variants API_URLS ++ "?brand=" ++ encodeURIComponent brand
                                      ++ "&model=" ++ encodeURIComponent model) in
       write "variantSelect" (set_innerHTML [placeholder_option "Select Variant"]) ;;;
       forEach variants (fun variant => write "variantSelect" (add_innerHTML (item_option variant))) ;;;
       write "variantSelect" (set_disabled false) ;;;
       resetSelects ["yearSelect"] ;;;
       EstimatorEn.validateForm)
      (fun error =>
         console_error "Error loading variants:" ;;;
         EstimatorEn.showError "Failed to load variant. Please try again.")
  else
    resetSelects ["variantSelect"; "yearSelect"] ;;;
    EstimatorEn.validateForm.

(** The [change] listener of [variantSelect]. *)
Definition variantSelect_change : M unit :=
  let* brand := read "brandSelect" value in
  let* model := read "modelSelect" value in
  let* variant := read "variantSelect" value in
  if JsString.truthy brand && JsString.truthy model && JsString.truthy variant then
    try_catch
      (showLoading "yearSelect" ;;;
       let* years := fetch_json (Estimator.years API_URLS ++ "?brand=" ++ encodeURIComponent brand
                                   ++ "&model=" ++ encodeURIComponent model
                                   ++ "&variant=" ++ encodeURIComponent variant) in
       write "yearSelect" (set_innerHTML [placeholder_option "Select Year"]) ;;;
       forEach years (fun year => write "yearSelect" (add_innerHTML (item_option year))) ;;;
       write "yearSelect" (set_disabled false) ;;;
       EstimatorEn.validateForm)
      (fun error =>
         console_error "Error loading years:" ;;;
         EstimatorEn.showError "Failed to load year. Please try again.")
  else
    resetSelects ["yearSelect"] ;;;
    EstimatorEn.validateForm.

(** The listener of each level's [change] event; the form has no category. *)
Definition on_change (l : level) : M unit :=
  match l with
  | Category => ret tt
  | Brand => brandSelect_change
  | Model => modelSelect_change
  | Variant => variantSelect_change
  | Year => EstimatorEn.validateForm
  end.

End WithServer.

End EstimatorEnCascade.

(** ** The modal component ([modal()]) *)

Module Modal.

Record modal : Type := Modal {
  show : bool;
  title : string;
  content : string
}.

(** The state [modal()] starts in. *)
Definition init : modal := Modal false "" "".

(** [open(title, content)] and [close()], on the modal and the class list
    of [document.body]. *)
Definition open (title content : string) (m : modal) (body : gset string)
  : modal * gset string :=
  (Modal true title content, {[ "overflow-hidden" ]} ∪ body).

Definition close (m : modal) (body : gset string) : modal * gset string :=
  (Modal false (Modal.title m) (Modal.content m), body ∖ {[ "overflow-hidden" ]}).

End Modal.

(** ** The cookie and token helpers of the form component ([form()]) *)

Module FormComponent.
Import Js.

(** [s.trim()] on ASCII text: the white space at both ends is dropped. *)
Fixpoint trimEnd (s : string) : string :=
  match s with
  | EmptyString => EmptyString
  | String c r =>
      match trimEnd r with
      | EmptyString => if is_space c then EmptyString else String c EmptyString
      | r' => String c r'
      end
  end.

Definition trim (s : string) : string := trimEnd (skip_spaces s).

(** [s.substring(start, stop)] and [s.substring(start)] for indices that
    are not negative: both are clamped to the length, and swapped when
    [start] is the larger. *)
Definition substring (s : string) (start stop : nat) : string :=
  let len := String.length s in
  let a := Nat.min start len in
  let b := Nat.min stop len in
  String.substring (Nat.min a b) (Nat.max a b - Nat.min a b) s.

Definition substring_from (s : string) (start : nat) : string :=
  substring s start (String.length s).

(** What a helper comes to: it returns, or [decodeURIComponent] throws. *)
Inductive completion (A : Type) : Type :=
| Returns (a : A)
| URIError.
Arguments Returns {A} a.
Arguments URIError {A}.

Section WithDecoder.
(** [decodeURIComponent], which throws a [URIError] ([None]) on a
    malformed escape. *)
Context (decodeURIComponent : string -> option string).

(** The [for] loop of [getCookie] over the parts of [document.cookie]. *)
Fixpoint scan (name : string) (cookies : list string) : completion (option string) :=
  match cookies with
  | [] => Returns None
  | c :: rest =>
      let cookie := trim c in
      if String.eqb (substring cookie 0 (String.length name + 1)) (name ++ "=") then
        match decodeURIComponent (substring_from cookie (String.length name + 1)) with
        | Some cookieValue => Returns (Some cookieValue)
        | None => URIError
        end
      else scan name rest
  end.

(** [getCookie(name)], given [document.cookie]; [null] is [None]. *)
Definition getCookie (document_cookie name : string) : completion (option string) :=
  if JsString.truthy document_cookie && negb (String.eqb document_cookie "") then
    scan name (JsString.split ";" document_cookie)
  else Returns None.

(** [getCsrfToken()], given the value of the element named
    [csrfmiddlewaretoken], if there is one, and [document.cookie]. *)
Definition getCsrfToken (field : option string) (document_cookie : string)
  : completion (option string) :=
  match field with
  | Some v =>
      if JsString.truthy v then Returns (Some v)
      else getCookie document_cookie "csrftoken"
  | None => getCookie document_cookie "csrftoken"
  end.

End WithDecoder.

End FormComponent.


(** ** What the claims about the table say *)

Module TableSpec.
Import Js DataTable.

(** [n] is the ceiling of [a / b], for a positive [b]: the least integer
    with [a <= n * b]. *)
Definition ceiling_of (a b n : Z) : Prop :=
  (n - 1) * b < a <= n * b.

(** [needle] occurs in [hay] when letter case is ignored. *)
Definition ci_substring (needle hay : string) : Prop :=
  exists pre post : string,
    JsString.toLowerCase hay = (pre ++ JsString.toLowerCase needle ++ post)%string.

(** A record contains the search term in some field value; the empty term
    matches everything. *)
Definition matches_search (term : string) (item : record) : Prop :=
  term = ""%string \/
  exists v, In v (Object_values item) /\ ci_substring term (ToString v).

(** A record matches every filter that is set. *)
Definition matches_filters (fs : list (string * value)) (item : record) : Prop :=
  forall key v, In (key, v) fs -> truthy v = true ->
    ci_substring (ToString v) (ToString (get item key)).

(** The same two conditions as a test. *)
Definition retained (t : table) (item : record) : bool :=
  (negb (JsString.truthy (search t)) || search_hit (JsString.toLowerCase (search t)) item) &&
  forallb (fun kv => implb (truthy (snd kv)) (filter_hit (fst kv) (snd kv) item)) (filters t).

(** The other direction. *)
Definition flip_direction (d : string) : string :=
  if String.eqb d "asc" then "desc" else "asc".

(** The two records of the sorting example, with numbers and with the same
    numbers as strings. *)
Definition rec_a (v : value) : record := [("a"%string, v)].
Definition two : record := rec_a (VNum (Num 2)).
Definition ten : record := rec_a (VNum (Num 10)).
Definition two_s : record := rec_a (VStr "2").
Definition ten_s : record := rec_a (VStr "10").


(** A table state with 47 records. *)
Definition table47 (c : config) : table :=
  set_totalRecords 47 (dataTable c).

End TableSpec.


(** ** What the claims about the form say *)

Module FormSpec.
Import Dom.

(** The page a computation leaves and what it returned. *)
Definition final {A} (c : M A) (w : page) : page := snd (c w).
Definition returned {A} (c : M A) (w : page) : res A := fst (c w).

(** The selects with these ids are on the page. *)
Definition has_selects (ids : list string) (w : page) : Prop :=
  forall id, In id ids -> is_Some (selects w !! id).

(** The value of the select with this id. *)
Definition value_at (id : string) (w : page) : string :=
  match selects w !! id with
  | Some s => value s
  | None => ""
  end.

(** A select that is disabled and shows only a placeholder, and one that
    is enabled and lists the fetched names after the placeholder. *)
Definition reset_select (placeholder : string) : select :=
  Select [placeholder_option placeholder] true "".

Definition populated_select (placeholder : string) (names : list string) : select :=
  Select (placeholder_option placeholder :: map item_option names) false "".

(** The select after [names.forEach(n => el.innerHTML += option(n))]. *)
Definition add_all (names : list string) (s : select) : select :=
  fold_left (fun s n => add_innerHTML (item_option n) s) names s.

(** The button after [validateForm()] found the form valid or not. *)
Definition validated (isValid : bool) (b : button) : button :=
  let b := set_btn_disabled (negb isValid) b in
  let b := classList_toggle "disabled:opacity-50" (negb isValid) b in
  if isValid then classList_remove "btn-disabled" (classList_add "btn-primary" b)
  else classList_add "btn-disabled" (classList_remove "btn-primary" b).

(** Level [m] is below level [n] in the cascade. *)
Definition below (n m : level) : Prop := (level_index n < level_index m)%nat.

Definition levels : list level := [Category; Brand; Model; Variant; Year].

(** The level whose options the listener of a level loads. *)
Definition next (l : level) : option level :=
  match l with
  | Category => Some Brand
  | Brand => Some Model
  | Model => Some Variant
  | Variant => Some Year
  | Year => None
  end.

(** Some input named [g] is checked. *)
Definition group_checked (g : string) (w : page) : Prop :=
  exists i, In i (inputs w) /\ name i = g /\ checked i = true.

(** The number of requests made so far. *)
Definition requests (w : page) : nat := length (List.filter is_fetch (log w)).

(** The notification [showError(message)] gives. *)
Definition notification (message : string) (w : page) : event :=
  if swal w then EvSwalFire "error" "Oops!" message else EvAlert message.

(** The first group of the list with no checked input. *)
Fixpoint first_unchecked (groups : list string) (w : page) : option string :=
  match groups with
  | [] => None
  | g :: r => if has_checked g w then first_unchecked r w else Some g
  end.

(** The first of these selects whose value is empty. *)
Fixpoint first_unset (ids : list string) (w : page) : option string :=
  match ids with
  | [] => None
  | id :: r => if JsString.truthy (value_at id w) then first_unset r w else Some id
  end.

(** What a form can miss: a selector or a radio group. *)
Inductive field : Type :=
| Selector (id : string)
| RadioGroup (groupName : string).

(** The first missing field, in the order of the checks: the selectors,
    then the radio groups. *)
Definition first_missing (ids groups : list string) (w : page) : option field :=
  match first_unset ids w with
  | Some id => Some (Selector id)
  | None =>
      match first_unchecked groups w with
      | Some g => Some (RadioGroup g)
      | None => None
      end
  end.

End FormSpec.

Module EstimatorSpec.
Import Dom FormSpec Estimator.

Definition ids : list string := map select_id levels.

(** The values the listener of a level tests before it fetches. *)
Definition tested (l : level) : list level :=
  match l with
  | Category => [Category]
  | Brand => [Brand]
  | Model => [Brand; Model]
  | Variant => [Brand; Model; Variant]
  | Year => []
  end.

(** The listener of this level goes on to fetch. *)
Definition fetches (l : level) (w : page) : bool :=
  match l with
  | Year => false
  | _ => forallb (fun m => JsString.truthy (value_at (select_id m) w)) (tested l)
  end.

(** The URL it requests. *)
Definition request_url (u : api_urls) (l : level) (w : page) : string :=
  let v m := encodeURIComponent (value_at (select_id m) w) in
  match l with
  | Category => brands u ++ "?category=" ++ v Category
  | Brand => models u ++ "?brand=" ++ v Brand
  | Model => variants u ++ "?brand=" ++ v Brand ++ "&model=" ++ v Model
  | Variant => years u ++ "?brand=" ++ v Brand ++ "&model=" ++ v Model ++ "&variant=" ++ v Variant
  | Year => ""
  end.

(** The select it populates, the selects it resets after populating, and
    the selects it resets when it does not fetch. *)
Definition target (l : level) : string :=
  match next l with
  | Some t => select_id t
  | None => ""
  end.

Definition reset_after_populating (l : level) : list string :=
  match l with
  | Category => ["modelSelect"; "variantSelect"; "yearSelect"]
  | Brand => ["variantSelect"; "yearSelect"]
  | Model => ["yearSelect"]
  | Variant | Year => []
  end.

Definition reset_without_fetch (l : level) : list string :=
  match l with
  | Category => ["brandSelect"; "modelSelect"; "variantSelect"; "yearSelect"]
  | Brand => ["modelSelect"; "variantSelect"; "yearSelect"]
  | Model => ["variantSelect"; "yearSelect"]
  | Variant => ["yearSelect"]
  | Year => []
  end.

(** The placeholder of the populated level, and the two messages of the
    [catch] block. *)
Definition populated_placeholder (l : level) : string :=
  match l with
  | Category => "Pilih Brand"
  | Brand => "Pilih Model"
  | Model => "Pilih Variant"
  | Variant => "Pilih Tahun"
  | Year => ""
  end.

Definition logged_message (l : level) : string :=
  match l with
  | Category => "Error loading brands:"
  | Brand => "Error loading models:"
  | Model => "Error loading variants:"
  | Variant => "Error loading years:"
  | Year => ""
  end.

Definition shown_message (l : level) : string :=
  match l with
  | Category => "Gagal memuat brand. Silakan coba lagi."
  | Brand => "Gagal memuat model. Silakan coba lagi."
  | Model => "Gagal memuat variant. Silakan coba lagi."
  | Variant => "Gagal memuat tahun. Silakan coba lagi."
  | Year => ""
  end.

(** The selects after [resetSelects(ids)]. *)
Definition reset_all (ids : list string) (m : gmap string select) : gmap string select :=
  fold_left (fun m id =>
               match m !! id with
               | Some _ => <[id := reset_select (getPlaceholderText id)]> m
               | None => m
               end) ids m.

(** The test of [validateForm()]. *)
Definition is_valid (w : page) : bool :=
  forallb (fun l => JsString.truthy (value_at (select_id l) w)) levels &&
  forallb (fun g => has_checked g w) requiredRadioGroups.

(** The [try] and [catch] blocks the four listeners share, for the level
    to populate, the URL, the placeholder, the levels to reset and the two
    messages. *)
Definition listener_body (server : string -> outcome)
    (target url text : string) (downstream : list string) (logged shown : string) : M unit :=
  try_catch
    (bind (showLoading target) (fun _ =>
     bind (fetch_json server url) (fun names =>
     bind (write target (set_innerHTML [placeholder_option text])) (fun _ =>
     bind (forEach names (fun n => write target (add_innerHTML (item_option n)))) (fun _ =>
     bind (write target (set_disabled false)) (fun _ =>
     bind (resetSelects downstream) (fun _ =>
     validateForm)))))))
    (fun error => bind (console_error logged) (fun _ => showError shown)).

(** The page after the [try] block ran through, and after the [catch]
    block. *)
Definition after_success (target url text : string) (names downstream : list string)
    (w : page) : page :=
  let w1 := with_selects
              (reset_all downstream (<[target := populated_select text names]> (selects w)))
              (with_log (log w ++ [EvFetch url]) w) in
  with_submitBtn (validated (is_valid w1) (submitBtn w1)) w1.

Definition after_failure (target url logged shown : string) (w : page) : page :=
  with_log (log w ++ [EvFetch url; EvConsoleError logged; notification shown w])
    (with_selects (<[target := reset_select "Loading..."]> (selects w)) w).

(** The page after [resetSelects(downstream); validateForm()]. *)
Definition after_reset (downstream : list string) (w : page) : page :=
  let w1 := with_selects (reset_all downstream (selects w)) w in
  with_submitBtn (validated (is_valid w1) (submitBtn w1)) w1.

(** The form is complete: every selector has a value and every required
    radio group a checked input. *)
Definition complete (w : page) : Prop :=
  (forall l : level, value_at (select_id l) w <> "") /\
  (forall g, In g requiredRadioGroups -> group_checked g w).

(** A page with the five selects of the form, each enabled and holding
    the given value, and with these inputs. *)
Definition chosen (v : string) : select :=
  Select [placeholder_option "Pilih"; item_option v] false v.

Definition example_page (category brand model variant year : string) (ins : list input) : page :=
  Page (list_to_map [ ("categorySelect", chosen category); ("brandSelect", chosen brand);
                      ("modelSelect", chosen model); ("variantSelect", chosen variant);
                      ("yearSelect", chosen year) ])
       ins (Button true ∅ "Submit" None) true [].

Definition example_urls : api_urls :=
  ApiUrls "/api/categories/" "/api/brands/" "/api/models/" "/api/variants/" "/api/years/".

(** A checked radio input for every required group. *)
Definition all_checked : list input :=
  map (fun g => Input g "radio" true true None) requiredRadioGroups.

End EstimatorSpec.

Module EstimatorEnSpec.
Import Dom FormSpec EstimatorEn.

(** The selects of this form: the cascade starts at the brand. *)
Definition ids : list string :=
  ["brandSelect"; "modelSelect"; "variantSelect"; "yearSelect"].

(** The test of [validateForm()]. *)
Definition is_valid (w : page) : bool :=
  forallb (fun id => JsString.truthy (value_at id w)) ids &&
  forallb (fun g => has_checked g w) (uniqueGroupNames w).

(** A radio group is required when one of its radio inputs is. *)
Definition required_group (g : string) (w : page) : Prop :=
  exists i, In i (inputs w) /\ type i = "radio" /\ required i = true /\ name i = g.

(** The form is complete: every selector has a value and every required
    radio group a checked input. *)
Definition complete (w : page) : Prop :=
  (forall id, In id ids -> value_at id w <> "") /\
  (forall g, required_group g w -> group_checked g w).

Definition example_page (brand model variant year : string) (ins : list input) : page :=
  Page (list_to_map [ ("brandSelect", EstimatorSpec.chosen brand);
                      ("modelSelect", EstimatorSpec.chosen model);
                      ("variantSelect", EstimatorSpec.chosen variant);
                      ("yearSelect", EstimatorSpec.chosen year) ])
       ins (Button true ∅ "Submit" None) true [].

End EstimatorEnSpec.

Module AssessmentSpec.
Import Dom FormSpec Assessment.

Definition ids : list string := map select_id levels.

(** The listener of this level goes on to fetch. *)
Definition fetches (l : level) (w : page) : bool :=
  match l with
  | Year => false
  | _ => forallb (fun m => JsString.truthy (value_at (select_id m) w)) (EstimatorSpec.tested l)
  end.

(** The URL it requests and the message of its [catch] block. *)
Definition request_url (l : level) (w : page) : string :=
  let v m := value_at (select_id m) w in
  match l with
  | Category => "/api/brands/?category=" ++ v Category
  | Brand => "/api/models/?brand=" ++ v Brand
  | Model => "/api/variants/?brand=" ++ v Brand ++ "&model=" ++ v Model
  | Variant => "/api/years/?brand=" ++ v Brand ++ "&model=" ++ v Model ++ "&variant=" ++ v Variant
  | Year => ""
  end.

Definition logged_message (l : level) : string := EstimatorSpec.logged_message l.

(** A page with the five selects of the assessment form, each enabled and
    holding the given value. *)
Definition example_page (category brand model variant year : string) : page :=
  Page (list_to_map [ ("category", EstimatorSpec.chosen category);
                      ("brand", EstimatorSpec.chosen brand);
                      ("model", EstimatorSpec.chosen model);
                      ("variant", EstimatorSpec.chosen variant);
                      ("year", EstimatorSpec.chosen year) ])
       [] (Button false ∅ "Submit" None) true [].

End AssessmentSpec.

Module SubmitSpec.
Import Dom FormSpec.

(** The message [validateFormBeforeSubmit()] shows for a missing field, in
    the two scripts. *)
Definition message_for (f : field) : string :=
  match f with
  | Selector _ => "Silakan lengkapi semua spesifikasi kendaraan."
  | RadioGroup g => "Silakan pilih kondisi untuk " ++ Estimator.getReadableFieldName g ++ "."
  end.

Definition message_for_en (f : field) (w : page) : string :=
  match f with
  | Selector _ => "Please complete all vehicle specifications."
  | RadioGroup g => "Please select condition for " ++ EstimatorEn.getReadableFieldName g w ++ "."
  end.

(** The first missing field of each form. *)
Definition missing (w : page) : option field :=
  first_missing EstimatorSpec.ids Estimator.requiredRadioGroups w.

Definition missing_en (w : page) : option field :=
  first_missing EstimatorEnSpec.ids (EstimatorEn.uniqueGroupNames w) w.

(** Validation passes when no field is missing. *)
Definition passes (m : option field) : bool :=
  match m with
  | None => true
  | Some _ => false
  end.

(** The page after a blocked submission: the default action is prevented
    and the message is shown; nothing else has changed. *)
Definition blocked (message : string) (w : page) : page :=
  with_log (log w ++ [EvPreventDefault; notification message w]) w.

(** The page once the submission is under way: the button is disabled and
    shows the busy markup, its old text is kept, and the form is set to be
    submitted after a second. *)
Definition submitting (w : page) : page :=
  with_log (log w ++ [EvPreventDefault; EvFormSubmit 1000])
    (with_submitBtn
       (Button true (classList (submitBtn w)) Estimator.loading_markup
          (Some (btn_innerHTML (submitBtn w)))) w).

(** The form is being submitted. *)
Definition is_submit (e : event) : bool :=
  match e with
  | EvFormSubmit _ => true
  | _ => false
  end.

End SubmitSpec.


(** ** Notions for the further properties of the table *)

Module TableMoreSpec.
Import Js DataTable DataTableView.

(** [totalPages] is up to date with [totalRecords] and [pageSize]. *)
Definition paged (t : table) : Prop :=
  totalPages t = ceil_div (totalRecords t) (pageSize t).

(** The rows shown on page [p]. *)
Definition page_rows (t : table) (p : Z) : list record :=
  paginatedData (set_currentPage p t).

(** The pages 1 to [n]. *)
Definition pages_upto (n : Z) : list Z := push_range 1 n.

(** The integers a column holds, when it holds only integers. *)
Fixpoint column (field : string) (rows : list record) : option (list Z) :=
  match rows with
  | [] => Some []
  | r :: rest =>
      match get r field, column field rest with
      | VNum (Num z), Some zs => Some (z :: zs)
      | _, _ => None
      end
  end.

(** A list of integers that never goes down, or never goes up. *)
Fixpoint ascending (l : list Z) : Prop :=
  match l with
  | x :: ((y :: _) as r) => x <= y /\ ascending r
  | _ => True
  end.

Fixpoint descending (l : list Z) : Prop :=
  match l with
  | x :: ((y :: _) as r) => y <= x /\ descending r
  | _ => True
  end.

(** The value of a key in a list of pairs: that of its first entry. *)
Fixpoint assoc {A} (l : list (string * A)) (k : string) : option A :=
  match l with
  | [] => None
  | (k', v) :: r => if String.eqb k' k then Some v else assoc r k
  end.

(** The five parameters the table sends of its own. *)
Definition own_params (t : table) : list (string * string) :=
  [ ("page", ToString (VNum (Num (currentPage t))));
    ("size", ToString (VNum (Num (pageSize t))));
    ("search", search t);
    ("sort", match sortField t with Some f => f | None => "" end);
    ("direction", sortDirection t) ].

(** A client-side table that shows these rows, [size] to a page. *)
Definition showing (rows : list record) (size : Z) : table :=
  Table rows rows false None 1 size (ceil_div (Z.of_nat (length rows)) size)
    (Z.of_nat (length rows)) None "asc" "" [] (Config "" [] false).

End TableMoreSpec.

(** ** Notions for the further properties of the forms *)

Module CascadeSpec.
Import Dom FormSpec.

(** The select of this id is on the page and enabled. *)
Definition enabled (id : string) (w : page) : Prop :=
  exists s, selects w !! id = Some s /\ disabled s = false.

(** A level is enabled only when every level above it holds a value. *)
Definition gated (select_id : level -> string) (w : page) : Prop :=
  forall m, enabled (select_id m) w ->
    forall l, below l m -> value_at (select_id l) w <> "".

(** The request of a listener, if it makes one, is answered. *)
Definition answered (server : string -> outcome) (fetches : bool) (url : string) : Prop :=
  fetches = true -> exists names, server url = Decoded names.

(** The URLs requested so far, in order. *)
Fixpoint fetched_urls (l : list event) : list string :=
  match l with
  | [] => []
  | EvFetch url :: r => url :: fetched_urls r
  | _ :: r => fetched_urls r
  end.

(** The listener of level [n] run on page [w] makes one request, to [url]. *)
Definition requests_url (on_change : level -> M unit) (n : level) (w : page) (url : string)
  : Prop :=
  fetched_urls (log (final (on_change n) w)) = (fetched_urls (log w) ++ [url])%list.

(** Two pages hold the same values in the selects a URL of level [n]
    names. *)
Definition same_selection (select_id : level -> string) (n : level) (w1 w2 : page) : Prop :=
  forall l, In l (EstimatorSpec.tested n) ->
    value_at (select_id l) w1 = value_at (select_id l) w2.

End CascadeSpec.

Module AssessmentCascadeSpec.
Import Dom FormSpec Assessment.

(** The select [resetSelects] of [car-assessment.js] leaves under an id. *)
Definition reset_select_of (id : string) : select :=
  Select [plain_placeholder ("Pilih " ++ JsString.capitalize id)] true "".

(** The selects after it has reset these ids, all on the page. *)
Definition reset_all (ids : list string) (m : gmap string select) : gmap string select :=
  fold_left (fun m id => <[id := reset_select_of id]> m) ids m.

(** The select it populates: the placeholder, not disabled and not marked
    selected, then the names. *)
Definition populated_select (placeholder : string) (names : list string) : select :=
  Select (plain_placeholder placeholder :: map item_option names) false "".

Definition populated_placeholder (l : level) : string :=
  match l with
  | Category => "Pilih Brand"
  | Brand => "Pilih Model"
  | Model => "Pilih Variant"
  | Variant => "Pilih Tahun"
  | Year => ""
  end.

(** The page the listener of a level leaves, case by case. *)
Definition after_change (server : string -> outcome) (n : level) (w : page) : page :=
  let url := AssessmentSpec.request_url n w in
  if AssessmentSpec.fetches n w then
    match server url with
    | Decoded names =>
        with_selects
          (reset_all (match n with
                      | Category => ["model"; "variant"; "year"]
                      | Brand => ["variant"; "year"]
                      | Model => ["year"]
                      | _ => []
                      end)
             (<[match next n with Some t => select_id t | None => "" end
                := populated_select (populated_placeholder n) names]> (selects w)))
          (with_log (log w ++ [EvFetch url]) w)
    | Rejected => with_log (log w ++ [EvFetch url; EvConsoleError (AssessmentSpec.logged_message n)]) w
    end
  else
    with_selects
      (reset_all (match n with
                  | Category => ["brand"; "model"; "variant"; "year"]
                  | Brand => ["model"; "variant"; "year"]
                  | Model => ["variant"; "year"]
                  | Variant => ["year"]
                  | Year => []
                  end) (selects w)) w.

End AssessmentCascadeSpec.

Module EstimatorEnCascadeSpec.
Import Dom FormSpec EstimatorEnCascade.

(** The selects after [resetSelects(ids)]. *)
Definition reset_all (ids : list string) (m : gmap string select) : gmap string select :=
  fold_left (fun m id =>
               match m !! id with
               | Some _ => <[id := reset_select (getPlaceholderText id)]> m
               | None => m
               end) ids m.

(** The listener of this level goes on to fetch. *)
Definition fetches (l : level) (w : page) : bool :=
  match l with
  | Category | Year => false
  | _ => forallb (fun m => JsString.truthy (value_at (Estimator.select_id m) w))
           (EstimatorSpec.tested l)
  end.

(** The placeholder of the populated level and the message shown by the
    [catch] block. *)
Definition populated_placeholder (l : level) : string :=
  match l with
  | Brand => "Select Model"
  | Model => "Select Variant"
  | Variant => "Select Year"
  | Category | Year => ""
  end.

Definition shown_message (l : level) : string :=
  match l with
  | Brand => "Failed to load model. Please try again."
  | Model => "Failed to load variant. Please try again."
  | Variant => "Failed to load year. Please try again."
  | Category | Year => ""
  end.

(** The [try] and [catch] blocks the three listeners share. *)
Definition listener_body (server : string -> outcome)
    (target url text : string) (downstream : list string) (logged shown : string) : M unit :=
  try_catch
    (bind (showLoading target) (fun _ =>
     bind (fetch_json server url) (fun names =>
     bind (write target (set_innerHTML [placeholder_option text])) (fun _ =>
     bind (forEach names (fun n => write target (add_innerHTML (item_option n)))) (fun _ =>
     bind (write target (set_disabled false)) (fun _ =>
     bind (resetSelects downstream) (fun _ =>
     EstimatorEn.validateForm)))))))
    (fun error => bind (console_error logged) (fun _ => EstimatorEn.showError shown)).

(** The page after the [try] block ran through, after the [catch] block,
    and after [resetSelects(downstream); validateForm()]. *)
Definition after_success (target url text : string) (names downstream : list string)
    (w : page) : page :=
  let w1 := with_selects
              (reset_all downstream (<[target := populated_select text names]> (selects w)))
              (with_log (log w ++ [EvFetch url]) w) in
  with_submitBtn (validated (EstimatorEnSpec.is_valid w1) (submitBtn w1)) w1.

Definition after_failure (target url logged shown : string) (w : page) : page :=
  with_log (log w ++ [EvFetch url; EvConsoleError logged; notification shown w])
    (with_selects (<[target := reset_select "Loading..."]> (selects w)) w).

Definition after_reset (downstream : list string) (w : page) : page :=
  let w1 := with_selects (reset_all downstream (selects w)) w in
  with_submitBtn (validated (EstimatorEnSpec.is_valid w1) (submitBtn w1)) w1.

(** The levels that have a listener which may fetch. *)
Definition has_listener (l : level) : Prop := l = Brand \/ l = Model \/ l = Variant.

End EstimatorEnCascadeSpec.

Module CookieSpec.
Import Js FormComponent.

(** A cookie as [document.cookie] lists it, and the whole string for a
    jar of cookies. *)
Definition pair_text (nv : string * string) : string := fst nv ++ "=" ++ snd nv.

Definition document_cookie (jar : list (string * string)) : string :=
  JsString.join "; " (map pair_text jar).

(** Text without white space and without [;], and a name: such text
    without [=]. *)
Definition plain (s : string) : Prop :=
  forall c, In c (list_ascii_of_string s) -> is_space c = false /\ c <> ";"%char.

Definition without_equals (s : string) : Prop :=
  forall c, In c (list_ascii_of_string s) -> c <> "="%char.

Definition well_formed (jar : list (string * string)) : Prop :=
  forall n v, In (n, v) jar -> plain n /\ without_equals n /\ plain v.

(** The decoded value, or the error of the decoder. *)
Definition decoded (decodeURIComponent : string -> option string) (v : string)
  : completion (option string) :=
  match decodeURIComponent v with
  | Some d => Returns (Some d)
  | None => URIError
  end.

End CookieSpec.

Module ModalSpec.
Import Modal.

(** The class that locks the scrolling of the page. *)
Definition locked (body : gset string) : Prop := "overflow-hidden" ∈ body.

End ModalSpec.

Module ReadableSpec.
Import Dom.

(** A field name with every [_] replaced by a space. *)
Fixpoint spaced (s : string) : string :=
  match s with
  | EmptyString => EmptyString
  | String c r => String (if ascii_dec c "_" then " "%char else c) (spaced r)
  end.

(** The title of the card around the first input of this name, if it has
    one. *)
Definition title_of (fieldName : string) (w : page) : option string :=
  match List.find (fun i => String.eqb (name i) fieldName) (inputs w) with
  | Some radioInput => card_title radioInput
  | None => None
  end.

End ReadableSpec.


(** * Properties of the data table *)

Section TableFacts.
Import Js DataTable TableSpec.
Context (fetch : string -> list (string * string) -> outcome).

Lemma ceil_div_ceiling a b : 0 < b -> ceiling_of a b (ceil_div a b).
Proof.
  intros Hb. unfold ceiling_of, ceil_div.
  pose proof (Z.div_mod (- a) b ltac:(lia)) as Hdm.
  pose proof (Z.mod_pos_bound (- a) b Hb) as Hm.
  nia.
Qed.

Lemma ceiling_of_unique a b n m : 0 < b -> ceiling_of a b n -> ceiling_of a b m -> n = m.
Proof. unfold ceiling_of. intros Hb Hn Hm. nia. Qed.

(** [loadData] does not touch the page number, the page size or the sort
    settings. *)
Lemma loadData_frame params t :
  let t' := loadData fetch params t in
  currentPage t' = currentPage t /\ pageSize t' = pageSize t /\
  sortField t' = sortField t /\ sortDirection t' = sortDirection t /\
  cfg t' = cfg t /\ search t' = search t /\ filters t' = filters t.
Proof.
  unfold loadData. cbn.
  destruct (fetch _ _) as [|r]; cbn; [tauto|].
  destruct (serverSide (cfg t)); cbn; tauto.
Qed.

Lemma filter_filter_andb {A} (p q : A -> bool) (l : list A) :
  List.filter q (List.filter p l) = List.filter (fun x => p x && q x) l.
Proof.
  induction l as [|x l IH]; [reflexivity|]. cbn.
  destruct (p x); cbn; [destruct (q x)|]; rewrite IH; reflexivity.
Qed.

Lemma fold_filters (fs : list (string * value)) (p : record -> bool) (l : list record) :
  fold_left (fun filtered kv =>
               if truthy (snd kv) then List.filter (filter_hit (fst kv) (snd kv)) filtered
               else filtered) fs (List.filter p l)
  = List.filter (fun item =>
      p item && forallb (fun kv => implb (truthy (snd kv)) (filter_hit (fst kv) (snd kv) item)) fs) l.
Proof.
  revert p. induction fs as [|[k v] fs IH]; intros p; cbn [fold_left forallb fst snd].
  - apply List.filter_ext. intros item. now rewrite andb_true_r.
  - destruct (truthy v); cbn [implb].
    + rewrite filter_filter_andb, IH. apply List.filter_ext. intros item.
      now rewrite andb_assoc.
    + rewrite IH. apply List.filter_ext. intros item. reflexivity.
Qed.

Lemma filter_all {A} (l : list A) : List.filter (fun _ => true) l = l.
Proof. induction l as [|x l IH]; cbn; congruence. Qed.

(** The view [applyFilters] computes, in one pass. *)
Lemma applyFilters_filter (t u : table) :
  search u = search t -> filters u = filters t ->
  filteredData (applyFilters u) = List.filter (retained t) (data u).
Proof.
  intros Hs Hf. unfold applyFilters, retained. cbn [filteredData set_totalRecords set_filteredData].
  rewrite Hs, Hf.
  destruct (JsString.truthy (search t)); cbn [negb orb].
  - apply fold_filters.
  - rewrite <- (filter_all (data u)) at 1. rewrite fold_filters. reflexivity.
Qed.

Lemma append_cons (c : ascii) (s t : string) :
  (String c s ++ t)%string = String c (s ++ t)%string.
Proof. reflexivity. Qed.

Lemma append_empty (t : string) : (EmptyString ++ t)%string = t.
Proof. reflexivity. Qed.

Lemma startsWith_spec (s t : string) :
  JsString.startsWith s t = true <-> exists post, s = (t ++ post)%string.
Proof.
  revert s. induction t as [|b t IH]; intros [|a s]; cbn [JsString.startsWith].
  - split; [intros _; now exists ""%string|reflexivity].
  - split; [intros _; now exists (String a s)|reflexivity].
  - split; [discriminate|intros [post H]; rewrite append_cons in H; discriminate].
  - destruct (ascii_dec a b) as [->|Hne]; cbn [andb].
    + rewrite IH. split; intros [post H]; exists post.
      * now rewrite append_cons, H.
      * rewrite append_cons in H. congruence.
    + split; [discriminate|intros [post H]; rewrite append_cons in H; congruence].
Qed.

Lemma includes_spec (s t : string) :
  JsString.includes s t = true <-> exists pre post, s = (pre ++ t ++ post)%string.
Proof.
  induction s as [|a s IH]; cbn [JsString.includes]; rewrite orb_true_iff, startsWith_spec.
  - split.
    + intros [[post H]|H]; [|discriminate]. now exists ""%string, post.
    + intros (pre & post & H). left. destruct pre as [|c pre].
      * now exists post.
      * rewrite append_cons in H. discriminate.
  - rewrite IH. split.
    + intros [[post H]|(pre & post & H)].
      * now exists ""%string, post.
      * exists (String a pre), post. now rewrite append_cons, H.
    + intros (pre & post & H). destruct pre as [|c pre].
      * left. now exists post.
      * right. exists pre, post. rewrite append_cons in H. congruence.
Qed.

Lemma truthy_false_iff (s : string) : JsString.truthy s = false <-> s = ""%string.
Proof. destruct s; cbn; split; congruence. Qed.

Lemma search_hit_spec (term : string) (item : record) :
  search_hit (JsString.toLowerCase term) item = true <->
  exists v, In v (Object_values item) /\ ci_substring term (ToString v).
Proof.
  unfold search_hit. rewrite existsb_exists.
  split; intros (v & Hin & H); exists v; (split; [exact Hin|]);
    unfold ci_substring in *; now apply includes_spec.
Qed.

Lemma retained_spec (t : table) (item : record) :
  retained t item = true <->
  matches_search (search t) item /\ matches_filters (filters t) item.
Proof.
  unfold retained, matches_search, matches_filters.
  rewrite andb_true_iff, orb_true_iff, negb_true_iff, truthy_false_iff, search_hit_spec,
    forallb_forall.
  apply and_iff_compat_l. split.
  - intros H key v Hin Hv. specialize (H (key, v) Hin). cbn in H. rewrite Hv in H.
    now apply includes_spec.
  - intros H [key v] Hin. cbn. destruct (truthy v) eqn:Hv; [|reflexivity].
    cbn. apply includes_spec. now apply H.
Qed.

End TableFacts.

Section TableClaims.
Import Js DataTable TableSpec.

(** C4. After [calculatePagination], [totalPages] is the ceiling of
    [totalRecords / pageSize] (page size positive), and [goToPage(p)] with
    [p < 1] or [p > totalPages] changes nothing; with 47 records and page
    size 25 there are 2 pages and [goToPage(3)] is a no-op. *)
Theorem C4_pagination fetch (t : table) (Hsize : 0 < pageSize t) :
  ceiling_of (totalRecords t) (pageSize t) (totalPages (calculatePagination t)) /\
  (forall n, ceiling_of (totalRecords t) (pageSize t) n -> totalPages (calculatePagination t) = n) /\
  (forall p, p < 1 \/ p > totalPages t -> goToPage fetch p t = t) /\
  (forall c, totalPages (calculatePagination (table47 c)) = 2 /\
             goToPage fetch 3 (calculatePagination (table47 c)) = calculatePagination (table47 c)).
Proof.
  split; [|split; [|split]].
  - cbn. now apply ceil_div_ceiling.
  - intros n Hn. cbn. apply (ceiling_of_unique (totalRecords t) (pageSize t)); try assumption.
    now apply ceil_div_ceiling.
  - intros p Hp. unfold goToPage.
    destruct (1 <=? p) eqn:H1; destruct (p <=? totalPages t) eqn:H2; try reflexivity.
    apply Z.leb_le in H1, H2. lia.
  - intros c. split; reflexivity.
Qed.

Lemma C4_pagination_witness :
  let t := table47 (Config "/api/cars" [] true) in
  0 < pageSize t /\
  ceiling_of 47 25 (totalPages (calculatePagination t)) /\
  goToPage (fun _ _ => Rejected) 0 t = t.
Proof.
  cbv zeta.
  assert (Hs : 0 < pageSize (table47 (Config "/api/cars" [] true))) by reflexivity.
  split; [exact Hs|].
  pose proof (C4_pagination (fun _ _ => Rejected) _ Hs) as (Hc & _ & Hg & _).
  split; [exact Hc|].
  apply Hg. left. reflexivity.
Defined.

(** C6. [sort(field)] on the field already sorted by flips the direction
    between 'asc' and 'desc', so that a second call on the same field
    always flips the direction the first one left; [sort(field)] on another
    field selects it, ascending. *)
Theorem C6_sort_direction fetch (field : string) (t : table) :
  let t1 := sort fetch field t in
  let t2 := sort fetch field t1 in
  sortField t1 = Some field /\
  (sortField t = Some field -> sortDirection t = "asc"%string -> sortDirection t1 = "desc"%string) /\
  (sortField t = Some field -> sortDirection t = "desc"%string -> sortDirection t1 = "asc"%string) /\
  (sortField t <> Some field -> sortDirection t1 = "asc"%string) /\
  (sortDirection t1 = "asc"%string \/ sortDirection t1 = "desc"%string) /\
  sortField t2 = Some field /\
  sortDirection t2 = flip_direction (sortDirection t1) /\
  sortDirection t2 <> sortDirection t1.
Proof.
  assert (Hstep : forall u : table,
    sortField (sort fetch field u) = Some field /\
    sortDirection (sort fetch field u) =
      (if decide (sortField u = Some field) then flip_direction (sortDirection u) else "asc"%string)).
  { intros u. unfold sort.
    destruct (decide (sortField u = Some field)) as [He|Hne].
    - cbn [cfg set_sortDirection]. destruct (serverSide (cfg u)).
      + destruct (loadData_frame fetch []
          (set_sortDirection (if (sortDirection u =? "asc")%string then "desc"%string else "asc"%string) u))
          as (_ & _ & Hf & Hd & _).
        rewrite Hf, Hd. cbn. split; [exact He|reflexivity].
      + cbn. split; [exact He|reflexivity].
    - cbn [cfg set_sortDirection set_sortField]. destruct (serverSide (cfg u)).
      + destruct (loadData_frame fetch [] (set_sortDirection "asc" (set_sortField (Some field) u)))
          as (_ & _ & Hf & Hd & _).
        rewrite Hf, Hd. cbn. split; reflexivity.
      + cbn. split; reflexivity. }
  cbv zeta.
  destruct (Hstep t) as [Hf1 Hd1].
  destruct (Hstep (sort fetch field t)) as [Hf2 Hd2].
  rewrite Hf1 in Hd2. rewrite decide_True in Hd2 by reflexivity.
  assert (Hdir : sortDirection (sort fetch field t) = "asc"%string \/
                 sortDirection (sort fetch field t) = "desc"%string).
  { rewrite Hd1. destruct (decide _); [|now left]. unfold flip_direction.
    destruct (String.eqb _ _); [now right|now left]. }
  repeat split.
  - exact Hf1.
  - intros He Ha. rewrite Hd1, decide_True by exact He. now rewrite Ha.
  - intros He Ha. rewrite Hd1, decide_True by exact He. now rewrite Ha.
  - intros Hne. now rewrite Hd1, decide_False by exact Hne.
  - exact Hdir.
  - exact Hf2.
  - exact Hd2.
  - rewrite Hd2. destruct Hdir as [-> | ->]; discriminate.
Qed.

(** C10. After [performSearch()] the current page is 1, in server-side
    and in client-side mode. *)
Theorem C10_performSearch_first_page fetch (t : table) :
  currentPage (performSearch fetch t) = 1.
Proof.
  unfold performSearch. destruct (serverSide (cfg t)) eqn:Hmode.
  - destruct (loadData_frame fetch [] (set_currentPage 1 t)) as (Hp & _).
    rewrite Hp. reflexivity.
  - reflexivity.
Qed.

(** C5. [applyFilters()] keeps, in their order, exactly the held records
    that contain the search term in some field value, letter case ignored
    (every record when the term is empty), and that match every filter that
    is set in the same way on that filter's field; with no search term and
    no filter it keeps every record. *)
Theorem C5_applyFilters (t : table) :
  let t' := applyFilters t in
  filteredData t' = List.filter (retained t) (data t) /\
  (forall item, retained t item = true <->
     matches_search (search t) item /\ matches_filters (filters t) item) /\
  (forall item, In item (filteredData t') <->
     In item (data t) /\ matches_search (search t) item /\ matches_filters (filters t) item) /\
  (search t = ""%string -> filters t = [] -> filteredData t' = data t) /\
  totalRecords t' = Z.of_nat (length (filteredData t')) /\
  data t' = data t.
Proof.
  cbv zeta.
  pose proof (applyFilters_filter t t eq_refl eq_refl) as Hview.
  split; [exact Hview|]. split; [apply retained_spec|]. split; [|split; [|split]].
  - intros item. rewrite Hview, filter_In, retained_spec. tauto.
  - intros Hs Hf. rewrite Hview. unfold retained. rewrite Hs, Hf. cbn.
    apply filter_all.
  - reflexivity.
  - reflexivity.
Qed.

(** The example of the specification: searching for "x" keeps the records
    with an "x" or an "X" in some field, and only those. *)
Example applyFilters_search_x :
  let rows := [ [("model", VStr "Xpander"); ("year", VNum (Num 2019))];
                [("model", VStr "Avanza"); ("year", VNum (Num 2020))];
                [("model", VStr "Rush"); ("trim", VStr "GR x")] ] in
  let t := set_data rows (dataTable (Config "" [] false)) in
  let t := Table (data t) (filteredData t) (loading t) (error t) (currentPage t) (pageSize t)
             (totalPages t) (totalRecords t) (sortField t) (sortDirection t) "x" (filters t)
             (cfg t) in
  filteredData (applyFilters t)
  = [ [("model", VStr "Xpander"); ("year", VNum (Num 2019))];
      [("model", VStr "Rush"); ("trim", VStr "GR x")] ].
Proof. reflexivity. Qed.

(** A rejected request and a decoded one, on a table that held a row. *)
Example loadData_rejected_keeps_rows :
  let t := set_totalRecords 1 (set_filteredData [two] (set_data [two]
             (dataTable (Config "/api/cars" [] false)))) in
  let t' := loadData (fun _ _ => Rejected) [] t in
  data t' = [two] /\ filteredData t' = [two] /\ totalRecords t' = 1 /\
  error t' = Some "Failed to load data"%string /\ loading t' = false.
Proof. repeat split. Qed.

Example loadData_decoded_replaces_rows :
  let t := set_totalRecords 1 (set_filteredData [two] (set_data [two]
             (dataTable (Config "/api/cars" [] true)))) in
  let t' := loadData (fun _ _ => Decoded (RObject [ten; two] (Some 47))) [] t in
  data t' = [ten; two] /\ totalRecords t' = 47 /\ totalPages t' = 2 /\
  error t' = None /\ loading t' = false.
Proof. repeat split. Qed.
End TableClaims.


(** * Properties of the form scripts *)

Section DomFacts.
Import Dom FormSpec.
Local Open Scope js_scope.

Lemma bind_ok {A B} (c : M A) (k : A -> M B) (w w' : page) (a : A) :
  c w = (Ok a, w') -> bind c k w = k a w'.
Proof. intros H. unfold bind. now rewrite H. Qed.

Lemma bind_throw {A B} (c : M A) (k : A -> M B) (w w' : page) (e : exn) :
  c w = (Throw e, w') -> bind c k w = (Throw e, w').
Proof. intros H. unfold bind. now rewrite H. Qed.

Lemma try_ok {A} (c : M A) (h : exn -> M A) (w w' : page) (a : A) :
  c w = (Ok a, w') -> try_catch c h w = (Ok a, w').
Proof. intros H. unfold try_catch. now rewrite H. Qed.

Lemma try_throw {A} (c : M A) (h : exn -> M A) (w w' : page) (e : exn) :
  c w = (Throw e, w') -> try_catch c h w = h e w'.
Proof. intros H. unfold try_catch. now rewrite H. Qed.

Lemma write_run (id : string) (f : select -> select) (w : page) (s : select) :
  selects w !! id = Some s ->
  write id f w = (Ok tt, with_selects (<[id := f s]> (selects w)) w).
Proof. intros H. unfold write. now rewrite H. Qed.

Lemma read_value (id : string) (w : page) :
  is_Some (selects w !! id) -> read id value w = (Ok (value_at id w), w).
Proof. intros [s H]. unfold read, value_at. now rewrite H. Qed.

Lemma with_selects_id (w : page) : with_selects (selects w) w = w.
Proof. now destruct w. Qed.

(** Two writes to one select are one write. *)
Lemma write_write (id : string) (f g : select -> select) (w : page) (s : select) :
  selects w !! id = Some s ->
  (write id f ;;; write id g) w = (Ok tt, with_selects (<[id := g (f s)]> (selects w)) w).
Proof.
  intros H. rewrite (bind_ok _ _ _ _ _ (write_run id f w s H)).
  rewrite (write_run id g _ (f s)) by apply lookup_insert_eq.
  cbn [selects with_selects]. rewrite insert_insert_eq. reflexivity.
Qed.

Lemma forEach_add_run (id : string) (names : list string) (w : page) (s : select) :
  selects w !! id = Some s ->
  forEach names (fun n => write id (add_innerHTML (item_option n))) w
  = (Ok tt, with_selects (<[id := add_all names s]> (selects w)) w).
Proof.
  revert w s. induction names as [|n names IH]; intros w s H; cbn [forEach add_all fold_left].
  - unfold ret. rewrite insert_id by exact H. now rewrite with_selects_id.
  - rewrite (bind_ok _ _ _ _ _ (write_run id _ w s H)).
    rewrite (IH _ (add_innerHTML (item_option n) s)) by apply lookup_insert_eq.
    cbn [selects with_selects]. rewrite insert_insert_eq. reflexivity.
Qed.

Lemma filter_selected_items (names : list string) :
  List.filter opt_selected (map item_option names) = [].
Proof. induction names as [|n names IH]; [reflexivity|exact IH]. Qed.

Lemma selected_value_placeholder (text : string) (names : list string) :
  selected_value (placeholder_option text :: map item_option names) = ""%string.
Proof.
  unfold selected_value. cbn [List.filter placeholder_option opt_selected].
  now rewrite filter_selected_items.
Qed.

(** Adding items after a placeholder leaves the placeholder selected. *)
Lemma add_all_after (ph : option_el) (d : bool) (names ns : list string) :
  (forall l, selected_value (ph :: map item_option l) = ""%string) ->
  add_all names (Select (ph :: map item_option ns) d "")
  = Select (ph :: map item_option (ns ++ names)) d "".
Proof.
  intros Hph. revert ns. induction names as [|n names IH]; intros ns; cbn [add_all fold_left].
  - now rewrite app_nil_r.
  - assert (Hstep : add_innerHTML (item_option n) (Select (ph :: map item_option ns) d "")
                   = Select (ph :: map item_option (ns ++ [n])) d "").
    { unfold add_innerHTML, set_innerHTML. cbn [innerHTML disabled].
      replace ((ph :: map item_option ns) ++ [item_option n])%list
        with (ph :: map item_option (ns ++ [n]))
        by (rewrite map_app; reflexivity).
      now rewrite Hph. }
    rewrite Hstep. fold (add_all names (Select (ph :: map item_option (ns ++ [n])) d "")).
    rewrite IH, <- app_assoc. reflexivity.
Qed.

End DomFacts.

Section EstimatorFacts.
Import Dom FormSpec Estimator EstimatorSpec.
Local Open Scope js_scope.

Lemma showLoading_run (id : string) (w : page) (s : select) :
  selects w !! id = Some s ->
  showLoading id w = (Ok tt, with_selects (<[id := reset_select "Loading..."]> (selects w)) w).
Proof. intros H. unfold showLoading. now rewrite (write_write _ _ _ _ _ H). Qed.

(** The select once it is populated: the placeholder, then the names. *)
Lemma populated_add_all (text : string) (names : list string) (s : select) :
  add_all names (set_innerHTML [placeholder_option text] s)
  = Select (placeholder_option text :: map item_option names) (disabled s) "".
Proof.
  unfold set_innerHTML. change (selected_value [placeholder_option text]) with ""%string.
  change [placeholder_option text] with (placeholder_option text :: map item_option []).
  rewrite add_all_after by apply selected_value_placeholder. reflexivity.
Qed.

Lemma resetSelects_run (ids : list string) (w : page) :
  resetSelects ids w = (Ok tt, with_selects (reset_all ids (selects w)) w).
Proof.
  unfold resetSelects. revert w.
  induction ids as [|id ids IH]; intros w; cbn [forEach reset_all fold_left].
  - unfold ret. now rewrite with_selects_id.
  - unfold bind at 1. unfold bind at 1. unfold getElementById.
    destruct (selects w !! id) as [s|] eqn:Hs.
    + rewrite (write_write _ _ _ _ _ Hs). rewrite IH. reflexivity.
    + unfold ret. rewrite IH. reflexivity.
Qed.

Lemma reset_all_lookup (ids : list string) (m : gmap string select) (id : string) :
  reset_all ids m !! id =
  match m !! id with
  | Some s => Some (if existsb (String.eqb id) ids
                    then reset_select (getPlaceholderText id) else s)
  | None => None
  end.
Proof.
  revert m. induction ids as [|a ids IH]; intros m; cbn [reset_all fold_left existsb].
  - now destruct (m !! id).
  - fold (reset_all ids). rewrite IH. destruct (String.eqb_spec id a) as [->|Hne].
    + destruct (m !! a) as [s|] eqn:Hs.
      * rewrite lookup_insert_eq. cbn [orb]. now destruct (existsb _ ids).
      * now rewrite Hs.
    + cbn [orb]. destruct (m !! a) as [s|] eqn:Hs; [|reflexivity].
      rewrite lookup_insert_ne by congruence. reflexivity.
Qed.

Lemma every_run (groups : list string) (w : page) :
  every groups w = (Ok (forallb (fun g => has_checked g w) groups), w).
Proof.
  induction groups as [|g groups IH]; cbn [every forallb]; [reflexivity|].
  unfold bind, query_checked. destruct (has_checked g w); [exact IH|reflexivity].
Qed.

Lemma validateForm_run (w : page) :
  has_selects ids w ->
  validateForm w = (Ok tt, with_submitBtn (validated (is_valid w) (submitBtn w)) w).
Proof.
  intros H. unfold validateForm.
  rewrite (bind_ok _ _ _ _ _ (read_value "categorySelect" w (H "categorySelect"%string ltac:(cbn; tauto)))).
  rewrite (bind_ok _ _ _ _ _ (read_value "brandSelect" w (H "brandSelect"%string ltac:(cbn; tauto)))).
  rewrite (bind_ok _ _ _ _ _ (read_value "modelSelect" w (H "modelSelect"%string ltac:(cbn; tauto)))).
  rewrite (bind_ok _ _ _ _ _ (read_value "variantSelect" w (H "variantSelect"%string ltac:(cbn; tauto)))).
  rewrite (bind_ok _ _ _ _ _ (read_value "yearSelect" w (H "yearSelect"%string ltac:(cbn; tauto)))).
  rewrite (bind_ok _ _ _ _ _ (every_run requiredRadioGroups w)).
  unfold is_valid. cbn [forallb levels select_id].
  rewrite andb_true_r, !andb_assoc.
  set (v := _ && forallb _ requiredRadioGroups).
  unfold bind, write_submitBtn, validated. destruct v; reflexivity.
Qed.

Lemma reset_all_is_Some (down : list string) (m : gmap string select) (id : string) :
  is_Some (m !! id) -> is_Some (reset_all down m !! id).
Proof. intros [s H]. rewrite reset_all_lookup, H. eauto. Qed.

Lemma showError_run (message : string) (w : page) :
  showError message w = (Ok tt, with_log (log w ++ [notification message w]) w).
Proof. unfold showError, notification, emit. now destruct (swal w). Qed.

Lemma reset_then_validate (down : list string) (w : page) :
  has_selects ids w ->
  (resetSelects down ;;; validateForm) w = (Ok tt, after_reset down w).
Proof.
  intros H. rewrite (bind_ok _ _ _ _ _ (resetSelects_run down w)).
  rewrite validateForm_run; [reflexivity|].
  intros id Hid. cbn [selects with_selects]. apply reset_all_is_Some. now apply H.
Qed.

Lemma listener_body_success server target url text down logged shown names (w : page) :
  has_selects ids w -> In target ids -> server url = Decoded names ->
  listener_body server target url text down logged shown w
  = (Ok tt, after_success target url text names down w).
Proof.
  intros H Ht Hs. unfold listener_body. destruct (H target Ht) as [s Hlook].
  apply try_ok.
  rewrite (bind_ok _ _ _ _ _ (showLoading_run target w s Hlook)).
  unfold fetch_json at 1. rewrite Hs.
  unfold bind at 1. unfold bind at 1. unfold emit at 1. unfold ret at 1.
  erewrite bind_ok; cycle 1.
  { eapply write_run. cbn [selects with_selects with_log]. apply lookup_insert_eq. }
  erewrite bind_ok; cycle 1.
  { eapply forEach_add_run. cbn [selects with_selects with_log]. apply lookup_insert_eq. }
  erewrite bind_ok; cycle 1.
  { eapply write_run. cbn [selects with_selects with_log]. apply lookup_insert_eq. }
  cbn [selects with_selects with_log]. rewrite populated_add_all.
  cbn [disabled reset_select set_disabled innerHTML value].
  rewrite !insert_insert_eq.
  erewrite bind_ok; cycle 1.
  { apply resetSelects_run. }
  rewrite validateForm_run; [reflexivity|].
  intros id Hid. cbn [selects with_selects with_log]. apply reset_all_is_Some.
  apply lookup_insert_is_Some'. right. now apply H.
Qed.

Lemma listener_body_failure server target url text down logged shown (w : page) :
  is_Some (selects w !! target) -> server url = Rejected ->
  listener_body server target url text down logged shown w
  = (Ok tt, after_failure target url logged shown w).
Proof.
  intros [s Hlook] Hs. unfold listener_body.
  erewrite try_throw; cycle 1.
  { rewrite (bind_ok _ _ _ _ _ (showLoading_run target w s Hlook)).
    apply bind_throw. unfold fetch_json. rewrite Hs.
    unfold bind, emit, throw. reflexivity. }
  unfold bind, console_error, emit. rewrite showError_run.
  unfold after_failure, notification.
  cbn [selects with_selects with_log log swal inputs submitBtn].
  rewrite <- !app_assoc. reflexivity.
Qed.

Lemma listener_body_cases server tgt url text down logged shown (w : page) :
  has_selects ids w -> In tgt ids ->
  listener_body server tgt url text down logged shown w
  = (Ok tt, match server url with
            | Decoded names => after_success tgt url text names down w
            | Rejected => after_failure tgt url logged shown w
            end).
Proof.
  intros H Ht. destruct (server url) as [|names] eqn:Hs.
  - apply listener_body_failure; [now apply H|exact Hs].
  - now apply listener_body_success.
Qed.

(** What the listener of a level does, case by case. *)
Lemma on_change_cases urls server (l : level) (w : page) :
  has_selects ids w -> l <> Year ->
  on_change urls server l w
  = (Ok tt,
     if fetches l w then
       match server (request_url urls l w) with
       | Decoded names =>
           after_success (target l) (request_url urls l w) (populated_placeholder l) names
             (reset_after_populating l) w
       | Rejected =>
           after_failure (target l) (request_url urls l w) (logged_message l) (shown_message l) w
       end
     else after_reset (reset_without_fetch l) w).
Proof.
  intros H Hl.
  assert (Hc := read_value "categorySelect" w (H "categorySelect"%string ltac:(cbn; tauto))).
  assert (Hb := read_value "brandSelect" w (H "brandSelect"%string ltac:(cbn; tauto))).
  assert (Hm := read_value "modelSelect" w (H "modelSelect"%string ltac:(cbn; tauto))).
  assert (Hv := read_value "variantSelect" w (H "variantSelect"%string ltac:(cbn; tauto))).
  destruct l; [| | | |congruence]; cbn [on_change fetches tested forallb select_id];
    rewrite ?andb_true_r.
  - unfold categorySelect_change. rewrite (bind_ok _ _ _ _ _ Hc).
    destruct (JsString.truthy (value_at "categorySelect" w)).
    + apply (listener_body_cases server "brandSelect"); [exact H|cbn; tauto].
    + destruct (H "brandSelect"%string ltac:(cbn; tauto)) as [sb Hsb].
      rewrite (bind_ok _ _ _ _ _ (write_run "brandSelect" _ w sb Hsb)).
      rewrite reset_then_validate.
      * unfold after_reset. cbn [reset_without_fetch reset_all fold_left selects with_selects
          submitBtn inputs swal log].
        rewrite lookup_insert_eq, Hsb, insert_insert_eq. reflexivity.
      * intros id Hid. cbn [selects with_selects]. apply lookup_insert_is_Some'.
        right. now apply H.
  - unfold brandSelect_change. rewrite (bind_ok _ _ _ _ _ Hb).
    destruct (JsString.truthy (value_at "brandSelect" w)).
    + apply (listener_body_cases server "modelSelect"); [exact H|cbn; tauto].
    + now apply reset_then_validate.
  - unfold modelSelect_change. rewrite (bind_ok _ _ _ _ _ Hb), (bind_ok _ _ _ _ _ Hm).
    destruct (JsString.truthy (value_at "brandSelect" w) &&
              JsString.truthy (value_at "modelSelect" w)).
    + apply (listener_body_cases server "variantSelect"); [exact H|cbn; tauto].
    + now apply reset_then_validate.
  - unfold variantSelect_change.
    rewrite (bind_ok _ _ _ _ _ Hb), (bind_ok _ _ _ _ _ Hm), (bind_ok _ _ _ _ _ Hv).
    rewrite andb_assoc.
    destruct (JsString.truthy (value_at "brandSelect" w) &&
              JsString.truthy (value_at "modelSelect" w) &&
              JsString.truthy (value_at "variantSelect" w)).
    + exact (listener_body_cases server "yearSelect"
        (request_url urls Variant w) "Pilih Tahun" [] "Error loading years:"
        "Gagal memuat tahun. Silakan coba lagi." w H ltac:(cbn; tauto)).
    + now apply reset_then_validate.
Qed.

End EstimatorFacts.

Section ValidationFacts.
Import Dom FormSpec.
Local Open Scope js_scope.

Lemma and_iff2 (A B C D : Prop) : (A <-> B) -> (C <-> D) -> (A /\ C <-> B /\ D).
Proof. tauto. Qed.

Lemma has_checked_spec (g : string) (w : page) :
  has_checked g w = true <-> group_checked g w.
Proof.
  unfold has_checked, group_checked. rewrite existsb_exists.
  split; intros (i & Hin & H); exists i; (split; [exact Hin|]).
  - apply andb_true_iff in H as [Hn Hc]. apply String.eqb_eq in Hn. now split.
  - destruct H as [Hn Hc]. apply andb_true_iff. split; [now apply String.eqb_eq|exact Hc].
Qed.

Lemma truthy_true_iff (s : string) : JsString.truthy s = true <-> s <> ""%string.
Proof. destruct s; cbn; split; congruence. Qed.

Lemma btn_disabled_validated (v : bool) (b : button) :
  btn_disabled (validated v b) = negb v.
Proof. now destruct v. Qed.

Lemma estimator_valid_complete (w : page) :
  EstimatorSpec.is_valid w = true <-> EstimatorSpec.complete w.
Proof.
  unfold EstimatorSpec.is_valid, EstimatorSpec.complete.
  rewrite andb_true_iff, !forallb_forall. apply and_iff2.
  - split.
    + intros H l. apply truthy_true_iff. apply H. destruct l; cbn; tauto.
    + intros H l _. apply truthy_true_iff. apply H.
  - split; intros H g Hg; apply has_checked_spec; now apply H.
Qed.

Lemma unique_go_In (seen l : list string) (x : string) :
  In x (EstimatorEn.unique_go seen l) <-> In x l /\ ~ In x seen.
Proof.
  revert seen. induction l as [|a l IH]; intros seen; cbn [EstimatorEn.unique_go].
  - cbn. tauto.
  - destruct (existsb (String.eqb a) seen) eqn:Hex.
    + apply existsb_exists in Hex as (y & Hy & Hay). apply String.eqb_eq in Hay. subst y.
      rewrite IH. cbn. split; [tauto|]. intros [[->|H] Hn]; tauto.
    + assert (Hna : ~ In a seen).
      { intros Hin. apply not_true_iff_false in Hex. apply Hex.
        apply existsb_exists. exists a. split; [exact Hin|apply String.eqb_refl]. }
      cbn [In]. rewrite IH. cbn [In]. split.
      * intros [->|[H1 H2]]; [tauto|]. split; [tauto|]. tauto.
      * intros [[->|H1] H2]; [tauto|].
        destruct (string_dec a x) as [->|Hne]; [tauto|]. right. split; [exact H1|].
        intros [H|H]; tauto.
Qed.

Lemma uniqueGroupNames_spec (w : page) (g : string) :
  In g (EstimatorEn.uniqueGroupNames w) <-> EstimatorEnSpec.required_group g w.
Proof.
  unfold EstimatorEn.uniqueGroupNames, EstimatorEn.unique, EstimatorEnSpec.required_group.
  rewrite unique_go_In, in_map_iff. split.
  - intros [(i & Hn & Hin) _]. apply filter_In in Hin as [Hin Hp].
    apply andb_true_iff in Hp as [Ht Hr]. apply String.eqb_eq in Ht. now exists i.
  - intros (i & Hin & Ht & Hr & Hn). split; [|cbn; tauto].
    exists i. split; [exact Hn|]. apply filter_In. split; [exact Hin|].
    apply andb_true_iff. split; [now apply String.eqb_eq|exact Hr].
Qed.

Lemma estimatorEn_valid_complete (w : page) :
  EstimatorEnSpec.is_valid w = true <-> EstimatorEnSpec.complete w.
Proof.
  unfold EstimatorEnSpec.is_valid, EstimatorEnSpec.complete.
  rewrite andb_true_iff, !forallb_forall. apply and_iff2.
  - split; intros H id Hid; apply truthy_true_iff; now apply H.
  - split; intros H g Hg; apply has_checked_spec; apply H; now apply uniqueGroupNames_spec.
Qed.

Lemma estimatorEn_every_run (groups : list string) (w : page) :
  EstimatorEn.every groups w = (Ok (forallb (fun g => has_checked g w) groups), w).
Proof.
  induction groups as [|g groups IH]; cbn [EstimatorEn.every forallb]; [reflexivity|].
  unfold bind, query_checked. destruct (has_checked g w); [exact IH|reflexivity].
Qed.

Lemma estimatorEn_validateForm_run (w : page) :
  has_selects EstimatorEnSpec.ids w ->
  EstimatorEn.validateForm w
  = (Ok tt, with_submitBtn (validated (EstimatorEnSpec.is_valid w) (submitBtn w)) w).
Proof.
  intros H. unfold EstimatorEn.validateForm.
  rewrite (bind_ok _ _ _ _ _ (read_value "brandSelect" w (H "brandSelect"%string ltac:(cbn; tauto)))).
  rewrite (bind_ok _ _ _ _ _ (read_value "modelSelect" w (H "modelSelect"%string ltac:(cbn; tauto)))).
  rewrite (bind_ok _ _ _ _ _ (read_value "variantSelect" w (H "variantSelect"%string ltac:(cbn; tauto)))).
  rewrite (bind_ok _ _ _ _ _ (read_value "yearSelect" w (H "yearSelect"%string ltac:(cbn; tauto)))).
  unfold bind at 1.
  rewrite (bind_ok _ _ _ _ _ (estimatorEn_every_run _ w)).
  unfold EstimatorEnSpec.is_valid. cbn [forallb EstimatorEnSpec.ids].
  rewrite andb_true_r, !andb_assoc.
  set (v := _ && forallb _ (EstimatorEn.uniqueGroupNames w)).
  unfold bind, write_submitBtn, validated. destruct v; reflexivity.
Qed.

End ValidationFacts.

(** C1. After [validateForm()] the submit button is enabled exactly when
    every selector of the cascade has a non-empty value and every required
    radio group has a checked input, and disabled otherwise: in
    [car-price-estimator.js], with its five selectors and its list of
    groups, and in the English variant, whose cascade starts at the brand and
    whose required groups are those of the page. *)
Theorem C1_submit_enabled_iff_complete :
  (forall w : Dom.page,
     FormSpec.has_selects EstimatorSpec.ids w ->
     FormSpec.returned Estimator.validateForm w = Dom.Ok tt /\
     (Dom.btn_disabled (Dom.submitBtn (FormSpec.final Estimator.validateForm w)) = false
        <-> EstimatorSpec.complete w) /\
     (Dom.btn_disabled (Dom.submitBtn (FormSpec.final Estimator.validateForm w)) = true
        <-> ~ EstimatorSpec.complete w)) /\
  (forall w : Dom.page,
     FormSpec.has_selects EstimatorEnSpec.ids w ->
     FormSpec.returned EstimatorEn.validateForm w = Dom.Ok tt /\
     (Dom.btn_disabled (Dom.submitBtn (FormSpec.final EstimatorEn.validateForm w)) = false
        <-> EstimatorEnSpec.complete w) /\
     (Dom.btn_disabled (Dom.submitBtn (FormSpec.final EstimatorEn.validateForm w)) = true
        <-> ~ EstimatorEnSpec.complete w)).
Proof.
  split; intros w Hw; unfold FormSpec.returned, FormSpec.final.
  - rewrite (validateForm_run w Hw). cbn [fst snd Dom.submitBtn Dom.with_submitBtn].
    rewrite btn_disabled_validated, <- estimator_valid_complete.
    split; [reflexivity|]. destruct (EstimatorSpec.is_valid w); cbn; split; split; congruence.
  - rewrite (estimatorEn_validateForm_run w Hw). cbn [fst snd Dom.submitBtn Dom.with_submitBtn].
    rewrite btn_disabled_validated, <- estimatorEn_valid_complete.
    split; [reflexivity|]. destruct (EstimatorEnSpec.is_valid w); cbn; split; split; congruence.
Qed.

Section CascadeClaims.
Import Dom FormSpec Estimator EstimatorSpec.

Lemma lookup_reset (down : list string) (m : gmap string select) (id : string) :
  is_Some (m !! id) -> existsb (String.eqb id) down = true ->
  reset_all down m !! id = Some (reset_select (getPlaceholderText id)).
Proof. intros [s H] Hin. now rewrite reset_all_lookup, H, Hin. Qed.

Lemma lookup_kept (down : list string) (m : gmap string select) (id : string) :
  existsb (String.eqb id) down = false -> reset_all down m !! id = m !! id.
Proof. intros Hin. rewrite reset_all_lookup, Hin. now destruct (m !! id). Qed.

Lemma has_select_of_level (w : page) (l : level) :
  has_selects ids w -> is_Some (selects w !! select_id l).
Proof. intros H. apply H. destruct l; cbn; tauto. Qed.

(** C3, as the code has it.  The listener of a level that holds a value
    (and whose upper levels that it tests hold one), once the names are
    fetched, populates and enables the next level and resets every level
    below that one to disabled with its placeholder; the listener of a level
    without a value resets every level below it; both whatever the levels
    below held before. *)
Theorem C3_change_populates_next_resets_rest urls server (n : level) (w : page)
    (Hw : has_selects ids w) :
  let w' := final (on_change urls server n) w in
  returned (on_change urls server n) w = Ok tt /\
  (fetches n w = false ->
     forall m, below n m ->
       selects w' !! select_id m = Some (reset_select (getPlaceholderText (select_id m)))) /\
  (fetches n w = true ->
     forall names, server (request_url urls n w) = Decoded names ->
     forall t, next n = Some t ->
       selects w' !! select_id t = Some (populated_select (populated_placeholder n) names) /\
       forall m, below t m ->
         selects w' !! select_id m = Some (reset_select (getPlaceholderText (select_id m)))).
Proof.
  cbv zeta. unfold final, returned. split; [|split].
  - destruct n; try (rewrite on_change_cases by (exact Hw || discriminate); reflexivity).
    cbn [on_change]. unfold yearSelect_change. now rewrite validateForm_run.
  - intros Hf m Hm.
    assert (Hn : n <> Year) by (intros ->; destruct m; cbv in Hm; lia).
    rewrite (on_change_cases urls server n w Hw Hn), Hf.
    cbn [snd after_reset selects with_selects with_submitBtn].
    apply lookup_reset; [now apply has_select_of_level|].
    destruct n, m; cbv in Hm; try lia; reflexivity.
  - intros Hf names Hs t Ht.
    assert (Hn : n <> Year) by (intros ->; discriminate).
    rewrite (on_change_cases urls server n w Hw Hn), Hf, Hs.
    cbn [snd after_success selects with_selects with_submitBtn with_log].
    split.
    + rewrite lookup_kept by (destruct n; cbv in Ht; inversion Ht; reflexivity).
      destruct n; cbv in Ht; inversion Ht; apply lookup_insert_eq.
    + intros m Hm. apply lookup_reset.
      * apply lookup_insert_is_Some'. right. now apply has_select_of_level.
      * destruct n; cbv in Ht; inversion Ht; subst t; destruct m; cbv in Hm; try lia; reflexivity.
Qed.

End CascadeClaims.

Section FailureFacts.
Import Dom FormSpec.
Local Open Scope js_scope.

Lemma assessment_catch server url (k : list string -> M unit) (msg : string) (w : page) :
  server url = Rejected ->
  try_catch (bind (Assessment.fetch_json server url) k) (fun _ => console_error msg) w
  = (Ok tt, with_log (log w ++ [EvFetch url; EvConsoleError msg]) w).
Proof.
  intros Hs. erewrite try_throw; cycle 1.
  { apply bind_throw. unfold Assessment.fetch_json. rewrite Hs.
    unfold bind, emit, throw. reflexivity. }
  unfold console_error, emit. cbn [log with_log]. rewrite <- app_assoc. reflexivity.
Qed.

Lemma assessment_failure server (l : level) (w : page) :
  has_selects AssessmentSpec.ids w ->
  AssessmentSpec.fetches l w = true ->
  server (AssessmentSpec.request_url l w) = Rejected ->
  Assessment.on_change server l w
  = (Ok tt, with_log (log w ++ [EvFetch (AssessmentSpec.request_url l w);
                                 EvConsoleError (AssessmentSpec.logged_message l)]) w).
Proof.
  intros H Hf Hs.
  assert (Hc := read_value "category" w (H "category"%string ltac:(cbn; tauto))).
  assert (Hb := read_value "brand" w (H "brand"%string ltac:(cbn; tauto))).
  assert (Hm := read_value "model" w (H "model"%string ltac:(cbn; tauto))).
  assert (Hv := read_value "variant" w (H "variant"%string ltac:(cbn; tauto))).
  destruct l; [| | | |discriminate];
    cbn [AssessmentSpec.fetches EstimatorSpec.tested forallb Assessment.select_id] in Hf;
    rewrite ?andb_true_r in Hf;
    cbn [Assessment.on_change].
  - unfold Assessment.category_change. rewrite (bind_ok _ _ _ _ _ Hc), Hf.
    now apply assessment_catch.
  - unfold Assessment.brand_change. rewrite (bind_ok _ _ _ _ _ Hb), Hf.
    now apply assessment_catch.
  - unfold Assessment.model_change. rewrite (bind_ok _ _ _ _ _ Hb), (bind_ok _ _ _ _ _ Hm), Hf.
    now apply assessment_catch.
  - unfold Assessment.variant_change.
    rewrite (bind_ok _ _ _ _ _ Hb), (bind_ok _ _ _ _ _ Hm), (bind_ok _ _ _ _ _ Hv).
    rewrite andb_assoc in Hf. rewrite Hf.
    now apply assessment_catch.
Qed.

End FailureFacts.

Section SubmitFacts.
Import Dom FormSpec SubmitSpec.
Local Open Scope js_scope.

Lemma first_unchecked_inputs (groups : list string) (w1 w2 : page) :
  inputs w1 = inputs w2 -> first_unchecked groups w1 = first_unchecked groups w2.
Proof.
  intros H. induction groups as [|g groups IH]; cbn [first_unchecked]; [reflexivity|].
  unfold has_checked. rewrite H, IH. reflexivity.
Qed.

Lemma first_unset_selects (ids : list string) (w1 w2 : page) :
  selects w1 = selects w2 -> first_unset ids w1 = first_unset ids w2.
Proof.
  intros H. induction ids as [|id ids IH]; cbn [first_unset]; [reflexivity|].
  unfold value_at. rewrite H, IH. reflexivity.
Qed.

Lemma first_missing_log (ids groups : list string) (l : list event) (w : page) :
  first_missing ids groups (with_log l w) = first_missing ids groups w.
Proof.
  unfold first_missing.
  rewrite (first_unset_selects ids (with_log l w) w eq_refl).
  rewrite (first_unchecked_inputs groups (with_log l w) w eq_refl). reflexivity.
Qed.

Lemma check_groups_run (groups : list string) (w : page) :
  Estimator.check_groups groups w
  = match first_unchecked groups w with
    | None => (Ok true, w)
    | Some g => (Ok false, with_log (log w ++ [notification (message_for (RadioGroup g)) w]) w)
    end.
Proof.
  induction groups as [|g groups IH]; cbn [Estimator.check_groups first_unchecked]; [reflexivity|].
  unfold bind at 1. unfold query_checked. destruct (has_checked g w); cbn [negb].
  - exact IH.
  - unfold bind. rewrite showError_run. reflexivity.
Qed.

Lemma estimatorEn_showError_run (message : string) (w : page) :
  EstimatorEn.showError message w = (Ok tt, with_log (log w ++ [notification message w]) w).
Proof. unfold EstimatorEn.showError, notification, emit. now destruct (swal w). Qed.

Lemma estimatorEn_check_groups_run (groups : list string) (w : page) :
  EstimatorEn.check_groups groups w
  = match first_unchecked groups w with
    | None => (Ok true, w)
    | Some g => (Ok false, with_log (log w ++ [notification (message_for_en (RadioGroup g) w) w]) w)
    end.
Proof.
  induction groups as [|g groups IH]; cbn [EstimatorEn.check_groups first_unchecked]; [reflexivity|].
  unfold bind at 1. unfold query_checked. destruct (has_checked g w); cbn [negb].
  - exact IH.
  - unfold bind. rewrite estimatorEn_showError_run. reflexivity.
Qed.

Lemma validateFormBeforeSubmit_run (w : page) :
  has_selects EstimatorSpec.ids w ->
  Estimator.validateFormBeforeSubmit w
  = match missing w with
    | None => (Ok true, w)
    | Some f => (Ok false, with_log (log w ++ [notification (message_for f) w]) w)
    end.
Proof.
  intros H. unfold Estimator.validateFormBeforeSubmit.
  rewrite (bind_ok _ _ _ _ _ (read_value "categorySelect" w (H "categorySelect"%string ltac:(cbn; tauto)))).
  rewrite (bind_ok _ _ _ _ _ (read_value "brandSelect" w (H "brandSelect"%string ltac:(cbn; tauto)))).
  rewrite (bind_ok _ _ _ _ _ (read_value "modelSelect" w (H "modelSelect"%string ltac:(cbn; tauto)))).
  rewrite (bind_ok _ _ _ _ _ (read_value "variantSelect" w (H "variantSelect"%string ltac:(cbn; tauto)))).
  rewrite (bind_ok _ _ _ _ _ (read_value "yearSelect" w (H "yearSelect"%string ltac:(cbn; tauto)))).
  unfold missing, first_missing.
  cbn [first_unset EstimatorSpec.ids map levels Estimator.select_id].
  destruct (JsString.truthy (value_at "categorySelect" w));
  destruct (JsString.truthy (value_at "brandSelect" w));
  destruct (JsString.truthy (value_at "modelSelect" w));
  destruct (JsString.truthy (value_at "variantSelect" w));
  destruct (JsString.truthy (value_at "yearSelect" w));
  cbn [negb orb];
  try (unfold bind; rewrite showError_run; reflexivity).
  rewrite check_groups_run. now destruct (first_unchecked _ w).
Qed.

Lemma estimatorEn_validateFormBeforeSubmit_run (w : page) :
  has_selects EstimatorEnSpec.ids w ->
  EstimatorEn.validateFormBeforeSubmit w
  = match missing_en w with
    | None => (Ok true, w)
    | Some f => (Ok false, with_log (log w ++ [notification (message_for_en f w) w]) w)
    end.
Proof.
  intros H. unfold EstimatorEn.validateFormBeforeSubmit.
  rewrite (bind_ok _ _ _ _ _ (read_value "brandSelect" w (H "brandSelect"%string ltac:(cbn; tauto)))).
  rewrite (bind_ok _ _ _ _ _ (read_value "modelSelect" w (H "modelSelect"%string ltac:(cbn; tauto)))).
  rewrite (bind_ok _ _ _ _ _ (read_value "variantSelect" w (H "variantSelect"%string ltac:(cbn; tauto)))).
  rewrite (bind_ok _ _ _ _ _ (read_value "yearSelect" w (H "yearSelect"%string ltac:(cbn; tauto)))).
  unfold missing_en, first_missing.
  cbn [first_unset EstimatorEnSpec.ids].
  destruct (JsString.truthy (value_at "brandSelect" w));
  destruct (JsString.truthy (value_at "modelSelect" w));
  destruct (JsString.truthy (value_at "variantSelect" w));
  destruct (JsString.truthy (value_at "yearSelect" w));
  cbn [negb orb];
  try (unfold bind; rewrite estimatorEn_showError_run; reflexivity).
  unfold bind at 1. rewrite estimatorEn_check_groups_run.
  now destruct (first_unchecked _ w).
Qed.

Lemma on_submit_run (w : page) :
  has_selects EstimatorSpec.ids w ->
  Estimator.on_submit w
  = (Ok tt, match missing w with
            | None => submitting w
            | Some f => blocked (message_for f) w
            end).
Proof.
  intros H. unfold Estimator.on_submit.
  unfold bind at 1. unfold emit at 1. unfold bind at 1.
  rewrite validateFormBeforeSubmit_run by exact H.
  unfold missing at 1. rewrite first_missing_log. fold (missing w).
  destruct (missing w) as [f|].
  - cbn [negb]. unfold ret, blocked, notification.
    cbn [log with_log swal]. rewrite <- app_assoc. reflexivity.
  - cbn [negb]. unfold Estimator.showLoadingState, Estimator.submitForm, submitting.
    unfold bind, read_submitBtn, write_submitBtn, emit, with_log, with_submitBtn.
    cbn. rewrite <- app_assoc. reflexivity.
Qed.

Lemma uniqueGroupNames_log (l : list event) (w : page) :
  EstimatorEn.uniqueGroupNames (with_log l w) = EstimatorEn.uniqueGroupNames w.
Proof. reflexivity. Qed.

Lemma estimatorEn_on_submit_run (w : page) :
  has_selects EstimatorEnSpec.ids w ->
  EstimatorEn.on_submit w
  = (Ok tt, match missing_en w with
            | None => submitting w
            | Some f => blocked (message_for_en f w) w
            end).
Proof.
  intros H. unfold EstimatorEn.on_submit.
  unfold bind at 1. unfold emit at 1. unfold bind at 1.
  rewrite estimatorEn_validateFormBeforeSubmit_run by exact H.
  unfold missing_en at 1. rewrite uniqueGroupNames_log, first_missing_log. fold (missing_en w).
  destruct (missing_en w) as [f|].
  - cbn [negb]. unfold ret, blocked, notification.
    cbn [log with_log swal]. rewrite <- app_assoc.
    destruct f; reflexivity.
  - cbn [negb]. unfold EstimatorEn.showLoadingState, EstimatorEn.submitForm.
    unfold Estimator.showLoadingState, Estimator.submitForm, submitting.
    unfold bind, read_submitBtn, write_submitBtn, emit, with_log, with_submitBtn.
    cbn. rewrite <- app_assoc. reflexivity.
Qed.

End SubmitFacts.

Section Examples.
Import Dom FormSpec.

Lemma example_page_has_selects c b m v y ins :
  has_selects EstimatorSpec.ids (EstimatorSpec.example_page c b m v y ins).
Proof.
  intros id Hid. cbn in Hid.
  repeat (destruct Hid as [<-|Hid]; [eexists; reflexivity|]). destruct Hid.
Qed.

Lemma example_page_en_has_selects b m v y ins :
  has_selects EstimatorEnSpec.ids (EstimatorEnSpec.example_page b m v y ins).
Proof.
  intros id Hid. cbn in Hid.
  repeat (destruct Hid as [<-|Hid]; [eexists; reflexivity|]). destruct Hid.
Qed.

Lemma assessment_page_has_selects c b m v y :
  has_selects AssessmentSpec.ids (AssessmentSpec.example_page c b m v y).
Proof.
  intros id Hid. cbn in Hid.
  repeat (destruct Hid as [<-|Hid]; [eexists; reflexivity|]). destruct Hid.
Qed.

End Examples.

Section CascadeExamples.
Import Dom FormSpec Estimator EstimatorSpec.

(** C3 does not hold as stated: when the category changes to a value and
    the brands arrive, the brand select, one level below, is enabled and
    lists the brands; and when the request fails, the model select, two
    levels below, keeps the value it had. *)
Lemma C3_counterexample_brand_populated :
  let w := example_page "SUV" "Toyota" "Rush" "G" "2020" [] in
  let arrived := final (on_change example_urls (fun _ => Decoded ["Honda"; "Toyota"]) Category) w in
  let failed := final (on_change example_urls (fun _ => Rejected) Category) w in
  has_selects ids w /\ below Category Brand /\ below Category Model /\
  selects arrived !! "brandSelect"
    = Some (Select [placeholder_option "Pilih Brand"; item_option "Honda"; item_option "Toyota"]
              false "") /\
  selects arrived !! "brandSelect" <> Some (reset_select (getPlaceholderText "brandSelect")) /\
  selects failed !! "modelSelect" = Some (chosen "Rush") /\
  selects failed !! "modelSelect" <> Some (reset_select (getPlaceholderText "modelSelect")).
Proof.
  cbv zeta. split; [apply example_page_has_selects|].
  split; [cbv; lia|]. split; [cbv; lia|].
  split; [reflexivity|]. split; [discriminate|]. split; [reflexivity|discriminate].
Qed.

Lemma C3_change_witness :
  let w := example_page "SUV" "Toyota" "Rush" "G" "2020" [] in
  let w' := final (on_change example_urls (fun _ => Decoded ["Honda"; "Toyota"]) Category) w in
  has_selects ids w /\
  selects w' !! "brandSelect" = Some (populated_select "Pilih Brand" ["Honda"; "Toyota"]) /\
  selects w' !! "yearSelect" = Some (reset_select "Pilih Tahun").
Proof.
  cbv zeta.
  pose proof (example_page_has_selects "SUV" "Toyota" "Rush" "G" "2020" []) as Hw.
  split; [exact Hw|].
  destruct (C3_change_populates_next_resets_rest example_urls
              (fun _ => Decoded ["Honda"; "Toyota"]) Category _ Hw) as (_ & _ & Hfetch).
  destruct (Hfetch eq_refl ["Honda"; "Toyota"] eq_refl Brand eq_refl) as [Hbrand Hbelow].
  split; [exact Hbrand|].
  apply (Hbelow Year). cbv. lia.
Defined.

(** C8, as the code has it.  In [car-price-estimator.js] a failed request
    leaves the level to populate disabled, showing "Loading...", logs the
    error and shows one error dialog; nothing else on the page changes and
    no second request is made.  In [car-assessment.js] a failed request is
    only logged to the console: no dialog is shown, the selects stay as they
    were, and no second request is made.  The first load of the categories
    fails the same way in each script, and leaves the category select as it
    was. *)
Theorem C8_fetch_failure :
  (forall urls server (n : level) (w : page),
     has_selects ids w -> fetches n w = true ->
     server (request_url urls n w) = Rejected ->
     let w' := final (on_change urls server n) w in
     returned (on_change urls server n) w = Ok tt /\
     selects w' !! target n = Some (reset_select "Loading...") /\
     disabled (reset_select "Loading...") = true /\
     (forall id, id <> target n -> selects w' !! id = selects w !! id) /\
     log w' = (log w ++ [ EvFetch (request_url urls n w);
                          EvConsoleError (logged_message n);
                          notification (shown_message n) w ])%list /\
     user_facing (notification (shown_message n) w) = true /\
     requests w' = S (requests w) /\
     submitBtn w' = submitBtn w) /\
  (forall server (n : level) (w : page),
     has_selects AssessmentSpec.ids w -> AssessmentSpec.fetches n w = true ->
     server (AssessmentSpec.request_url n w) = Rejected ->
     let w' := final (Assessment.on_change server n) w in
     returned (Assessment.on_change server n) w = Ok tt /\
     selects w' = selects w /\
     log w' = (log w ++ [ EvFetch (AssessmentSpec.request_url n w);
                          EvConsoleError (AssessmentSpec.logged_message n) ])%list /\
     existsb user_facing (log w') = existsb user_facing (log w) /\
     requests w' = S (requests w) /\
     submitBtn w' = submitBtn w) /\
  (forall urls server (w : page),
     server (categories urls) = Rejected ->
     loadCategories urls server w
     = (Ok tt, with_log (log w ++ [ EvFetch (categories urls);
                                    EvConsoleError "Error loading categories:";
                                    notification "Gagal memuat kategori. Silakan refresh halaman." w ])
                 w)) /\
  (forall server (w : page),
     server "/api/categories/"%string = Rejected ->
     Assessment.loadCategories server w
     = (Ok tt, with_log (log w ++ [ EvFetch "/api/categories/";
                                    EvConsoleError "Error loading categories:" ]) w)).
Proof.
  split; [|split; [|split]]; cycle 2.
  - intros urls server w Hs. unfold loadCategories.
    erewrite try_throw; cycle 1.
    { apply bind_throw. unfold fetch_json. rewrite Hs. unfold bind, emit, throw. reflexivity. }
    unfold bind, console_error, emit. rewrite showError_run.
    unfold notification. cbn [selects with_selects with_log log swal inputs submitBtn].
    rewrite <- !app_assoc. reflexivity.
  - intros server w Hs. unfold Assessment.loadCategories. now apply assessment_catch.
  - intros urls server n w Hw Hf Hs. cbv zeta. unfold final, returned.
    assert (Hn : n <> Year) by (intros ->; discriminate).
    rewrite (on_change_cases urls server n w Hw Hn), Hf, Hs.
    cbn [fst snd after_failure selects with_selects with_log log submitBtn].
    split_and!; try reflexivity.
    + apply lookup_insert_eq.
    + intros id Hid. now apply lookup_insert_ne.
    + unfold notification. now destruct (swal w).
    + unfold requests, after_failure, notification. cbn [log with_log].
      rewrite List.filter_app, length_app. destruct (swal w); cbn; lia.
  - intros server n w Hw Hf Hs. cbv zeta. unfold final, returned.
    rewrite (assessment_failure server n w Hw Hf Hs).
    cbn [fst snd selects with_log log submitBtn]. split_and!; try reflexivity.
    + rewrite existsb_app. cbn. now rewrite orb_false_r.
    + unfold requests. cbn [log with_log].
      rewrite List.filter_app, length_app. cbn. lia.
Qed.

(** C8 does not hold as stated in [car-assessment.js]: the brands cannot
    be fetched, yet the brand select stays enabled with its old choice and
    the user is shown nothing. *)
Lemma C8_counterexample_assessment :
  let w := AssessmentSpec.example_page "SUV" "Toyota" "Rush" "G" "2020" in
  let w' := final (Assessment.on_change (fun _ => Rejected) Category) w in
  has_selects AssessmentSpec.ids w /\
  AssessmentSpec.fetches Category w = true /\
  selects w' !! "brand" = Some (chosen "Toyota") /\
  disabled (chosen "Toyota") = false /\
  log w' = [EvFetch "/api/brands/?category=SUV"; EvConsoleError "Error loading brands:"] /\
  existsb user_facing (log w') = false.
Proof.
  cbv zeta. split; [apply assessment_page_has_selects|]. repeat split.
Qed.

Lemma C8_fetch_failure_witness :
  let w := example_page "SUV" "Toyota" "Rush" "G" "2020" [] in
  let w' := final (on_change example_urls (fun _ => Rejected) Category) w in
  selects w' !! "brandSelect" = Some (reset_select "Loading...") /\
  log w' = [ EvFetch "/api/brands/?category=SUV";
             EvConsoleError "Error loading brands:";
             EvSwalFire "error" "Oops!" "Gagal memuat brand. Silakan coba lagi." ].
Proof.
  cbv zeta.
  destruct (proj1 C8_fetch_failure example_urls (fun _ => Rejected) Category
              (example_page "SUV" "Toyota" "Rush" "G" "2020" [])
              (example_page_has_selects _ _ _ _ _ _) eq_refl eq_refl)
    as (_ & Htarget & _ & _ & Hlog & _).
  split; [exact Htarget|exact Hlog].
Defined.

End CascadeExamples.

Section SubmitClaims.
Import Dom FormSpec SubmitSpec.

Lemma blocked_no_submit (message : string) (w : page) :
  existsb is_submit (log (blocked message w)) = existsb is_submit (log w).
Proof.
  unfold blocked, notification. cbn [log with_log]. rewrite existsb_app.
  destruct (swal w); cbn; now rewrite orb_false_r.
Qed.

(** C9, as the code has it.  When [validateFormBeforeSubmit()] fails the
    form is not submitted and one error message is shown: if a selector is
    unset, the same request to complete the vehicle specification whichever
    selector it is; otherwise a message that names the first required radio
    group, in checking order, with no checked input.  Nothing else on the
    page changes. *)
Theorem C9_failed_validation_blocks_submit :
  (forall w : page,
     has_selects EstimatorSpec.ids w ->
     returned Estimator.validateFormBeforeSubmit w = Ok (passes (missing w)) /\
     forall f, missing w = Some f ->
       final Estimator.on_submit w = blocked (message_for f) w /\
       existsb is_submit (log (final Estimator.on_submit w)) = existsb is_submit (log w)) /\
  (forall w : page,
     has_selects EstimatorEnSpec.ids w ->
     returned EstimatorEn.validateFormBeforeSubmit w = Ok (passes (missing_en w)) /\
     forall f, missing_en w = Some f ->
       final EstimatorEn.on_submit w = blocked (message_for_en f w) w /\
       existsb is_submit (log (final EstimatorEn.on_submit w)) = existsb is_submit (log w)) /\
  (forall id, message_for (Selector id) = "Silakan lengkapi semua spesifikasi kendaraan."%string) /\
  (forall g, message_for (RadioGroup g)
             = ("Silakan pilih kondisi untuk " ++ Estimator.getReadableFieldName g ++ ".")%string) /\
  (forall id w, message_for_en (Selector id) w = "Please complete all vehicle specifications."%string) /\
  (forall g w, message_for_en (RadioGroup g) w
               = ("Please select condition for " ++ EstimatorEn.getReadableFieldName g w ++ ".")%string).
Proof.
  split_and!; try reflexivity.
  - intros w Hw. unfold returned, final. split.
    + rewrite (validateFormBeforeSubmit_run w Hw). now destruct (missing w).
    + intros f Hf. rewrite (on_submit_run w Hw), Hf. cbn [snd].
      split; [reflexivity|apply blocked_no_submit].
  - intros w Hw. unfold returned, final. split.
    + rewrite (estimatorEn_validateFormBeforeSubmit_run w Hw). now destruct (missing_en w).
    + intros f Hf. rewrite (estimatorEn_on_submit_run w Hw), Hf. cbn [snd].
      split; [reflexivity|apply blocked_no_submit].
Qed.

(** C9 does not hold as stated: a form that misses only its category and
    a form that misses only its year fail with the very same message, which
    names neither. *)
Lemma C9_counterexample_same_message :
  let a := EstimatorSpec.example_page "" "Toyota" "Rush" "G" "2020" EstimatorSpec.all_checked in
  let b := EstimatorSpec.example_page "SUV" "Toyota" "Rush" "G" "" EstimatorSpec.all_checked in
  missing a = Some (Selector "categorySelect") /\
  missing b = Some (Selector "yearSelect") /\
  returned Estimator.validateFormBeforeSubmit a = Ok false /\
  returned Estimator.validateFormBeforeSubmit b = Ok false /\
  log (final Estimator.validateFormBeforeSubmit a)
    = [EvSwalFire "error" "Oops!" "Silakan lengkapi semua spesifikasi kendaraan."] /\
  log (final Estimator.validateFormBeforeSubmit b)
    = log (final Estimator.validateFormBeforeSubmit a).
Proof. cbv zeta. repeat split. Qed.

Lemma C9_blocked_witness :
  let w := EstimatorSpec.example_page "SUV" "Toyota" "Rush" "G" "2020"
             [Input "exterior_condition" "radio" true true None] in
  missing w = Some (RadioGroup "interior_condition") /\
  log (final Estimator.on_submit w)
    = [ EvPreventDefault;
        EvSwalFire "error" "Oops!" "Silakan pilih kondisi untuk Interior Condition." ].
Proof.
  cbv zeta. split; [reflexivity|].
  destruct (proj1 C9_failed_validation_blocks_submit _
              (example_page_has_selects "SUV" "Toyota" "Rush" "G" "2020"
                 [Input "exterior_condition" "radio" true true None]))
    as [_ Hblocked].
  destruct (Hblocked (RadioGroup "interior_condition") eq_refl) as [Hfinal _].
  rewrite Hfinal. reflexivity.
Defined.

Lemma C1_complete_form_witness :
  let w := EstimatorSpec.example_page "SUV" "Toyota" "Rush" "G" "2020" EstimatorSpec.all_checked in
  let v := EstimatorSpec.example_page "SUV" "Toyota" "Rush" "G" "" EstimatorSpec.all_checked in
  EstimatorSpec.complete w /\ ~ EstimatorSpec.complete v.
Proof.
  cbv zeta.
  destruct (proj1 C1_submit_enabled_iff_complete _
              (example_page_has_selects "SUV" "Toyota" "Rush" "G" "2020" EstimatorSpec.all_checked))
    as (_ & Hon & _).
  destruct (proj1 C1_submit_enabled_iff_complete _
              (example_page_has_selects "SUV" "Toyota" "Rush" "G" "" EstimatorSpec.all_checked))
    as (_ & _ & Hoff).
  split; [now apply Hon|now apply Hoff].
Defined.

End SubmitClaims.


(** * Further properties of the data table *)

Section TableMoreFacts.
Import Js DataTable DataTableView TableSpec TableMoreSpec.

Lemma firstn_plus {A} (a b : nat) (l : list A) :
  firstn (a + b) l = (firstn a l ++ firstn b (skipn a l))%list.
Proof.
  revert l. induction a as [|a IH]; intros l; [reflexivity|].
  destruct l as [|x l]; cbn.
  - now destruct b.
  - now rewrite IH.
Qed.

(** A slice from a start that is not negative. *)
Lemma slice_window {A} (l : list A) (start size : Z) :
  0 <= start -> 0 <= size ->
  slice l start (start + size) = firstn (Z.to_nat size) (skipn (Z.to_nat start) l).
Proof.
  intros Hs Hz. unfold slice.
  destruct (start <? 0) eqn:E1; [apply Z.ltb_lt in E1; lia|].
  destruct (start + size <? 0) eqn:E2; [apply Z.ltb_lt in E2; lia|].
  destruct (Z_le_gt_dec start (Z.of_nat (length l))) as [Hle|Hgt].
  - rewrite (Z.min_l start) by lia.
    destruct (Z_le_gt_dec (start + size) (Z.of_nat (length l))) as [Hle2|Hgt2].
    + rewrite Z.min_l by lia. f_equal. lia.
    + rewrite Z.min_r by lia.
      rewrite !firstn_all2; [reflexivity| |]; rewrite length_skipn; lia.
  - rewrite (Z.min_r start) by lia. rewrite Z.min_r by lia.
    rewrite !skipn_all2 by lia. now rewrite !firstn_nil.
Qed.

Lemma concat_windows {A} (l : list A) (n k : nat) :
  concat (map (fun i => firstn n (skipn (i * n) l)) (seq 0 k)) = firstn (k * n) l.
Proof.
  induction k as [|k IH]; [reflexivity|].
  rewrite seq_S, map_app, concat_app, IH. cbn [map concat plus].
  rewrite app_nil_r. replace (S k * n)%nat with (k * n + n)%nat by lia.
  now rewrite firstn_plus.
Qed.

End TableMoreFacts.

Section TableViewClaims.
Import Js DataTable DataTableView TableSpec TableMoreSpec.

Lemma page_rows_window (t : table) (i : nat) :
  serverSide (cfg t) = false -> 0 < pageSize t ->
  page_rows t (1 + Z.of_nat i)
  = firstn (Z.to_nat (pageSize t)) (skipn (i * Z.to_nat (pageSize t)) (filteredData t)).
Proof.
  intros Hm Hs. unfold page_rows, paginatedData.
  cbn [cfg set_currentPage currentPage pageSize filteredData]. rewrite Hm.
  rewrite slice_window by nia. f_equal. f_equal. nia.
Qed.

(** X1. In client-side mode with a positive page size, the pages 1 to
    [ceil(rows / pageSize)] hold, in order and without overlap, exactly the
    rows of the view; no page holds more than [pageSize] rows; and a page
    past the last row is empty. *)
Theorem pages_partition_view (t : table)
    (Hmode : serverSide (cfg t) = false) (Hsize : 0 < pageSize t) :
  concat (map (page_rows t)
            (pages_upto (ceil_div (Z.of_nat (length (filteredData t))) (pageSize t))))
  = filteredData t /\
  (forall p, Z.of_nat (length (page_rows t p)) <= pageSize t) /\
  (forall p, 1 <= p -> Z.of_nat (length (filteredData t)) <= (p - 1) * pageSize t ->
             page_rows t p = []).
Proof.
  split; [|split].
  - unfold pages_upto, push_range. rewrite map_map.
    rewrite (map_ext _ (fun i => firstn (Z.to_nat (pageSize t))
                                   (skipn (i * Z.to_nat (pageSize t)) (filteredData t))))
      by (intros i; now apply page_rows_window).
    rewrite concat_windows. apply firstn_all2.
    pose proof (ceil_div_ceiling (Z.of_nat (length (filteredData t))) (pageSize t) Hsize) as Hc.
    unfold ceiling_of in Hc. nia.
  - intros p. unfold page_rows, paginatedData, slice.
    cbn [cfg set_currentPage currentPage pageSize filteredData]. rewrite Hmode.
    rewrite length_firstn.
    set (len := Z.of_nat (length (filteredData t))).
    set (start := (p - 1) * pageSize t).
    assert (Hlen : 0 <= len) by (unfold len; lia).
    destruct (start <? 0) eqn:E1; destruct (start + pageSize t <? 0) eqn:E2;
      try apply Z.ltb_lt in E1; try apply Z.ltb_lt in E2;
      try apply Z.ltb_ge in E1; try apply Z.ltb_ge in E2; lia.
  - intros p Hp Hlast. replace p with (1 + Z.of_nat (Z.to_nat (p - 1))) by lia.
    rewrite page_rows_window by assumption.
    rewrite skipn_all2 by nia. apply firstn_nil.
Qed.

Lemma pages_partition_view_witness :
  let t := showing [two; ten; two_s; ten_s; two] 2 in
  map (page_rows t) [1; 2; 3] = [[two; ten]; [two_s; ten_s]; [two]] /\
  concat (map (page_rows t) [1; 2; 3]) = filteredData t /\
  page_rows t 4 = [].
Proof.
  cbv zeta.
  destruct (pages_partition_view (showing [two; ten; two_s; ten_s; two] 2) eq_refl eq_refl)
    as (Hcover & _ & Hpast).
  split; [reflexivity|]. split; [exact Hcover|].
  apply Hpast; [lia|]. cbn. lia.
Defined.

End TableViewClaims.

Section TableNavigationClaims.
Import Js DataTable DataTableView TableSpec TableMoreSpec.

(** X2. [pageNumbers] is a run of consecutive page numbers, all between 1
    and [totalPages]; it has [min(5, totalPages)] entries (none when there
    is no page), whatever the current page is; and it contains the current
    page whenever that page exists. *)
Theorem pageNumbers_window (t : table) :
  exists first : Z,
    pageNumbers t = push_range first (first + Z.of_nat (length (pageNumbers t)) - 1) /\
    Z.of_nat (length (pageNumbers t)) = Z.max 0 (Z.min 5 (totalPages t)) /\
    (forall p, In p (pageNumbers t) -> 1 <= p <= totalPages t) /\
    (1 <= currentPage t <= totalPages t -> In (currentPage t) (pageNumbers t)).
Proof.
  unfold pageNumbers.
  set (s0 := Z.max 1 (currentPage t - 5 / 2)).
  set (e := Z.min (totalPages t) (s0 + 5 - 1)).
  set (s := if e - s0 + 1 <? 5 then Z.max 1 (e - 5 + 1) else s0).
  assert (H52 : 5 / 2 = 2) by reflexivity.
  assert (Hs : 1 <= s /\ s <= s0 /\ (e - s + 1 = Z.min 5 (totalPages t) \/
                                     (e - s + 1 <= 0 /\ totalPages t <= 0))).
  { unfold s. destruct (e - s0 + 1 <? 5) eqn:E.
    - apply Z.ltb_lt in E. unfold e, s0 in *. lia.
    - apply Z.ltb_ge in E. unfold e, s0 in *. lia. }
  destruct Hs as (Hs1 & Hs0 & Hlen).
  assert (Hl : Z.of_nat (length (push_range s e)) = Z.max 0 (Z.min 5 (totalPages t))).
  { unfold push_range. rewrite length_map, length_seq. lia. }
  exists s. split_and!.
  - rewrite Hl. unfold push_range. f_equal. f_equal. lia.
  - exact Hl.
  - intros p Hp. unfold push_range in Hp. apply in_map_iff in Hp as (k & <- & Hk).
    apply in_seq in Hk. unfold e in *. lia.
  - intros Hc. unfold push_range. apply in_map_iff.
    exists (Z.to_nat (currentPage t - s)). split; [unfold s0 in *; lia|].
    apply in_seq. unfold e, s0 in *. lia.
Qed.

(** X3. Moving between pages never leaves the page number below 1, and in
    client-side mode never past [totalPages]: [goToPage] outside the range,
    [nextPage] on the last page and [prevPage] on the first change nothing. *)
Theorem navigation_stays_in_range fetch (t : table) (p : Z)
    (Hcur : 1 <= currentPage t) :
  1 <= currentPage (goToPage fetch p t) /\
  1 <= currentPage (nextPage fetch t) /\
  1 <= currentPage (prevPage fetch t) /\
  (currentPage t = totalPages t -> nextPage fetch t = t) /\
  (currentPage t = 1 -> prevPage fetch t = t) /\
  (serverSide (cfg t) = false -> currentPage t <= totalPages t ->
     currentPage (goToPage fetch p t) <= totalPages (goToPage fetch p t) /\
     currentPage (nextPage fetch t) <= totalPages (nextPage fetch t) /\
     currentPage (prevPage fetch t) <= totalPages (prevPage fetch t)).
Proof.
  assert (Hgo : forall q,
    currentPage (goToPage fetch q t)
    = if (1 <=? q) && (q <=? totalPages t) then q else currentPage t).
  { intros q. unfold goToPage. destruct ((1 <=? q) && (q <=? totalPages t)); [|reflexivity].
    cbn [cfg set_currentPage]. destruct (serverSide (cfg t)); [|reflexivity].
    now destruct (loadData_frame fetch [] (set_currentPage q t)) as (-> & _). }
  assert (Hrange : forall q, 1 <= currentPage (goToPage fetch q t)).
  { intros q. rewrite Hgo. destruct (1 <=? q) eqn:E1; cbn [andb]; [|exact Hcur].
    destruct (q <=? totalPages t); [|exact Hcur]. now apply Z.leb_le in E1. }
  assert (Hnoop : forall q, q < 1 \/ q > totalPages t -> goToPage fetch q t = t).
  { intros q Hq. unfold goToPage.
    destruct (1 <=? q) eqn:E1; destruct (q <=? totalPages t) eqn:E2; try reflexivity.
    apply Z.leb_le in E1, E2. lia. }
  assert (Hclient : forall q, serverSide (cfg t) = false -> currentPage t <= totalPages t ->
    currentPage (goToPage fetch q t) <= totalPages (goToPage fetch q t)).
  { intros q Hm Hle. unfold goToPage.
    destruct (1 <=? q) eqn:E1; destruct (q <=? totalPages t) eqn:E2; cbn [andb]; try exact Hle.
    cbn [cfg set_currentPage]. rewrite Hm. cbn. now apply Z.leb_le in E2. }
  split_and!.
  - apply Hrange.
  - apply Hrange.
  - apply Hrange.
  - intros He. apply Hnoop. lia.
  - intros He. apply Hnoop. lia.
  - intros Hm Hle. split_and!; now apply Hclient.
Qed.

Lemma navigation_stays_in_range_witness :
  let t := showing [two; ten; two_s] 2 in
  nextPage (fun _ _ => Rejected) (nextPage (fun _ _ => Rejected) t)
  = nextPage (fun _ _ => Rejected) t /\
  1 <= currentPage (prevPage (fun _ _ => Rejected) t).
Proof.
  cbv zeta. split; [reflexivity|].
  assert (Hcur : 1 <= currentPage (showing [two; ten; two_s] 2)) by (cbn; lia).
  destruct (navigation_stays_in_range (fun _ _ => Rejected) (showing [two; ten; two_s] 2) 0 Hcur)
    as (_ & _ & Hprev & _).
  exact Hprev.
Defined.

End TableNavigationClaims.

Section NumberText.
Import Js.

Lemma pretty_N_char_digit (d : N) :
  (d < 10)%N ->
  is_digit (pretty_N_char d) = true /\ digit_value (pretty_N_char d) = Z.of_N d /\
  is_space (pretty_N_char d) = false /\
  pretty_N_char d <> "+"%char /\ pretty_N_char d <> "-"%char.
Proof.
  intros H.
  assert (d = 0 \/ d = 1 \/ d = 2 \/ d = 3 \/ d = 4 \/ d = 5 \/ d = 6 \/ d = 7 \/ d = 8 \/ d = 9)%N
    as Hd by lia.
  repeat (destruct Hd as [->|Hd]; [repeat split; discriminate|]).
  subst d. repeat split; discriminate.
Qed.

(** Reading the digits [pretty_N_go] wrote gives the number back. *)
Lemma digits_go_pretty (n : N) :
  forall (acc : Z) (s : string),
    exists k : nat,
      digits_go acc (pretty_N_go n s) = digits_go (acc * 10 ^ Z.of_nat k + Z.of_N n) s.
Proof.
  induction (N.lt_wf_0 n) as [n _ IH]. intros acc s.
  assert (n = 0 \/ 0 < n)%N as [->|Hpos] by lia.
  - exists 0%nat. rewrite pretty_N_go_0. f_equal.
    change (Z.of_nat 0) with 0. rewrite Z.pow_0_r. lia.
  - rewrite pretty_N_go_step by exact Hpos.
    destruct (IH (n / 10)%N ltac:(apply N.div_lt; lia) acc
                (String (pretty_N_char (n mod 10)) s)) as [k Hk].
    exists (S k). rewrite Hk. cbn [digits_go].
    destruct (pretty_N_char_digit (n mod 10)%N ltac:(apply N.mod_lt; lia)) as (-> & -> & _).
    f_equal. rewrite Nat2Z.inj_succ, Z.pow_succ_r by lia.
    pose proof (N.div_mod n 10 ltac:(lia)) as Hdm. lia.
Qed.

(** What [pretty_N_go] writes for a positive number starts with a digit. *)
Lemma pretty_N_go_head (n : N) :
  forall s, (0 < n)%N ->
    exists d r, (d < 10)%N /\ pretty_N_go n s = String (pretty_N_char d) r.
Proof.
  induction (N.lt_wf_0 n) as [n _ IH]. intros s Hpos.
  rewrite pretty_N_go_step by exact Hpos.
  destruct (N.eq_0_gt_0_cases (n / 10)) as [Hz|Hq].
  - rewrite Hz, pretty_N_go_0. exists (n mod 10)%N, s.
    split; [apply N.mod_lt; lia|reflexivity].
  - apply IH; [apply N.div_lt; lia|exact Hq].
Qed.

Lemma parseFloat_unsigned (n : N) :
  exists c r, pretty n = String c r /\ is_space c = false /\
              c <> "+"%char /\ c <> "-"%char /\
              digits (pretty n) = Some (Z.of_N n, EmptyString).
Proof.
  unfold pretty, pretty_N. destruct (decide (n = 0)%N) as [->|Hn].
  - exists "0"%char, EmptyString. repeat split; discriminate.
  - destruct (pretty_N_go_head n "" ltac:(lia)) as (d & r & Hd & Hhead).
    destruct (pretty_N_char_digit d Hd) as (Hdig & _ & Hsp & Hplus & Hminus).
    exists (pretty_N_char d), r. split; [exact Hhead|]. repeat split; try assumption.
    unfold digits. rewrite Hhead, Hdig, <- Hhead.
    destruct (digits_go_pretty n 0 "") as [k Hk]. rewrite Hk. cbn [digits_go].
    now replace (0 * 10 ^ Z.of_nat k + Z.of_N n) with (Z.of_N n) by lia.
Qed.

(** [parseFloat(String(z))] is [z], for every integer. *)
Lemma parseFloat_integer (z : Z) : parseFloat (VNum (Num z)) = Num z.
Proof.
  unfold parseFloat, ToString, parseFloat_string.
  destruct z as [|p|p].
  - reflexivity.
  - change (pretty (Z.pos p)) with (pretty (N.pos p)).
    destruct (parseFloat_unsigned (N.pos p)) as (c & r & Hhead & Hsp & Hplus & Hminus & Hdig).
    rewrite Hhead. cbn [skip_spaces]. rewrite Hsp.
    assert (Hsigned : signed (String c r) = (1, String c r)).
    { unfold signed. destruct c as [[] [] [] [] [] [] [] []]; try reflexivity; congruence. }
    rewrite Hsigned, <- Hhead, Hdig. f_equal; lia.
  - change (pretty (Z.neg p)) with ("-" ++ pretty (N.pos p))%string.
    destruct (parseFloat_unsigned (N.pos p)) as (c & r & Hhead & Hsp & Hplus & Hminus & Hdig).
    change (signed (skip_spaces ("-" ++ pretty (N.pos p))))
      with (-1, pretty (N.pos p)).
    cbv beta iota. rewrite Hdig. f_equal; lia.
Qed.

End NumberText.

Section SortFacts.
Import Js DataTable DataTableView TableSpec TableMoreSpec.

Lemma insert_permutation {A} (cmp : A -> A -> Z) (x : A) (l : list A) :
  Permutation (insert cmp x l) (x :: l).
Proof.
  induction l as [|y l IH]; cbn [insert]; [reflexivity|].
  destruct (cmp x y <? 0); [reflexivity|].
  rewrite IH. apply perm_swap.
Qed.

Lemma sort_fold_permutation {A} (cmp : A -> A -> Z) (l acc : list A) :
  Permutation (fold_left (fun sorted pivot => insert cmp pivot sorted) l acc) (acc ++ l).
Proof.
  revert acc. induction l as [|x l IH]; intros acc; cbn [fold_left].
  - now rewrite app_nil_r.
  - rewrite IH, insert_permutation. apply Permutation_middle.
Qed.

Lemma sort_permutation {A} (cmp : A -> A -> Z) (l : list A) :
  Permutation (Js.sort cmp l) l.
Proof. unfold Js.sort. apply sort_fold_permutation. Qed.

(** The integer in a cell, 0 when it holds something else. *)
Lemma column_cons (field : string) (r : record) (rows : list record) (zs : list Z) :
  column field (r :: rows) = Some zs <->
  exists z zs', get r field = VNum (Num z) /\ column field rows = Some zs' /\ zs = z :: zs'.
Proof.
  cbn [column]. split.
  - destruct (get r field) as [| | |[|z]|]; try discriminate.
    destruct (column field rows) as [zs'|]; [|discriminate].
    intros [= <-]. now exists z, zs'.
  - intros (z & zs' & -> & -> & ->). reflexivity.
Qed.

Lemma comparator_integers (dir field : string) (a b : record) (x y : Z) :
  get a field = VNum (Num x) -> get b field = VNum (Num y) ->
  comparator dir field a b
  = if String.eqb dir "asc" then (if y <? x then 1 else -1) else (if x <? y then 1 else -1).
Proof.
  intros Ha Hb. unfold comparator. rewrite Ha, Hb.
  change (isNaN (VNum (Num x))) with false. change (isNaN (VNum (Num y))) with false.
  cbn [negb andb]. rewrite !parseFloat_integer. reflexivity.
Qed.

(** Inserting a row keeps an integer column in order, going up under
    'asc' and down under any other direction. *)
Lemma insert_column (dir field : string) (r : record) (rows : list record)
    (z : Z) (zs : list Z) :
  get r field = VNum (Num z) -> column field rows = Some zs ->
  exists zs', column field (insert (comparator dir field) r rows) = Some zs' /\
              Permutation zs' (z :: zs) /\
              (forall lo, (forall v, In v (z :: zs) -> lo <= v) -> forall v, In v zs' -> lo <= v) /\
              (forall hi, (forall v, In v (z :: zs) -> v <= hi) -> forall v, In v zs' -> v <= hi) /\
              (String.eqb dir "asc" = true -> ascending zs -> ascending zs') /\
              (String.eqb dir "asc" = false -> descending zs -> descending zs').
Proof.
  intros Hr. revert zs. induction rows as [|y rows IH]; intros zs Hcol.
  - cbn in Hcol. injection Hcol as <-. exists [z]. cbn [insert column]. rewrite Hr.
    repeat split; auto.
  - apply column_cons in Hcol as (w & ws & Hy & Hws & ->).
    cbn [insert]. rewrite (comparator_integers dir field r y z w Hr Hy).
    destruct (IH ws Hws) as (zs' & Hcol' & Hperm & Hlo & Hhi & Hasc & Hdesc).
    assert (Hbound : forall (P : Z -> Prop), (forall v, In v (z :: w :: ws) -> P v) ->
                     forall v, In v (z :: ws) -> P v).
    { intros P HP v [->|Hv]; apply HP; cbn; tauto. }
    destruct (String.eqb dir "asc") eqn:Hdir.
    + destruct (w <? z) eqn:Hwz.
      * (* the row goes further down the list *)
        change (1 <? 0) with false. cbv iota.
        exists (w :: zs'). cbn [column]. rewrite Hy, Hcol'. split; [reflexivity|].
        split; [rewrite Hperm; apply perm_swap|]. split_and!.
        -- intros lo Hall v [<-|Hv]; [apply Hall; cbn; tauto|].
           apply (Hlo lo); [intros u Hu; apply Hall; cbn in *; tauto|exact Hv].
        -- intros hi Hall v [<-|Hv]; [apply Hall; cbn; tauto|].
           apply (Hhi hi); [intros u Hu; apply Hall; cbn in *; tauto|exact Hv].
        -- intros _ Hsorted.
           assert (Htail : ascending ws) by (destruct ws; cbn in *; tauto).
           specialize (Hasc eq_refl Htail).
           assert (Hmin : forall v, In v zs' -> w <= v).
           { apply Hlo. intros v [<-|Hv]; [apply Z.ltb_lt in Hwz; lia|].
             clear - Hsorted Hv. revert w Hsorted Hv.
             induction ws as [|u ws IHws]; intros w Hsorted Hv; [destruct Hv|].
             destruct Hsorted as [Hwu Hrest]. destruct Hv as [<-|Hv]; [exact Hwu|].
             specialize (IHws u Hrest Hv). lia. }
           destruct zs' as [|u zs']; [exact I|]. split; [apply Hmin; now left|exact Hasc].
        -- discriminate.
      * change (-1 <? 0) with true. cbv iota.
        exists (z :: w :: ws). cbn [column]. rewrite Hr, Hy, Hws.
        split; [reflexivity|]. split; [reflexivity|]. split_and!; auto.
        -- intros _ Hsorted. split; [apply Z.ltb_ge in Hwz; lia|exact Hsorted].
        -- discriminate.
    + destruct (z <? w) eqn:Hzw.
      * change (1 <? 0) with false. cbv iota.
        exists (w :: zs'). cbn [column]. rewrite Hy, Hcol'. split; [reflexivity|].
        split; [rewrite Hperm; apply perm_swap|]. split_and!.
        -- intros lo Hall v [<-|Hv]; [apply Hall; cbn; tauto|].
           apply (Hlo lo); [intros u Hu; apply Hall; cbn in *; tauto|exact Hv].
        -- intros hi Hall v [<-|Hv]; [apply Hall; cbn; tauto|].
           apply (Hhi hi); [intros u Hu; apply Hall; cbn in *; tauto|exact Hv].
        -- discriminate.
        -- intros _ Hsorted.
           assert (Htail : descending ws) by (destruct ws; cbn in *; tauto).
           specialize (Hdesc eq_refl Htail).
           assert (Hmax : forall v, In v zs' -> v <= w).
           { apply Hhi. intros v [<-|Hv]; [apply Z.ltb_lt in Hzw; lia|].
             clear - Hsorted Hv. revert w Hsorted Hv.
             induction ws as [|u ws IHws]; intros w Hsorted Hv; [destruct Hv|].
             destruct Hsorted as [Hwu Hrest]. destruct Hv as [<-|Hv]; [exact Hwu|].
             specialize (IHws u Hrest Hv). lia. }
           destruct zs' as [|u zs']; [exact I|]. split; [apply Hmax; now left|exact Hdesc].
      * change (-1 <? 0) with true. cbv iota.
        exists (z :: w :: ws). cbn [column]. rewrite Hr, Hy, Hws.
        split; [reflexivity|]. split; [reflexivity|]. split_and!; auto.
        -- discriminate.
        -- intros _ Hsorted. split; [apply Z.ltb_ge in Hzw; lia|exact Hsorted].
Qed.

End SortFacts.

Section SortClaims.
Import Js DataTable DataTableView TableSpec TableMoreSpec.

Lemma sort_fold_column (dir field : string) (l acc : list record) (zl za : list Z) :
  column field l = Some zl -> column field acc = Some za ->
  exists zs', column field (fold_left (fun sorted pivot => insert (comparator dir field) pivot sorted)
                              l acc) = Some zs' /\
              Permutation zs' (za ++ zl) /\
              (String.eqb dir "asc" = true -> ascending za -> ascending zs') /\
              (String.eqb dir "asc" = false -> descending za -> descending zs').
Proof.
  revert acc zl za. induction l as [|r l IH]; intros acc zl za Hl Ha.
  - cbn in Hl. injection Hl as <-. exists za. cbn [fold_left]. rewrite app_nil_r. auto.
  - apply column_cons in Hl as (z & zl' & Hr & Hl' & ->). cbn [fold_left].
    destruct (insert_column dir field r acc z za Hr Ha) as (zi & Hi & Hperm & _ & _ & Hasc & Hdesc).
    destruct (IH _ zl' zi Hl' Hi) as (zs' & Hcol & Hperm' & Hasc' & Hdesc').
    exists zs'. split; [exact Hcol|]. split_and!.
    + rewrite Hperm', Hperm. cbn. apply Permutation_middle.
    + intros Hd Hs. apply Hasc'; [exact Hd|]. now apply Hasc.
    + intros Hd Hs. apply Hdesc'; [exact Hd|]. now apply Hdesc.
Qed.

(** X4. In client-side mode [sort(field)] only reorders the view: the
    rows after it are a permutation of the rows before, and the held
    records, the record count, the page count and the page number are
    untouched. *)
Theorem sort_client_reorders_only fetch (field : string) (t : table)
    (Hmode : serverSide (cfg t) = false) :
  let t' := sort fetch field t in
  Permutation (filteredData t') (filteredData t) /\
  data t' = data t /\ totalRecords t' = totalRecords t /\
  totalPages t' = totalPages t /\ currentPage t' = currentPage t /\
  search t' = search t /\ filters t' = filters t /\
  loading t' = loading t /\ error t' = error t.
Proof.
  cbv zeta. unfold sort.
  destruct (decide (sortField t = Some field));
    cbn [cfg set_sortDirection set_sortField]; rewrite Hmode;
    cbn; (split; [apply sort_permutation|repeat split]).
Qed.

Lemma sort_client_reorders_only_witness :
  filteredData (sort (fun _ _ => Rejected) "a" (showing [ten; two; ten_s] 2))
  = [two; ten_s; ten] /\
  Permutation [two; ten_s; ten] [ten; two; ten_s].
Proof.
  split; [reflexivity|].
  exact (proj1 (sort_client_reorders_only (fun _ _ => Rejected) "a"
                  (showing [ten; two; ten_s] 2) eq_refl)).
Defined.

(** X5. In client-side mode, on a column that holds an integer in every
    row of the view, [sort(field)] on a field not yet sorted by leaves the
    column in ascending order, and a second [sort(field)] leaves it in
    descending order; either way the column holds the same integers as
    before. *)
Theorem sort_orders_integer_column fetch (field : string) (t : table) (zs : list Z)
    (Hmode : serverSide (cfg t) = false)
    (Hcol : column field (filteredData t) = Some zs)
    (Hnew : sortField t <> Some field) :
  let t1 := sort fetch field t in
  let t2 := sort fetch field t1 in
  exists zs1 zs2,
    column field (filteredData t1) = Some zs1 /\ Permutation zs1 zs /\ ascending zs1 /\
    column field (filteredData t2) = Some zs2 /\ Permutation zs2 zs /\ descending zs2.
Proof.
  cbv zeta.
  assert (Hstep : forall (u : table) (dir : string) (zu : list Z),
    column field (filteredData u) = Some zu ->
    exists zs', column field (Js.sort (comparator dir field) (filteredData u)) = Some zs' /\
                Permutation zs' zu /\
                (String.eqb dir "asc" = true -> ascending zs') /\
                (String.eqb dir "asc" = false -> descending zs')).
  { intros u dir zu Hu. unfold Js.sort.
    destruct (sort_fold_column dir field (filteredData u) [] zu [] Hu eq_refl)
      as (zs' & H1 & H2 & H3 & H4).
    exists zs'. split; [exact H1|]. split; [exact H2|].
    split; intros Hd; [apply H3|apply H4]; auto; exact I. }
  assert (E1 : sort fetch field t
               = set_filteredData (Js.sort (comparator "asc" field) (filteredData t))
                   (set_sortDirection "asc" (set_sortField (Some field) t))).
  { unfold sort. rewrite decide_False by exact Hnew.
    cbn [cfg set_sortDirection set_sortField]. now rewrite Hmode. }
  destruct (Hstep t "asc"%string zs Hcol) as (zs1 & Hc1 & Hp1 & Ha1 & _).
  assert (Hagain : forall u : table,
    serverSide (cfg u) = false -> sortField u = Some field -> sortDirection u = "asc"%string ->
    sort fetch field u
    = set_filteredData (Js.sort (comparator "desc" field) (filteredData u))
        (set_sortDirection "desc" u)).
  { intros u Hm Hf Hd. unfold sort. rewrite decide_True by exact Hf. rewrite Hd.
    cbn [String.eqb Ascii.eqb Bool.eqb cfg set_sortDirection sortDirection]. now rewrite Hm. }
  assert (E2 := Hagain (sort fetch field t)
                  ltac:(rewrite E1; exact Hmode) ltac:(rewrite E1; reflexivity)
                  ltac:(rewrite E1; reflexivity)).
  assert (Hc1' : column field (filteredData (sort fetch field t)) = Some zs1)
    by (rewrite E1; exact Hc1).
  destruct (Hstep (sort fetch field t) "desc"%string zs1 Hc1') as (zs2 & Hc2 & Hp2 & _ & Hd2).
  exists zs1, zs2. split_and!.
  - exact Hc1'.
  - exact Hp1.
  - now apply Ha1.
  - rewrite E2. exact Hc2.
  - now rewrite Hp2.
  - now apply Hd2.
Qed.

Lemma sort_orders_integer_column_witness :
  let t := showing [rec_a (VNum (Num 30)); ten; two; rec_a (VNum (Num (-4)))] 2 in
  column "a" (filteredData (sort (fun _ _ => Rejected) "a" t)) = Some [-4; 2; 10; 30] /\
  exists zs1 zs2,
    column "a" (filteredData (sort (fun _ _ => Rejected) "a" t)) = Some zs1 /\
    Permutation zs1 [30; 10; 2; -4] /\ ascending zs1 /\
    column "a" (filteredData (sort (fun _ _ => Rejected) "a"
                                (sort (fun _ _ => Rejected) "a" t))) = Some zs2 /\
    Permutation zs2 [30; 10; 2; -4] /\ descending zs2.
Proof.
  cbv zeta. split; [reflexivity|].
  apply (sort_orders_integer_column (fun _ _ => Rejected) "a"
           (showing [rec_a (VNum (Num 30)); ten; two; rec_a (VNum (Num (-4)))] 2)
           [30; 10; 2; -4] eq_refl eq_refl).
  discriminate.
Defined.

End SortClaims.

Section PageInfoClaims.
Import Js DataTable DataTableView TableSpec TableMoreSpec.

Lemma nth_error_window {A} (l : list A) (k n i : nat) :
  (i < n)%nat -> nth_error (firstn n (skipn k l)) i = nth_error l (k + i).
Proof.
  intros Hi. rewrite nth_error_firstn.
  destruct (Nat.ltb_spec i n); [|lia]. apply nth_error_skipn.
Qed.

(** X6. In client-side mode, when [totalRecords] is the number of rows of
    the view and the current page starts at or before the last row,
    [pageInfo] reads "first-last of total" where first and last are the
    positions, counted from 1, of the first and the last row that
    [paginatedData] shows (last is first - 1 on an empty view). *)
Theorem pageInfo_names_rows_shown (t : table)
    (Hmode : serverSide (cfg t) = false) (Hsize : 0 < pageSize t)
    (Hcount : totalRecords t = Z.of_nat (length (filteredData t)))
    (Hpage : 1 <= currentPage t)
    (Hstart : (currentPage t - 1) * pageSize t <= totalRecords t) :
  let first := (currentPage t - 1) * pageSize t + 1 in
  let shown := Z.of_nat (length (paginatedData t)) in
  pageInfo t = (pretty first ++ "-" ++ pretty (first + shown - 1) ++ " of "
                  ++ pretty (Z.of_nat (length (filteredData t))))%string /\
  forall i : nat, (i < length (paginatedData t))%nat ->
    nth_error (paginatedData t) i = nth_error (filteredData t) (Z.to_nat (first - 1) + i).
Proof.
  cbv zeta.
  assert (Hrows : paginatedData t
                  = firstn (Z.to_nat (pageSize t))
                      (skipn (Z.to_nat ((currentPage t - 1) * pageSize t)) (filteredData t))).
  { unfold paginatedData. rewrite Hmode. apply slice_window; nia. }
  split.
  - unfold pageInfo, pageInfo_start, pageInfo_end. cbn [ToString]. rewrite <- Hcount.
    do 3 f_equal. f_equal. rewrite Hrows, length_firstn, length_skipn. nia.
  - intros i Hi. rewrite Hrows in *. rewrite length_firstn in Hi.
    replace (Z.to_nat ((currentPage t - 1) * pageSize t + 1 - 1))
      with (Z.to_nat ((currentPage t - 1) * pageSize t)) by lia.
    apply nth_error_window. lia.
Qed.

Lemma pageInfo_names_rows_shown_witness :
  let t := set_currentPage 2 (showing [two; ten; two_s; ten_s; two] 2) in
  pageInfo t = "3-4 of 5"%string /\ paginatedData t = [two_s; ten_s] /\
  pageInfo (showing [] 25) = "1-0 of 0"%string.
Proof.
  cbv zeta.
  assert (H1 : 1 <= currentPage (set_currentPage 2 (showing [two; ten; two_s; ten_s; two] 2)))
    by (cbn; lia).
  assert (H2 : (currentPage (set_currentPage 2 (showing [two; ten; two_s; ten_s; two] 2)) - 1)
               * pageSize (set_currentPage 2 (showing [two; ten; two_s; ten_s; two] 2))
               <= totalRecords (set_currentPage 2 (showing [two; ten; two_s; ten_s; two] 2)))
    by (cbn; lia).
  destruct (pageInfo_names_rows_shown
              (set_currentPage 2 (showing [two; ten; two_s; ten_s; two] 2))
              eq_refl eq_refl eq_refl H1 H2) as [Htext _].
  split; [rewrite Htext; reflexivity|]. split; reflexivity.
Defined.

(** X7. Once [init()] has run, [totalPages] is [ceil(totalRecords /
    pageSize)], and [loadData], [sort], [goToPage], [nextPage], [prevPage]
    and [performSearch] all keep it so, whether the request they make is
    answered or rejected. *)
Theorem totalPages_kept_up_to_date fetch (t : table) :
  paged (init fetch t) /\
  (paged t ->
     (forall params, paged (loadData fetch params t)) /\
     (forall field, paged (sort fetch field t)) /\
     (forall p, paged (goToPage fetch p t)) /\
     paged (nextPage fetch t) /\ paged (prevPage fetch t) /\
     paged (performSearch fetch t)).
Proof.
  assert (Hload : forall params u, paged u -> paged (loadData fetch params u)).
  { intros params u Hu. unfold paged, loadData in *.
    destruct (fetch _ _) as [|r]; [exact Hu|].
    cbn [cfg set_error set_loading]. destruct (serverSide (cfg u)); reflexivity. }
  assert (Hgo : forall p u, paged u -> paged (goToPage fetch p u)).
  { intros p u Hu. unfold goToPage. destruct ((1 <=? p) && (p <=? totalPages u)); [|exact Hu].
    cbn [cfg set_currentPage]. destruct (serverSide (cfg u)); [|exact Hu].
    apply Hload. exact Hu. }
  split; [reflexivity|]. intros Ht. split_and!.
  - intros params. now apply Hload.
  - intros field. unfold sort. destruct (decide (sortField t = Some field));
      cbn [cfg set_sortDirection set_sortField]; destruct (serverSide (cfg t));
      try (apply Hload; exact Ht); exact Ht.
  - intros p. now apply Hgo.
  - now apply Hgo.
  - now apply Hgo.
  - unfold performSearch. destruct (serverSide (cfg t)); [|reflexivity].
    apply Hload. exact Ht.
Qed.

End PageInfoClaims.

Section QueryClaims.
Import Js DataTable DataTableView TableSpec TableMoreSpec.

Lemma assoc_assign1 {A} (l : list (string * A)) (k k' : string) (v : A) :
  assoc (assign1 l k v) k' = if String.eqb k k' then Some v else assoc l k'.
Proof.
  induction l as [|[a w] l IH]; cbn [assign1 assoc].
  - now destruct (String.eqb k k').
  - destruct (String.eqb_spec a k) as [->|Hak]; cbn [assoc].
    + now destruct (String.eqb k k').
    + destruct (String.eqb_spec a k') as [->|Hak'].
      * destruct (String.eqb_spec k k'); [congruence|reflexivity].
      * exact IH.
Qed.

Lemma keys_assign1 {A} (l : list (string * A)) (k : string) (v : A) :
  List.NoDup (map fst l) ->
  List.NoDup (map fst (assign1 l k v)) /\
  (forall k', In k' (map fst (assign1 l k v)) <-> k' = k \/ In k' (map fst l)).
Proof.
  induction l as [|[a w] l IH]; intros Hnd.
  - cbn. split; [apply List.NoDup_cons; [intros Hin; destruct Hin|apply List.NoDup_nil]|].
    intros k'. intuition.
  - cbn in Hnd. apply List.NoDup_cons_iff in Hnd as [Hnotin Hnd'].
    cbn [assign1]. destruct (String.eqb_spec a k) as [->|Hak].
    + cbn. split; [now apply List.NoDup_cons|]. intros k'. intuition.
    + destruct (IH Hnd') as [IH1 IH2]. cbn. split.
      * apply List.NoDup_cons; [|exact IH1]. rewrite IH2. intros [->|Hin]; [congruence|contradiction].
      * intros k'. rewrite IH2. intuition.
Qed.

Lemma spread_assoc {A} (target source : list (string * A)) (k : string) :
  List.NoDup (map fst source) ->
  assoc (spread target source) k
  = match assoc source k with Some v => Some v | None => assoc target k end.
Proof.
  unfold spread. revert target. induction source as [|[a v] source IH]; intros target Hnd;
    cbn [fold_left assoc fst snd]; [reflexivity|].
  cbn in Hnd. apply List.NoDup_cons_iff in Hnd as [Hnotin Hnd']. rewrite IH by exact Hnd'.
  rewrite assoc_assign1. destruct (String.eqb_spec a k) as [->|Hak]; [|reflexivity].
  assert (Hnone : assoc source k = None).
  { clear - Hnotin. induction source as [|[b w] source IH]; [reflexivity|].
    cbn [assoc]. cbn in Hnotin. destruct (String.eqb_spec b k) as [->|Hbk]; [tauto|].
    apply IH. tauto. }
  now rewrite Hnone.
Qed.

Lemma spread_keys {A} (target source : list (string * A)) :
  List.NoDup (map fst target) -> List.NoDup (map fst (spread target source)).
Proof.
  unfold spread. revert target. induction source as [|[a v] source IH]; intros target Hnd;
    cbn [fold_left fst snd]; [exact Hnd|].
  apply IH. now apply keys_assign1.
Qed.

Lemma assoc_map_values {A B} (f : A -> B) (l : list (string * A)) (k : string) :
  assoc (map (fun kv => (fst kv, f (snd kv))) l) k = option_map f (assoc l k).
Proof.
  induction l as [|[a v] l IH]; [reflexivity|]. cbn [map assoc fst snd].
  now destruct (String.eqb a k).
Qed.

(** X8. In the query [loadData(params)] sends, a key given in [params]
    carries the caller's value, else a key of [filters] carries the filter's
    value, else the key carries the table's own [page], [size], [search],
    [sort] or [direction]; values are sent as strings, and no key is sent
    twice. *)
Theorem queryParams_precedence (params : list (string * value)) (t : table) (k : string)
    (Hparams : List.NoDup (map fst params)) (Hfilters : List.NoDup (map fst (filters t))) :
  assoc (queryParams params t) k
  = match assoc params k with
    | Some v => Some (ToString v)
    | None =>
        match assoc (filters t) k with
        | Some v => Some (ToString v)
        | None => assoc (own_params t) k
        end
    end /\
  List.NoDup (map fst (queryParams params t)).
Proof.
  unfold queryParams. split.
  - rewrite assoc_map_values, !spread_assoc by assumption.
    destruct (assoc params k); [reflexivity|].
    destruct (assoc (filters t) k); [reflexivity|].
    cbn [assoc own_params]. unfold ToString.
    repeat (match goal with |- context [String.eqb ?a k] => destruct (String.eqb a k) end;
            [reflexivity|]).
    reflexivity.
  - rewrite map_map. cbn [fst]. change (fun x : string * value => fst x) with (@fst string value).
    apply spread_keys, spread_keys. cbn.
    repeat (constructor; [cbn; intuition discriminate|]). constructor.
Qed.

Lemma queryParams_precedence_witness :
  let t := showing [two] 25 in
  assoc (queryParams [("page", VNum (Num 3)); ("brand", VStr "Toyota")] t) "page" = Some "3"%string /\
  assoc (queryParams [("brand", VStr "Toyota")] t) "page" = Some "1"%string /\
  assoc (queryParams [("brand", VStr "Toyota")] t) "brand" = Some "Toyota"%string.
Proof.
  cbv zeta.
  assert (Hnd : List.NoDup (map fst [("page"%string, VNum (Num 3)); ("brand"%string, VStr "Toyota")])).
  { cbn. repeat (constructor; [cbn; intuition discriminate|]). constructor. }
  destruct (queryParams_precedence [("page"%string, VNum (Num 3)); ("brand"%string, VStr "Toyota")]
              (showing [two] 25) "page" Hnd ltac:(constructor)) as [Hpage _].
  split; [rewrite Hpage; reflexivity|]. split; reflexivity.
Defined.

End QueryClaims.

(** * Further properties of the forms *)

Section ValidationAgreement.
Import Dom FormSpec SubmitSpec.

Lemma passes_first_missing (ids groups : list string) (w : page) :
  passes (first_missing ids groups w)
  = forallb (fun id => JsString.truthy (value_at id w)) ids &&
    forallb (fun g => has_checked g w) groups.
Proof.
  unfold first_missing.
  assert (H1 : forall l, match first_unset l w with Some _ => false | None => true end
                         = forallb (fun id => JsString.truthy (value_at id w)) l).
  { induction l as [|id l IH]; [reflexivity|]. cbn [first_unset forallb].
    destruct (JsString.truthy (value_at id w)); [exact IH|reflexivity]. }
  assert (H2 : forall l, match first_unchecked l w with Some _ => false | None => true end
                         = forallb (fun g => has_checked g w) l).
  { induction l as [|g l IH]; [reflexivity|]. cbn [first_unchecked forallb].
    destruct (has_checked g w); [exact IH|reflexivity]. }
  rewrite <- H1, <- H2.
  destruct (first_unset ids w); [reflexivity|]. now destruct (first_unchecked groups w).
Qed.

(** X9. The check made on submit and the check that enables the button
    agree: [validateFormBeforeSubmit()] returns true exactly when
    [validateForm()] leaves the submit button enabled, in both estimator
    scripts. *)
Theorem submit_check_agrees_with_button :
  (forall w : page,
     has_selects EstimatorSpec.ids w ->
     (returned Estimator.validateFormBeforeSubmit w = Ok true
        <-> btn_disabled (submitBtn (final Estimator.validateForm w)) = false) /\
     (returned Estimator.validateFormBeforeSubmit w = Ok false
        <-> btn_disabled (submitBtn (final Estimator.validateForm w)) = true)) /\
  (forall w : page,
     has_selects EstimatorEnSpec.ids w ->
     (returned EstimatorEn.validateFormBeforeSubmit w = Ok true
        <-> btn_disabled (submitBtn (final EstimatorEn.validateForm w)) = false) /\
     (returned EstimatorEn.validateFormBeforeSubmit w = Ok false
        <-> btn_disabled (submitBtn (final EstimatorEn.validateForm w)) = true)).
Proof.
  split; intros w Hw; unfold returned, final.
  - rewrite (validateFormBeforeSubmit_run w Hw), (validateForm_run w Hw).
    cbn [snd submitBtn with_submitBtn]. rewrite btn_disabled_validated.
    assert (E : passes (missing w) = EstimatorSpec.is_valid w)
      by (unfold missing; rewrite passes_first_missing; reflexivity).
    rewrite <- E. destruct (missing w); cbn; split; split; congruence.
  - rewrite (estimatorEn_validateFormBeforeSubmit_run w Hw), (estimatorEn_validateForm_run w Hw).
    cbn [snd submitBtn with_submitBtn]. rewrite btn_disabled_validated.
    assert (E : passes (missing_en w) = EstimatorEnSpec.is_valid w)
      by (unfold missing_en; rewrite passes_first_missing; reflexivity).
    rewrite <- E. destruct (missing_en w); cbn; split; split; congruence.
Qed.

Lemma submit_check_agrees_with_button_witness :
  let w := EstimatorSpec.example_page "SUV" "Toyota" "Rush" "G" "2020" EstimatorSpec.all_checked in
  returned Estimator.validateFormBeforeSubmit w = Ok true /\
  btn_disabled (submitBtn (final Estimator.validateForm w)) = false.
Proof.
  cbv zeta.
  destruct (proj1 submit_check_agrees_with_button _
              (example_page_has_selects "SUV" "Toyota" "Rush" "G" "2020" EstimatorSpec.all_checked))
    as [Hagree _].
  assert (Hok : returned Estimator.validateFormBeforeSubmit
                  (EstimatorSpec.example_page "SUV" "Toyota" "Rush" "G" "2020"
                     EstimatorSpec.all_checked) = Ok true) by reflexivity.
  split; [exact Hok|]. now apply Hagree.
Defined.

(** X10. On a complete form the submit listener prevents the default
    action, disables the button, shows the busy markup, keeps the old text
    of the button, and sets the form to be submitted once, after a second;
    it shows no message.  A second run of the listener sets a second
    submission and keeps the busy markup as the old text. *)
Theorem complete_form_is_submitted_once :
  (forall w : page,
     has_selects EstimatorSpec.ids w -> missing w = None ->
     let w' := final Estimator.on_submit w in
     let w'' := final Estimator.on_submit w' in
     log w' = (log w ++ [EvPreventDefault; EvFormSubmit 1000])%list /\
     submitBtn w' = Button true (classList (submitBtn w)) Estimator.loading_markup
                      (Some (btn_innerHTML (submitBtn w))) /\
     selects w' = selects w /\
     log w'' = (log w ++ [EvPreventDefault; EvFormSubmit 1000;
                          EvPreventDefault; EvFormSubmit 1000])%list /\
     originalText (submitBtn w'') = Some Estimator.loading_markup) /\
  (forall w : page,
     has_selects EstimatorEnSpec.ids w -> missing_en w = None ->
     let w' := final EstimatorEn.on_submit w in
     let w'' := final EstimatorEn.on_submit w' in
     log w' = (log w ++ [EvPreventDefault; EvFormSubmit 1000])%list /\
     submitBtn w' = Button true (classList (submitBtn w)) Estimator.loading_markup
                      (Some (btn_innerHTML (submitBtn w))) /\
     selects w' = selects w /\
     log w'' = (log w ++ [EvPreventDefault; EvFormSubmit 1000;
                          EvPreventDefault; EvFormSubmit 1000])%list /\
     originalText (submitBtn w'') = Some Estimator.loading_markup).
Proof.
  split; intros w Hw Hm; cbv zeta; unfold final.
  - assert (E1 : Estimator.on_submit w = (Ok tt, submitting w))
      by (rewrite (on_submit_run w Hw), Hm; reflexivity).
    assert (Hw' : has_selects EstimatorSpec.ids (submitting w)) by exact Hw.
    assert (Hm' : missing (submitting w) = None).
    { unfold missing in *. rewrite <- Hm. unfold first_missing.
      rewrite (first_unset_selects _ (submitting w) w eq_refl).
      now rewrite (first_unchecked_inputs _ (submitting w) w eq_refl). }
    assert (E2 : Estimator.on_submit (submitting w) = (Ok tt, submitting (submitting w)))
      by (rewrite (on_submit_run _ Hw'), Hm'; reflexivity).
    rewrite E1. cbn [snd]. rewrite E2. cbn [snd].
    unfold submitting. cbn. rewrite <- !app_assoc. repeat split.
  - assert (E1 : EstimatorEn.on_submit w = (Ok tt, submitting w))
      by (rewrite (estimatorEn_on_submit_run w Hw), Hm; reflexivity).
    assert (Hw' : has_selects EstimatorEnSpec.ids (submitting w)) by exact Hw.
    assert (Hm' : missing_en (submitting w) = None).
    { unfold missing_en in *. rewrite <- Hm. unfold first_missing.
      rewrite (first_unset_selects _ (submitting w) w eq_refl).
      change (EstimatorEn.uniqueGroupNames (submitting w)) with (EstimatorEn.uniqueGroupNames w).
      now rewrite (first_unchecked_inputs _ (submitting w) w eq_refl). }
    assert (E2 : EstimatorEn.on_submit (submitting w) = (Ok tt, submitting (submitting w)))
      by (rewrite (estimatorEn_on_submit_run _ Hw'), Hm'; reflexivity).
    rewrite E1. cbn [snd]. rewrite E2. cbn [snd].
    unfold submitting. cbn. rewrite <- !app_assoc. repeat split.
Qed.

Lemma complete_form_is_submitted_once_witness :
  let w := EstimatorSpec.example_page "SUV" "Toyota" "Rush" "G" "2020" EstimatorSpec.all_checked in
  log (final Estimator.on_submit w) = [EvPreventDefault; EvFormSubmit 1000].
Proof.
  cbv zeta.
  destruct (proj1 complete_form_is_submitted_once _
              (example_page_has_selects "SUV" "Toyota" "Rush" "G" "2020" EstimatorSpec.all_checked)
              eq_refl) as [Hlog _].
  exact Hlog.
Defined.

End ValidationAgreement.

Section CascadeInvariant.
Import Dom FormSpec Estimator EstimatorSpec CascadeSpec.

(** The select of every level after the listener of level [n] has run. *)
Lemma change_effect urls server (n m : level) (w : page) :
  has_selects ids w -> n <> Year ->
  selects (final (on_change urls server n) w) !! select_id m
  = if (level_index n <? level_index m)%nat then
      if fetches n w then
        match server (request_url urls n w) with
        | Decoded names =>
            if (level_index m =? S (level_index n))%nat
            then Some (populated_select (populated_placeholder n) names)
            else Some (reset_select (getPlaceholderText (select_id m)))
        | Rejected =>
            if (level_index m =? S (level_index n))%nat
            then Some (reset_select "Loading...")
            else selects w !! select_id m
        end
      else Some (reset_select (getPlaceholderText (select_id m)))
    else selects w !! select_id m.
Proof.
  intros Hw Hn. unfold final. rewrite (on_change_cases urls server n w Hw Hn).
  cbn [snd]. pose proof (has_select_of_level w m Hw) as Hm.
  destruct (fetches n w); [destruct (server (request_url urls n w)) as [|names]|].
  - cbn [after_failure selects with_selects with_log].
    destruct n, m; try congruence; cbn [level_index Nat.ltb Nat.leb Nat.eqb target next select_id];
      try (rewrite lookup_insert_ne by discriminate; reflexivity);
      try (rewrite lookup_insert_eq; reflexivity).
  - cbn [after_success selects with_selects with_log with_submitBtn].
    destruct n, m; try congruence; cbn [level_index Nat.ltb Nat.leb Nat.eqb target next select_id];
      try (rewrite lookup_kept by reflexivity; rewrite lookup_insert_ne by discriminate;
           reflexivity);
      try (rewrite lookup_kept by reflexivity; rewrite lookup_insert_eq; reflexivity);
      try (apply lookup_reset; [apply lookup_insert_is_Some'; right; exact Hm|reflexivity]).
  - cbn [after_reset selects with_selects with_submitBtn].
    destruct n, m; try congruence; cbn [level_index Nat.ltb Nat.leb select_id];
      try (rewrite lookup_kept by reflexivity; reflexivity);
      try (apply lookup_reset; [exact Hm|reflexivity]).
Qed.

Lemma fetches_value (n : level) (w : page) :
  fetches n w = true -> value_at (select_id n) w <> ""%string.
Proof.
  intros Hf. apply truthy_true_iff.
  destruct n; cbn [fetches tested forallb select_id] in Hf; try discriminate;
    repeat (apply andb_true_iff in Hf as [? Hf]); try assumption.
  all: repeat match goal with H : _ && _ = true |- _ => apply andb_true_iff in H as [? ?] end;
       assumption.
Qed.

Lemma is_valid_false (w : page) (l : level) :
  value_at (select_id l) w = ""%string -> is_valid w = false.
Proof.
  intros H. unfold is_valid. cbn [forallb levels select_id].
  destruct l; cbn [select_id] in H; rewrite H; cbn [JsString.truthy andb];
    rewrite ?andb_false_r; reflexivity.
Qed.

(** X11. The listeners of [car-price-estimator.js] keep the cascade gated:
    if every enabled level has a value in every level above it, and the
    level that changes is enabled, then the same holds after its listener
    has run, provided the request it makes, if any, is answered. *)
Theorem cascade_stays_gated urls server (n : level) (w : page)
    (Hw : has_selects ids w) (Hgated : gated select_id w)
    (Hn : enabled (select_id n) w)
    (Hanswered : answered server (fetches n w) (request_url urls n w)) :
  gated select_id (final (on_change urls server n) w).
Proof.
  destruct (level_index n =? 4)%nat eqn:Hyear.
  { assert (n = Year) as -> by (destruct n; cbn in Hyear; congruence).
    unfold final. cbn [on_change]. unfold yearSelect_change.
    rewrite (validateForm_run w Hw). exact Hgated. }
  assert (Hny : n <> Year) by (intros ->; discriminate).
  intros m (s & Hs & Hd) l Hl. unfold below in Hl.
  rewrite (change_effect urls server n m w Hw Hny) in Hs.
  assert (Hkeep : (level_index l <= level_index n)%nat ->
                  value_at (select_id l) (final (on_change urls server n) w)
                  = value_at (select_id l) w).
  { intros Hle. unfold value_at. rewrite (change_effect urls server n l w Hw Hny).
    destruct (Nat.ltb_spec (level_index n) (level_index l)); [lia|reflexivity]. }
  destruct (Nat.ltb_spec (level_index n) (level_index m)) as [Hbelow|Hnot].
  - destruct (fetches n w) eqn:Hf.
    + destruct (Hanswered eq_refl) as [names Hnames]. rewrite Hnames in Hs.
      destruct (Nat.eqb_spec (level_index m) (S (level_index n))) as [Hnext|Hfar].
      * rewrite Hkeep by lia.
        destruct (Nat.eq_dec (level_index l) (level_index n)) as [Heq|Hne].
        -- assert (l = n) as -> by (destruct l, n; cbn in Heq; congruence).
           now apply fetches_value.
        -- apply (Hgated n Hn l). unfold below. lia.
      * injection Hs as <-. discriminate Hd.
    + injection Hs as <-. discriminate Hd.
  - rewrite Hkeep by lia. apply (Hgated m); [now exists s|exact Hl].
Qed.

Lemma cascade_stays_gated_witness :
  let w := example_page "SUV" "Toyota" "Rush" "G" "2020" [] in
  gated select_id (final (on_change example_urls (fun _ => Decoded ["Honda"]) Category) w).
Proof.
  cbv zeta.
  apply cascade_stays_gated.
  - apply example_page_has_selects.
  - intros m _ l _.
    destruct l; vm_compute; discriminate.
  - eexists. split; [reflexivity|reflexivity].
  - intros _. eexists. reflexivity.
Defined.

Lemma is_valid_button (b : button) (w : page) :
  is_valid (with_submitBtn b w) = is_valid w.
Proof. reflexivity. Qed.

(** X12. After the listener of any level above the year has run and its
    request, if any, was answered, the submit button is disabled: a level
    below is then empty.  When the request is rejected the button is left
    as it was. *)
Theorem change_disables_submit urls server (n : level) (w : page)
    (Hw : has_selects ids w) (Hn : n <> Year) :
  let w' := final (on_change urls server n) w in
  (answered server (fetches n w) (request_url urls n w) ->
     btn_disabled (submitBtn w') = true) /\
  (fetches n w = true -> server (request_url urls n w) = Rejected ->
     submitBtn w' = submitBtn w).
Proof.
  cbv zeta. split.
  - intros Hanswered.
    assert (Hnext : exists m, level_index m = S (level_index n))
      by (destruct n; [exists Brand|exists Model|exists Variant|exists Year|congruence];
          reflexivity).
    destruct Hnext as [m Hm].
    assert (Hempty : value_at (select_id m) (final (on_change urls server n) w) = ""%string).
    { unfold value_at. rewrite (change_effect urls server n m w Hw Hn).
      destruct (Nat.ltb_spec (level_index n) (level_index m)); [|lia].
      destruct (fetches n w) eqn:Hf; [|reflexivity].
      destruct (Hanswered eq_refl) as [names ->].
      destruct (Nat.eqb_spec (level_index m) (S (level_index n))); reflexivity. }
    apply is_valid_false in Hempty. revert Hempty.
    unfold final. rewrite (on_change_cases urls server n w Hw Hn). cbn [snd].
    destruct (fetches n w) eqn:Hf.
    + destruct (Hanswered eq_refl) as [names ->].
      unfold after_success. rewrite is_valid_button. intros ->. reflexivity.
    + unfold after_reset. rewrite is_valid_button. intros ->. reflexivity.
  - intros Hf Hs. unfold final. rewrite (on_change_cases urls server n w Hw Hn), Hf, Hs.
    reflexivity.
Qed.

Lemma change_disables_submit_witness :
  let w := with_submitBtn (Button false ∅ "Submit" None)
             (example_page "SUV" "Toyota" "Rush" "G" "2020" all_checked) in
  btn_disabled (submitBtn (final (on_change example_urls (fun _ => Decoded ["2019"]) Variant) w))
  = true.
Proof.
  cbv zeta.
  refine (proj1 (change_disables_submit example_urls (fun _ => Decoded ["2019"]) Variant
                   (with_submitBtn (Button false ∅ "Submit" None)
                      (example_page "SUV" "Toyota" "Rush" "G" "2020" all_checked)) _ _) _).
  - apply (example_page_has_selects "SUV" "Toyota" "Rush" "G" "2020" all_checked).
  - discriminate.
  - intros _. eexists. reflexivity.
Defined.

End CascadeInvariant.

Section ResetSelects.
Import Dom FormSpec.
Local Open Scope js_scope.

Lemma assessment_reset_one (id : string) (w : page) (s : select) :
  selects w !! id = Some s ->
  (write id (set_innerHTML [plain_placeholder ("Pilih " ++ JsString.capitalize id)]) ;;;
   write id (set_disabled true)) w
  = (Ok tt, with_selects (<[id := AssessmentCascadeSpec.reset_select_of id]> (selects w)) w).
Proof. intros H. now rewrite (write_write _ _ _ _ _ H). Qed.

Lemma assessment_reset_all_lookup (ids : list string) (m : gmap string select) (id : string) :
  AssessmentCascadeSpec.reset_all ids m !! id
  = if existsb (String.eqb id) ids then Some (AssessmentCascadeSpec.reset_select_of id)
    else m !! id.
Proof.
  revert m. induction ids as [|a ids IH]; intros m;
    cbn [AssessmentCascadeSpec.reset_all fold_left existsb]; [reflexivity|].
  fold (AssessmentCascadeSpec.reset_all ids). rewrite IH.
  destruct (existsb (String.eqb id) ids); [now rewrite orb_true_r|]. rewrite orb_false_r.
  destruct (String.eqb_spec id a) as [->|Hne].
  - apply lookup_insert_eq.
  - apply lookup_insert_ne. congruence.
Qed.

Lemma assessment_resetSelects_run (ids : list string) (w : page) :
  (forall i, In i ids -> is_Some (selects w !! i)) ->
  Assessment.resetSelects ids w
  = (Ok tt, with_selects (AssessmentCascadeSpec.reset_all ids (selects w)) w).
Proof.
  unfold Assessment.resetSelects. revert w.
  induction ids as [|id ids IH]; intros w H;
    cbn [forEach AssessmentCascadeSpec.reset_all fold_left].
  - unfold ret. now rewrite with_selects_id.
  - destruct (H id ltac:(now left)) as [s Hs].
    rewrite (bind_ok _ _ _ _ _ (assessment_reset_one id w s Hs)).
    rewrite IH; [reflexivity|].
    intros i Hi. cbn [selects with_selects]. apply lookup_insert_is_Some'. right.
    apply H. now right.
Qed.

Lemma assessment_resetSelects_throws (pre post : list string) (id : string) (w : page) :
  (forall i, In i pre -> is_Some (selects w !! i)) -> selects w !! id = None ->
  Assessment.resetSelects (pre ++ id :: post) w
  = (Throw TypeError, with_selects (AssessmentCascadeSpec.reset_all pre (selects w)) w).
Proof.
  unfold Assessment.resetSelects. revert w.
  induction pre as [|p pre IH]; intros w H Hid;
    cbn [app forEach AssessmentCascadeSpec.reset_all fold_left].
  - unfold bind at 1. unfold bind at 1. unfold write at 1. rewrite Hid.
    now rewrite with_selects_id.
  - destruct (H p ltac:(now left)) as [s Hs].
    rewrite (bind_ok _ _ _ _ _ (assessment_reset_one p w s Hs)).
    rewrite IH; [reflexivity| |].
    + intros i Hi. cbn [selects with_selects]. apply lookup_insert_is_Some'. right.
      apply H. now right.
    + cbn [selects with_selects]. rewrite lookup_insert_ne; [exact Hid|].
      intros ->. rewrite Hid in Hs. discriminate.
Qed.

(** X13. [resetSelects] of [car-price-estimator.js] never throws: it
    resets the selects of the ids that are on the page, skips the ids that
    are not, and touches no other select.  [resetSelects] of
    [car-assessment.js] has no such guard: at the first id that is not on
    the page it throws a [TypeError], with the ids before it already reset
    and the ids after it untouched. *)
Theorem resetSelects_on_a_missing_id :
  (forall (ids : list string) (w : page),
     returned (Estimator.resetSelects ids) w = Ok tt /\
     forall id,
       selects (final (Estimator.resetSelects ids) w) !! id
       = match selects w !! id with
         | Some s => Some (if existsb (String.eqb id) ids
                           then reset_select (Estimator.getPlaceholderText id) else s)
         | None => None
         end) /\
  (forall (pre post : list string) (id : string) (w : page),
     (forall i, In i pre -> is_Some (selects w !! i)) -> selects w !! id = None ->
     returned (Assessment.resetSelects (pre ++ id :: post)) w = Throw TypeError /\
     forall i,
       selects (final (Assessment.resetSelects (pre ++ id :: post)) w) !! i
       = if existsb (String.eqb i) pre then Some (AssessmentCascadeSpec.reset_select_of i)
         else selects w !! i).
Proof.
  split.
  - intros ids w. unfold returned, final. rewrite resetSelects_run. cbn [fst snd].
    split; [reflexivity|]. intros id. cbn [selects with_selects]. apply reset_all_lookup.
  - intros pre post id w Hpre Hid. unfold returned, final.
    rewrite (assessment_resetSelects_throws pre post id w Hpre Hid). cbn [fst snd].
    split; [reflexivity|]. intros i. cbn [selects with_selects].
    apply assessment_reset_all_lookup.
Qed.

Lemma resetSelects_on_a_missing_id_witness :
  let w := AssessmentSpec.example_page "SUV" "Toyota" "Rush" "G" "2020" in
  returned (Assessment.resetSelects ["model"; "trim"; "year"]) w = Throw TypeError /\
  selects (final (Assessment.resetSelects ["model"; "trim"; "year"]) w) !! "model"
  = Some (AssessmentCascadeSpec.reset_select_of "model") /\
  selects (final (Assessment.resetSelects ["model"; "trim"; "year"]) w) !! "year"
  = Some (EstimatorSpec.chosen "2020").
Proof.
  cbv zeta.
  assert (Hpre : forall i, In i ["model"%string] ->
                 is_Some (selects (AssessmentSpec.example_page "SUV" "Toyota" "Rush" "G" "2020") !! i)).
  { intros i [<-|[]]. eexists. reflexivity. }
  destruct (proj2 resetSelects_on_a_missing_id ["model"%string] ["year"%string] "trim"%string
              (AssessmentSpec.example_page "SUV" "Toyota" "Rush" "G" "2020") Hpre eq_refl)
    as [Hthrow Hlook].
  split; [exact Hthrow|]. split; [exact (Hlook "model"%string)|exact (Hlook "year"%string)].
Defined.

End ResetSelects.

Section EnglishCascadeFacts.
Import Dom FormSpec EstimatorEnCascade EstimatorEnCascadeSpec CascadeSpec.
Local Open Scope js_scope.

Lemma en_showLoading_run (id : string) (w : page) (s : select) :
  selects w !! id = Some s ->
  showLoading id w = (Ok tt, with_selects (<[id := reset_select "Loading..."]> (selects w)) w).
Proof. intros H. unfold showLoading. now rewrite (write_write _ _ _ _ _ H). Qed.

Lemma en_resetSelects_run (ids : list string) (w : page) :
  resetSelects ids w = (Ok tt, with_selects (reset_all ids (selects w)) w).
Proof.
  unfold resetSelects. revert w.
  induction ids as [|id ids IH]; intros w; cbn [forEach reset_all fold_left].
  - unfold ret. now rewrite with_selects_id.
  - unfold bind at 1. unfold bind at 1. unfold getElementById.
    destruct (selects w !! id) as [s|] eqn:Hs.
    + rewrite (write_write _ _ _ _ _ Hs). rewrite IH. reflexivity.
    + unfold ret. rewrite IH. reflexivity.
Qed.

Lemma en_reset_all_lookup (ids : list string) (m : gmap string select) (id : string) :
  reset_all ids m !! id =
  match m !! id with
  | Some s => Some (if existsb (String.eqb id) ids
                    then reset_select (getPlaceholderText id) else s)
  | None => None
  end.
Proof.
  revert m. induction ids as [|a ids IH]; intros m; cbn [reset_all fold_left existsb].
  - now destruct (m !! id).
  - fold (reset_all ids). rewrite IH. destruct (String.eqb_spec id a) as [->|Hne].
    + destruct (m !! a) as [s|] eqn:Hs.
      * rewrite lookup_insert_eq. cbn [orb]. now destruct (existsb _ ids).
      * now rewrite Hs.
    + cbn [orb]. destruct (m !! a) as [s|] eqn:Hs; [|reflexivity].
      rewrite lookup_insert_ne by congruence. reflexivity.
Qed.

Lemma en_reset_all_is_Some (down : list string) (m : gmap string select) (id : string) :
  is_Some (m !! id) -> is_Some (reset_all down m !! id).
Proof. intros [s H]. rewrite en_reset_all_lookup, H. eauto. Qed.

Lemma en_lookup_reset (down : list string) (m : gmap string select) (id : string) :
  is_Some (m !! id) -> existsb (String.eqb id) down = true ->
  reset_all down m !! id = Some (reset_select (getPlaceholderText id)).
Proof. intros [s H] Hin. now rewrite en_reset_all_lookup, H, Hin. Qed.

Lemma en_lookup_kept (down : list string) (m : gmap string select) (id : string) :
  existsb (String.eqb id) down = false -> reset_all down m !! id = m !! id.
Proof. intros Hin. rewrite en_reset_all_lookup, Hin. now destruct (m !! id). Qed.

Lemma en_reset_then_validate (down : list string) (w : page) :
  has_selects EstimatorEnSpec.ids w ->
  (resetSelects down ;;; EstimatorEn.validateForm) w = (Ok tt, after_reset down w).
Proof.
  intros H. rewrite (bind_ok _ _ _ _ _ (en_resetSelects_run down w)).
  rewrite estimatorEn_validateForm_run; [reflexivity|].
  intros id Hid. cbn [selects with_selects]. apply en_reset_all_is_Some. now apply H.
Qed.

Lemma en_listener_body_success server target url text down logged shown names (w : page) :
  has_selects EstimatorEnSpec.ids w -> In target EstimatorEnSpec.ids ->
  server url = Decoded names ->
  listener_body server target url text down logged shown w
  = (Ok tt, after_success target url text names down w).
Proof.
  intros H Ht Hs. unfold listener_body. destruct (H target Ht) as [s Hlook].
  apply try_ok.
  rewrite (bind_ok _ _ _ _ _ (en_showLoading_run target w s Hlook)).
  unfold fetch_json at 1. rewrite Hs.
  unfold bind at 1. unfold bind at 1. unfold emit at 1. unfold ret at 1.
  erewrite bind_ok; cycle 1.
  { eapply write_run. cbn [selects with_selects with_log]. apply lookup_insert_eq. }
  erewrite bind_ok; cycle 1.
  { eapply forEach_add_run. cbn [selects with_selects with_log]. apply lookup_insert_eq. }
  erewrite bind_ok; cycle 1.
  { eapply write_run. cbn [selects with_selects with_log]. apply lookup_insert_eq. }
  cbn [selects with_selects with_log]. rewrite populated_add_all.
  cbn [disabled reset_select set_disabled innerHTML value].
  rewrite !insert_insert_eq.
  erewrite bind_ok; cycle 1.
  { apply en_resetSelects_run. }
  rewrite estimatorEn_validateForm_run; [reflexivity|].
  intros id Hid. cbn [selects with_selects with_log]. apply en_reset_all_is_Some.
  apply lookup_insert_is_Some'. right. now apply H.
Qed.

Lemma en_listener_body_failure server target url text down logged shown (w : page) :
  is_Some (selects w !! target) -> server url = Rejected ->
  listener_body server target url text down logged shown w
  = (Ok tt, after_failure target url logged shown w).
Proof.
  intros [s Hlook] Hs. unfold listener_body.
  erewrite try_throw; cycle 1.
  { rewrite (bind_ok _ _ _ _ _ (en_showLoading_run target w s Hlook)).
    apply bind_throw. unfold fetch_json. rewrite Hs.
    unfold bind, emit, throw. reflexivity. }
  unfold bind, console_error, emit. rewrite estimatorEn_showError_run.
  unfold after_failure, notification.
  cbn [selects with_selects with_log log swal inputs submitBtn].
  rewrite <- !app_assoc. reflexivity.
Qed.

Lemma en_listener_body_cases server tgt url text down logged shown (w : page) :
  has_selects EstimatorEnSpec.ids w -> In tgt EstimatorEnSpec.ids ->
  listener_body server tgt url text down logged shown w
  = (Ok tt, match server url with
            | Decoded names => after_success tgt url text names down w
            | Rejected => after_failure tgt url logged shown w
            end).
Proof.
  intros H Ht. destruct (server url) as [|names] eqn:Hs.
  - apply en_listener_body_failure; [now apply H|exact Hs].
  - now apply en_listener_body_success.
Qed.

(** What the listener of a level does, case by case. *)
Lemma en_on_change_cases urls server (l : level) (w : page) :
  has_selects EstimatorEnSpec.ids w -> has_listener l ->
  on_change urls server l w
  = (Ok tt,
     if fetches l w then
       match server (EstimatorSpec.request_url urls l w) with
       | Decoded names =>
           after_success (EstimatorSpec.target l) (EstimatorSpec.request_url urls l w)
             (populated_placeholder l) names (EstimatorSpec.reset_after_populating l) w
       | Rejected =>
           after_failure (EstimatorSpec.target l) (EstimatorSpec.request_url urls l w)
             (EstimatorSpec.logged_message l) (shown_message l) w
       end
     else after_reset (EstimatorSpec.reset_without_fetch l) w).
Proof.
  intros H Hl.
  assert (Hb := read_value "brandSelect" w (H "brandSelect"%string ltac:(cbn; tauto))).
  assert (Hm := read_value "modelSelect" w (H "modelSelect"%string ltac:(cbn; tauto))).
  assert (Hv := read_value "variantSelect" w (H "variantSelect"%string ltac:(cbn; tauto))).
  destruct Hl as [->|[->| ->]];
    cbn [on_change fetches EstimatorSpec.tested forallb Estimator.select_id];
    rewrite ?andb_true_r.
  - unfold brandSelect_change. rewrite (bind_ok _ _ _ _ _ Hb).
    destruct (JsString.truthy (value_at "brandSelect" w)).
    + apply (en_listener_body_cases server "modelSelect"); [exact H|cbn; tauto].
    + now apply en_reset_then_validate.
  - unfold modelSelect_change. rewrite (bind_ok _ _ _ _ _ Hb), (bind_ok _ _ _ _ _ Hm).
    destruct (JsString.truthy (value_at "brandSelect" w) &&
              JsString.truthy (value_at "modelSelect" w)).
    + apply (en_listener_body_cases server "variantSelect"); [exact H|cbn; tauto].
    + now apply en_reset_then_validate.
  - unfold variantSelect_change.
    rewrite (bind_ok _ _ _ _ _ Hb), (bind_ok _ _ _ _ _ Hm), (bind_ok _ _ _ _ _ Hv).
    rewrite andb_assoc.
    destruct (JsString.truthy (value_at "brandSelect" w) &&
              JsString.truthy (value_at "modelSelect" w) &&
              JsString.truthy (value_at "variantSelect" w)).
    + exact (en_listener_body_cases server "yearSelect"
        (EstimatorSpec.request_url urls Variant w) "Select Year" [] "Error loading years:"
        "Failed to load year. Please try again." w H ltac:(cbn; tauto)).
    + now apply en_reset_then_validate.
Qed.

(** X14. In the English script the listener of the brand, model or variant
    select never throws and leaves the select of a level [m] as follows.  A
    level at or above the changed one is untouched.  When one of the values
    the listener tests is empty, no request is made and every level below
    is disabled and shows its English placeholder.  When the request is
    answered, the next level is enabled and lists [Select ...] and the
    names, and every level after it is reset.  When the request is
    rejected, the next level is left disabled showing [Loading...], the
    levels after it are untouched, and the error is logged and shown. *)
Theorem english_listener_effect urls server (n m : level) (w : page)
    (Hw : has_selects EstimatorEnSpec.ids w) (Hn : has_listener n) (Hm : m <> Category) :
  let url := EstimatorSpec.request_url urls n w in
  let w' := final (on_change urls server n) w in
  returned (on_change urls server n) w = Ok tt /\
  selects w' !! Estimator.select_id m
  = (if (level_index n <? level_index m)%nat then
       if fetches n w then
         match server url with
         | Decoded names =>
             if (level_index m =? S (level_index n))%nat
             then Some (populated_select (populated_placeholder n) names)
             else Some (reset_select (getPlaceholderText (Estimator.select_id m)))
         | Rejected =>
             if (level_index m =? S (level_index n))%nat
             then Some (reset_select "Loading...")
             else selects w !! Estimator.select_id m
         end
       else Some (reset_select (getPlaceholderText (Estimator.select_id m)))
     else selects w !! Estimator.select_id m) /\
  log w'
  = (log w ++ (if fetches n w then
                 match server url with
                 | Decoded _ => [EvFetch url]
                 | Rejected => [EvFetch url; EvConsoleError (EstimatorSpec.logged_message n);
                                notification (shown_message n) w]
                 end
               else []))%list.
Proof.
  cbv zeta. unfold final, returned. rewrite (en_on_change_cases urls server n w Hw Hn).
  cbn [fst snd]. split; [reflexivity|].
  assert (Hsel : is_Some (selects w !! Estimator.select_id m)).
  { apply Hw. destruct m; cbn; tauto. }
  destruct (fetches n w);
    [destruct (server (EstimatorSpec.request_url urls n w)) as [|names]|].
  - cbn [after_failure selects with_selects with_log log]. split; [|reflexivity].
    destruct Hn as [->|[->| ->]]; destruct m; try congruence;
      cbn [level_index Nat.ltb Nat.leb Nat.eqb EstimatorSpec.target next Estimator.select_id];
      try (rewrite lookup_insert_ne by discriminate; reflexivity);
      try (rewrite lookup_insert_eq; reflexivity).
  - cbn [after_success selects with_selects with_log with_submitBtn log]. split; [|reflexivity].
    destruct Hn as [->|[->| ->]]; destruct m; try congruence;
      cbn [level_index Nat.ltb Nat.leb Nat.eqb EstimatorSpec.target next Estimator.select_id];
      try (rewrite en_lookup_kept by reflexivity; rewrite lookup_insert_ne by discriminate;
           reflexivity);
      try (rewrite en_lookup_kept by reflexivity; rewrite lookup_insert_eq; reflexivity);
      try (apply en_lookup_reset; [apply lookup_insert_is_Some'; right; exact Hsel|reflexivity]).
  - cbn [after_reset selects with_selects with_submitBtn log]. split; [|now rewrite app_nil_r].
    destruct Hn as [->|[->| ->]]; destruct m; try congruence;
      cbn [level_index Nat.ltb Nat.leb Estimator.select_id];
      try (rewrite en_lookup_kept by reflexivity; reflexivity);
      try (apply en_lookup_reset; [exact Hsel|reflexivity]).
Qed.

Lemma english_listener_effect_witness :
  let w := EstimatorEnSpec.example_page "Toyota" "Rush" "G" "2020" [] in
  selects (final (on_change EstimatorSpec.example_urls (fun _ => Decoded ["Rush"; "Vios"]) Brand) w)
    !! "variantSelect"
  = Some (reset_select "Select Variant").
Proof.
  cbv zeta.
  destruct (english_listener_effect EstimatorSpec.example_urls (fun _ => Decoded ["Rush"; "Vios"])
              Brand Variant (EstimatorEnSpec.example_page "Toyota" "Rush" "G" "2020" [])
              (example_page_en_has_selects "Toyota" "Rush" "G" "2020" [])
              (or_introl eq_refl) ltac:(discriminate)) as (_ & Hsel & _).
  exact Hsel.
Defined.

End EnglishCascadeFacts.

Section AssessmentCascadeFacts.
Import Dom FormSpec Assessment AssessmentSpec AssessmentCascadeSpec.
Local Open Scope js_scope.

Lemma selected_value_plain (text : string) (names : list string) :
  selected_value (plain_placeholder text :: map item_option names) = ""%string.
Proof.
  unfold selected_value. cbn [List.filter plain_placeholder opt_selected opt_disabled negb].
  now rewrite filter_selected_items.
Qed.

Lemma plain_add_all (text : string) (names : list string) (s : select) :
  add_all names (set_innerHTML [plain_placeholder text] s)
  = Select (plain_placeholder text :: map item_option names) (disabled s) "".
Proof.
  unfold set_innerHTML. change (selected_value [plain_placeholder text]) with ""%string.
  change [plain_placeholder text] with (plain_placeholder text :: map item_option []).
  rewrite add_all_after by apply selected_value_plain. reflexivity.
Qed.

(** The three statements that fill a select of the assessment form. *)
Lemma assessment_fill_run (tgt text : string) (names : list string) (w : page) :
  is_Some (selects w !! tgt) ->
  (write tgt (set_innerHTML [plain_placeholder text]) ;;;
   forEach names (fun n => write tgt (add_innerHTML (item_option n))) ;;;
   write tgt (set_disabled false)) w
  = (Ok tt, with_selects (<[tgt := populated_select text names]> (selects w)) w).
Proof.
  intros [s Hs].
  rewrite (bind_ok _ _ _ _ _ (write_run tgt _ w s Hs)).
  erewrite bind_ok; cycle 1.
  { eapply forEach_add_run. cbn [selects with_selects]. apply lookup_insert_eq. }
  erewrite write_run; cycle 1.
  { cbn [selects with_selects]. apply lookup_insert_eq. }
  cbn [selects with_selects]. rewrite plain_add_all.
  cbn [set_disabled innerHTML value]. rewrite !insert_insert_eq. reflexivity.
Qed.

Lemma assessment_try_success server url tgt text down names msg (w : page) :
  has_selects ids w -> In tgt ids -> (forall i, In i down -> In i ids) ->
  server url = Decoded names ->
  try_catch
    (let* xs := fetch_json server url in
     write tgt (set_innerHTML [plain_placeholder text]) ;;;
     forEach xs (fun n => write tgt (add_innerHTML (item_option n))) ;;;
     write tgt (set_disabled false) ;;;
     resetSelects down)
    (fun _ => console_error msg) w
  = (Ok tt, with_selects (reset_all down (<[tgt := populated_select text names]> (selects w)))
              (with_log (log w ++ [EvFetch url]) w)).
Proof.
  intros Hw Ht Hd Hs. apply try_ok.
  unfold fetch_json at 1. rewrite Hs.
  unfold bind at 1. unfold bind at 1. unfold emit at 1. unfold ret at 1.
  pose (w1 := with_log (log w ++ [EvFetch url]) w).
  assert (Hfill := assessment_fill_run tgt text names w1 (Hw tgt Ht)).
  fold w1.
  change ((write tgt (set_innerHTML [plain_placeholder text]) ;;;
           forEach names (fun n => write tgt (add_innerHTML (item_option n))) ;;;
           write tgt (set_disabled false) ;;; resetSelects down) w1)
    with (bind (write tgt (set_innerHTML [plain_placeholder text]))
            (fun _ => bind (forEach names (fun n => write tgt (add_innerHTML (item_option n))))
               (fun _ => bind (write tgt (set_disabled false)) (fun _ => resetSelects down))) w1).
  revert Hfill. unfold bind.
  destruct (write tgt (set_innerHTML [plain_placeholder text]) w1) as [[[]|e] w2];
    [|discriminate].
  destruct (forEach names (fun n => write tgt (add_innerHTML (item_option n))) w2)
    as [[[]|e] w3]; [|discriminate].
  destruct (write tgt (set_disabled false) w3) as [[[]|e] w4]; [|discriminate].
  intros [= ->]. rewrite assessment_resetSelects_run; [reflexivity|].
  intros i Hi. cbn [selects with_selects]. apply lookup_insert_is_Some'. right.
  apply Hw, Hd, Hi.
Qed.

Lemma assessment_variant_success server url names msg (w : page) :
  has_selects ids w -> server url = Decoded names ->
  try_catch
    (let* xs := fetch_json server url in
     write "year" (set_innerHTML [plain_placeholder "Pilih Tahun"]) ;;;
     forEach xs (fun n => write "year" (add_innerHTML (item_option n))) ;;;
     write "year" (set_disabled false))
    (fun _ => console_error msg) w
  = (Ok tt, with_selects (<["year" := populated_select "Pilih Tahun" names]> (selects w))
              (with_log (log w ++ [EvFetch url]) w)).
Proof.
  intros Hw Hs. apply try_ok.
  unfold fetch_json at 1. rewrite Hs.
  unfold bind at 1. unfold bind at 1. unfold emit at 1. unfold ret at 1.
  apply (assessment_fill_run "year" "Pilih Tahun" names (with_log (log w ++ [EvFetch url]) w)).
  apply Hw. cbn. tauto.
Qed.

Lemma assessment_on_change_cases server (n : level) (w : page) :
  has_selects ids w -> n <> Year ->
  on_change server n w = (Ok tt, after_change server n w).
Proof.
  intros Hw Hn. unfold after_change.
  destruct (fetches n w) eqn:Hf; [destruct (server (request_url n w)) as [|names] eqn:Hs|].
  - now apply assessment_failure.
  - assert (Hc := read_value "category" w (Hw "category"%string ltac:(cbn; tauto))).
    assert (Hb := read_value "brand" w (Hw "brand"%string ltac:(cbn; tauto))).
    assert (Hm := read_value "model" w (Hw "model"%string ltac:(cbn; tauto))).
    assert (Hv := read_value "variant" w (Hw "variant"%string ltac:(cbn; tauto))).
    destruct n; [| | | |congruence];
      cbn [fetches EstimatorSpec.tested forallb select_id] in Hf;
      rewrite ?andb_true_r in Hf; cbn [on_change next select_id populated_placeholder].
    + unfold category_change. rewrite (bind_ok _ _ _ _ _ Hc), Hf.
      apply assessment_try_success; [exact Hw|cbn; tauto|cbn; tauto|exact Hs].
    + unfold brand_change. rewrite (bind_ok _ _ _ _ _ Hb), Hf.
      apply assessment_try_success; [exact Hw|cbn; tauto|cbn; tauto|exact Hs].
    + unfold model_change. rewrite (bind_ok _ _ _ _ _ Hb), (bind_ok _ _ _ _ _ Hm), Hf.
      apply assessment_try_success; [exact Hw|cbn; tauto|cbn; tauto|exact Hs].
    + unfold variant_change.
      rewrite (bind_ok _ _ _ _ _ Hb), (bind_ok _ _ _ _ _ Hm), (bind_ok _ _ _ _ _ Hv).
      rewrite andb_assoc in Hf. rewrite Hf. cbn [reset_all fold_left].
      now apply assessment_variant_success.
  - assert (Hc := read_value "category" w (Hw "category"%string ltac:(cbn; tauto))).
    assert (Hb := read_value "brand" w (Hw "brand"%string ltac:(cbn; tauto))).
    assert (Hm := read_value "model" w (Hw "model"%string ltac:(cbn; tauto))).
    assert (Hv := read_value "variant" w (Hw "variant"%string ltac:(cbn; tauto))).
    destruct n; [| | | |congruence];
      cbn [fetches EstimatorSpec.tested forallb select_id] in Hf;
      rewrite ?andb_true_r in Hf; cbn [on_change].
    + unfold category_change. rewrite (bind_ok _ _ _ _ _ Hc), Hf.
      destruct (Hw "brand"%string ltac:(cbn; tauto)) as [sb Hsb].
      rewrite (bind_ok _ _ _ _ _ (write_run "brand" _ w sb Hsb)).
      rewrite assessment_resetSelects_run.
      * cbn [selects with_selects reset_all fold_left]. rewrite insert_insert_eq.
        destruct w; reflexivity.
      * intros i Hi. cbn [selects with_selects]. apply lookup_insert_is_Some'. right.
        apply Hw. cbn in Hi |- *. tauto.
    + unfold brand_change. rewrite (bind_ok _ _ _ _ _ Hb), Hf.
      apply assessment_resetSelects_run. intros i Hi. apply Hw. cbn in Hi |- *. tauto.
    + unfold model_change. rewrite (bind_ok _ _ _ _ _ Hb), (bind_ok _ _ _ _ _ Hm), Hf.
      apply assessment_resetSelects_run. intros i Hi. apply Hw. cbn in Hi |- *. tauto.
    + unfold variant_change.
      rewrite (bind_ok _ _ _ _ _ Hb), (bind_ok _ _ _ _ _ Hm), (bind_ok _ _ _ _ _ Hv).
      rewrite andb_assoc in Hf. rewrite Hf.
      apply assessment_resetSelects_run. intros i Hi. apply Hw. cbn in Hi |- *. tauto.
Qed.

(** X15. In [car-assessment.js] the listener of a level that has one never
    throws when the five selects are on the page, and leaves the select of
    a level [m] as follows.  A level at or above the changed one is
    untouched.  When a value the listener tests is empty, no request is
    made and every level below is disabled and shows [Pilih] followed by
    its capitalised id.  When the request is answered, the next level is
    enabled and lists its placeholder and the names, and every level after
    it is reset.  When the request is rejected, no select changes and the
    only trace is the request and a line on the console. *)
Theorem assessment_listener_effect server (n m : level) (w : page)
    (Hw : has_selects ids w) (Hn : n <> Year) :
  let url := request_url n w in
  let w' := final (on_change server n) w in
  returned (on_change server n) w = Ok tt /\
  selects w' !! select_id m
  = (if (level_index n <? level_index m)%nat then
       if fetches n w then
         match server url with
         | Decoded names =>
             if (level_index m =? S (level_index n))%nat
             then Some (populated_select (populated_placeholder n) names)
             else Some (reset_select_of (select_id m))
         | Rejected => selects w !! select_id m
         end
       else Some (reset_select_of (select_id m))
     else selects w !! select_id m) /\
  log w'
  = (log w ++ (if fetches n w then
                 match server url with
                 | Decoded _ => [EvFetch url]
                 | Rejected => [EvFetch url; EvConsoleError (logged_message n)]
                 end
               else []))%list /\
  inputs w' = inputs w /\ submitBtn w' = submitBtn w.
Proof.
  cbv zeta. unfold final, returned. rewrite (assessment_on_change_cases server n w Hw Hn).
  cbn [fst snd]. split; [reflexivity|]. unfold after_change.
  destruct (fetches n w);
    [destruct (server (request_url n w)) as [|names]|].
  - cbn [selects with_log log inputs submitBtn]. repeat split.
    destruct (level_index n <? level_index m)%nat; reflexivity.
  - cbn [selects with_selects with_log log inputs submitBtn]. repeat split.
    rewrite assessment_reset_all_lookup.
    destruct n, m; try congruence;
      cbn [level_index Nat.ltb Nat.leb Nat.eqb next select_id existsb String.eqb Ascii.eqb
           Bool.eqb orb andb populated_placeholder];
      try (rewrite lookup_insert_ne by discriminate; reflexivity);
      try (rewrite lookup_insert_eq; reflexivity); reflexivity.
  - cbn [selects with_selects log inputs submitBtn]. rewrite app_nil_r. repeat split.
    rewrite assessment_reset_all_lookup.
    destruct n, m; try congruence;
      cbn [level_index Nat.ltb Nat.leb select_id existsb String.eqb Ascii.eqb Bool.eqb
           orb andb]; reflexivity.
Qed.

Lemma assessment_listener_effect_witness :
  let w := example_page "SUV" "Toyota" "Rush" "G" "2020" in
  selects (final (on_change (fun _ => Decoded ["Honda"; "Toyota"]) Category) w) !! "brand"
  = Some (populated_select "Pilih Brand" ["Honda"; "Toyota"]).
Proof.
  cbv zeta.
  destruct (assessment_listener_effect (fun _ => Decoded ["Honda"; "Toyota"]) Category Brand
              (example_page "SUV" "Toyota" "Rush" "G" "2020")
              (assessment_page_has_selects "SUV" "Toyota" "Rush" "G" "2020")
              ltac:(discriminate)) as (_ & Hsel & _).
  exact Hsel.
Defined.

End AssessmentCascadeFacts.

Section PageLoad.
Import Dom FormSpec.
Local Open Scope js_scope.

(** A select filled on page load: the placeholder and the names. *)
Lemma fill_run (id : string) (ph : option_el) (names : list string) (w : page) (s : select) :
  (forall l, selected_value (ph :: map item_option l) = ""%string) ->
  selects w !! id = Some s ->
  (write id (set_innerHTML [ph]) ;;;
   forEach names (fun n => write id (add_innerHTML (item_option n)))) w
  = (Ok tt, with_selects (<[id := Select (ph :: map item_option names) (disabled s) ""]>
                            (selects w)) w).
Proof.
  intros Hph Hs.
  rewrite (bind_ok _ _ _ _ _ (write_run id _ w s Hs)).
  erewrite forEach_add_run; cycle 1.
  { cbn [selects with_selects]. apply lookup_insert_eq. }
  cbn [selects with_selects]. rewrite insert_insert_eq.
  unfold set_innerHTML. pose proof (Hph []) as H0. cbn [map] in H0. rewrite H0.
  change [ph] with (ph :: map item_option []).
  rewrite add_all_after by exact Hph. reflexivity.
Qed.

Lemma fill_missing (id : string) (ph : option_el) (k : M unit) (w : page) :
  selects w !! id = None ->
  (write id (set_innerHTML [ph]) ;;; k) w = (Throw TypeError, w).
Proof. intros Hs. unfold bind, write. now rewrite Hs. Qed.

(** X16. The three functions that fill the first select on page load
    never throw.  When the request is answered and the select is on the
    page, the select lists its placeholder and then the names, with an empty
    value; [loadCategories] of both scripts leaves its [disabled] flag as
    it was, [loadBrands] of the English script clears it; the only trace is
    the request.  When the request is answered but the select is not on the
    page, the two estimator scripts report a failed load to the user, and
    [car-assessment.js] logs it to the console, as for a rejected
    request. *)
Theorem page_load_fills_first_select :
  (forall urls server (w : page) names,
     server (Estimator.categories urls) = Decoded names ->
     Estimator.loadCategories urls server w
     = (Ok tt,
        match selects w !! "categorySelect" with
        | Some s =>
            with_selects
              (<["categorySelect" :=
                   Select (placeholder_option "Pilih Category" :: map item_option names)
                     (disabled s) ""]> (selects w))
              (with_log (log w ++ [EvFetch (Estimator.categories urls)]) w)
        | None =>
            with_log (log w ++ [ EvFetch (Estimator.categories urls);
                                 EvConsoleError "Error loading categories:";
                                 notification "Gagal memuat kategori. Silakan refresh halaman." w ])
              w
        end)) /\
  (forall urls server (w : page),
     EstimatorEnCascade.loadBrands urls server w
     = (Ok tt,
        match server (Estimator.brands urls), selects w !! "brandSelect" with
        | Decoded names, Some s =>
            with_selects
              (<["brandSelect" := populated_select "Select Brand" names]> (selects w))
              (with_log (log w ++ [EvFetch (Estimator.brands urls)]) w)
        | _, _ =>
            with_log (log w ++ [ EvFetch (Estimator.brands urls);
                                 EvConsoleError "Error loading brands:";
                                 notification "Failed to load brand. Please refresh the page." w ])
              w
        end)) /\
  (forall server (w : page) names,
     server "/api/categories/"%string = Decoded names ->
     Assessment.loadCategories server w
     = (Ok tt,
        match selects w !! "category" with
        | Some s =>
            with_selects
              (<["category" :=
                   Select (plain_placeholder "Pilih Kategori" :: map item_option names)
                     (disabled s) ""]> (selects w))
              (with_log (log w ++ [EvFetch "/api/categories/"]) w)
        | None =>
            with_log (log w ++ [ EvFetch "/api/categories/";
                                 EvConsoleError "Error loading categories:" ]) w
        end)).
Proof.
  split; [|split].
  - intros urls server w names Hs. unfold Estimator.loadCategories.
    destruct (selects w !! "categorySelect") as [s|] eqn:Hsel.
    + apply try_ok. unfold Estimator.fetch_json at 1. rewrite Hs.
      unfold bind at 1. unfold bind at 1. unfold emit at 1. unfold ret at 1.
      apply (fill_run "categorySelect" (placeholder_option "Pilih Category") names
               (with_log (log w ++ [EvFetch (Estimator.categories urls)]) w) s);
        [apply selected_value_placeholder|exact Hsel].
    + erewrite try_throw; cycle 1.
      { unfold Estimator.fetch_json at 1. rewrite Hs.
        unfold bind at 1. unfold bind at 1. unfold emit at 1. unfold ret at 1.
        apply fill_missing. exact Hsel. }
      unfold bind, console_error, emit. rewrite showError_run.
      unfold notification. cbn [selects with_selects with_log log swal inputs submitBtn].
      rewrite <- !app_assoc. reflexivity.
  - intros urls server w. unfold EstimatorEnCascade.loadBrands.
    assert (Hfail : forall w1, log w1 = (log w ++ [EvFetch (Estimator.brands urls)])%list ->
              w1 = with_log (log w1) w ->
              (console_error "Error loading brands:" ;;;
               EstimatorEn.showError "Failed to load brand. Please refresh the page.") w1
              = (Ok tt, with_log (log w ++ [ EvFetch (Estimator.brands urls);
                                             EvConsoleError "Error loading brands:";
                                             notification
                                               "Failed to load brand. Please refresh the page." w ])
                          w)).
    { intros w1 Hlog Hw1. unfold bind, console_error, emit.
      rewrite estimatorEn_showError_run. rewrite Hw1, Hlog.
      unfold notification. cbn [selects with_selects with_log log swal inputs submitBtn].
      rewrite <- !app_assoc. reflexivity. }
    destruct (server (Estimator.brands urls)) as [|names] eqn:Hs.
    + erewrite try_throw; cycle 1.
      { apply bind_throw. unfold EstimatorEnCascade.fetch_json. rewrite Hs.
        unfold bind, emit, throw. reflexivity. }
      apply Hfail; reflexivity.
    + destruct (selects w !! "brandSelect") as [s|] eqn:Hsel.
      * apply try_ok. unfold EstimatorEnCascade.fetch_json at 1. rewrite Hs.
        unfold bind at 1. unfold bind at 1. unfold emit at 1. unfold ret at 1.
        pose (w1 := with_log (log w ++ [EvFetch (Estimator.brands urls)]) w).
        assert (Hfill := fill_run "brandSelect" (placeholder_option "Select Brand") names w1 s
                           (selected_value_placeholder "Select Brand") Hsel).
        fold w1.
        change ((write "brandSelect" (set_innerHTML [placeholder_option "Select Brand"]) ;;;
                 forEach names (fun brand => write "brandSelect" (add_innerHTML (item_option brand))) ;;;
                 write "brandSelect" (set_disabled false)) w1)
          with (bind (write "brandSelect" (set_innerHTML [placeholder_option "Select Brand"]))
                  (fun _ => bind (forEach names
                                    (fun brand => write "brandSelect" (add_innerHTML (item_option brand))))
                              (fun _ => write "brandSelect" (set_disabled false))) w1).
        revert Hfill. unfold bind.
        destruct (write "brandSelect" (set_innerHTML [placeholder_option "Select Brand"]) w1)
          as [[[]|e] w2]; [|discriminate].
        destruct (forEach names _ w2) as [[[]|e] w3]; [|discriminate].
        intros [= ->]. erewrite write_run; cycle 1.
        { cbn [selects with_selects]. apply lookup_insert_eq. }
        cbn [selects with_selects set_disabled innerHTML value].
        rewrite insert_insert_eq. reflexivity.
      * erewrite try_throw; cycle 1.
        { unfold EstimatorEnCascade.fetch_json at 1. rewrite Hs.
          unfold bind at 1. unfold bind at 1. unfold emit at 1. unfold ret at 1.
          apply fill_missing. exact Hsel. }
        apply Hfail; reflexivity.
  - intros server w names Hs. unfold Assessment.loadCategories.
    destruct (selects w !! "category") as [s|] eqn:Hsel.
    + apply try_ok. unfold Assessment.fetch_json at 1. rewrite Hs.
      unfold bind at 1. unfold bind at 1. unfold emit at 1. unfold ret at 1.
      apply (fill_run "category" (plain_placeholder "Pilih Kategori") names
               (with_log (log w ++ [EvFetch "/api/categories/"]) w) s);
        [apply selected_value_plain|exact Hsel].
    + erewrite try_throw; cycle 1.
      { unfold Assessment.fetch_json at 1. rewrite Hs.
        unfold bind at 1. unfold bind at 1. unfold emit at 1. unfold ret at 1.
        apply fill_missing. exact Hsel. }
      unfold console_error, emit. cbn [log with_log]. rewrite <- app_assoc. reflexivity.
Qed.

End PageLoad.

Section RequestUrls.
Import Dom FormSpec CascadeSpec.

Lemma fetched_urls_app (l r : list event) :
  fetched_urls (l ++ r) = (fetched_urls l ++ fetched_urls r)%list.
Proof.
  induction l as [|e l IH]; [reflexivity|].
  destruct e; cbn [app fetched_urls]; rewrite IH; reflexivity.
Qed.

Lemma nat_of_hex_digit (n : nat) :
  (n < 16)%nat -> nat_of_ascii (hex_digit n) = if (n <? 10)%nat then (48 + n)%nat else (55 + n)%nat.
Proof.
  intros Hn. unfold hex_digit. apply nat_ascii_embedding.
  destruct (Nat.ltb_spec n 10); lia.
Qed.

Lemma hex_digit_inj (a b : nat) :
  (a < 16)%nat -> (b < 16)%nat -> hex_digit a = hex_digit b -> a = b.
Proof.
  intros Ha Hb H. apply (f_equal nat_of_ascii) in H.
  rewrite !nat_of_hex_digit in H by assumption.
  destruct (Nat.ltb_spec a 10), (Nat.ltb_spec b 10); lia.
Qed.

Lemma hex_digit_unreserved (n : nat) : (n < 16)%nat -> unreserved (hex_digit n) = true.
Proof.
  intros Hn. do 16 (destruct n as [|n]; [reflexivity|]). lia.
Qed.

Lemma nat_of_ascii_bound (c : ascii) : (nat_of_ascii c < 256)%nat.
Proof. apply nat_ascii_bounded. Qed.

(** A character [encodeURIComponent] may put out. *)
Lemma encodeURIComponent_chars (s : string) (c : ascii) :
  In c (list_ascii_of_string (encodeURIComponent s)) -> unreserved c = true \/ c = "%"%char.
Proof.
  induction s as [|a s IH]; cbn [encodeURIComponent list_ascii_of_string]; [intros []|].
  pose proof (nat_of_ascii_bound a) as Hb.
  destruct (unreserved a) eqn:Ha; cbn [list_ascii_of_string In].
  - intros [<-|H]; [now left|now apply IH].
  - intros [<-|[<-|[<-|H]]]; [now right| | |now apply IH]; left; apply hex_digit_unreserved.
    + apply Nat.Div0.div_lt_upper_bound. lia.
    + apply Nat.mod_upper_bound. lia.
Qed.

Lemma encodeURIComponent_inj (s t : string) :
  encodeURIComponent s = encodeURIComponent t -> s = t.
Proof.
  revert t. induction s as [|a s IH]; intros [|b t]; cbn [encodeURIComponent].
  - reflexivity.
  - destruct (unreserved b); discriminate.
  - destruct (unreserved a); discriminate.
  - pose proof (nat_of_ascii_bound a) as Ha. pose proof (nat_of_ascii_bound b) as Hb.
    pose proof (Nat.div_mod_eq (nat_of_ascii a) 16) as Ea.
    pose proof (Nat.div_mod_eq (nat_of_ascii b) 16) as Eb.
    assert (Hqa : (nat_of_ascii a / 16 < 16)%nat) by (apply Nat.Div0.div_lt_upper_bound; lia).
    assert (Hqb : (nat_of_ascii b / 16 < 16)%nat) by (apply Nat.Div0.div_lt_upper_bound; lia).
    assert (Hra : (nat_of_ascii a mod 16 < 16)%nat) by (apply Nat.mod_upper_bound; lia).
    assert (Hrb : (nat_of_ascii b mod 16 < 16)%nat) by (apply Nat.mod_upper_bound; lia).
    set (qa := (nat_of_ascii a / 16)%nat) in *. set (ra := (nat_of_ascii a mod 16)%nat) in *.
    set (qb := (nat_of_ascii b / 16)%nat) in *. set (rb := (nat_of_ascii b mod 16)%nat) in *.
    clearbody qa ra qb rb.
    destruct (unreserved a) eqn:Ua, (unreserved b) eqn:Ub.
    + intros [= -> H]. f_equal. now apply IH.
    + intros [= -> _]. discriminate Ua.
    + intros [= <- _]. discriminate Ub.
    + intros [= H1 H2 H]. f_equal; [|now apply IH].
      apply hex_digit_inj in H1; [|assumption|assumption].
      apply hex_digit_inj in H2; [|assumption|assumption].
      rewrite <- (ascii_nat_embedding a), <- (ascii_nat_embedding b). f_equal. lia.
Qed.

Lemma append_inj_l (p s t : string) : (p ++ s = p ++ t)%string -> s = t.
Proof. induction p as [|c p IH]; cbn; [tauto|]. intros [= H]. now apply IH. Qed.

(** An encoded value ends where the next [&] stands. *)
Lemma encoded_then_amp (s t r r' : string) :
  (encodeURIComponent s ++ String "&" r = encodeURIComponent t ++ String "&" r')%string ->
  s = t /\ r = r'.
Proof.
  intros H.
  assert (Hgen : forall x y : string,
            (forall c, In c (list_ascii_of_string x) -> c <> "&"%char) ->
            (forall c, In c (list_ascii_of_string y) -> c <> "&"%char) ->
            (x ++ String "&" r = y ++ String "&" r')%string -> x = y /\ r = r').
  { induction x as [|a x IHx]; intros [|b y] Hx Hy; cbn [String.append list_ascii_of_string].
    - intros [= ->]. tauto.
    - intros [= <- _]. exfalso. apply (Hy "&"%char); [now left|reflexivity].
    - intros [= -> _]. exfalso. apply (Hx "&"%char); [now left|reflexivity].
    - intros [= -> E]. destruct (IHx y) as [-> ->]; [| |exact E|tauto].
      + intros c Hc. apply Hx. now right.
      + intros c Hc. apply Hy. now right. }
  destruct (Hgen (encodeURIComponent s) (encodeURIComponent t)) as [E ->]; [| |exact H|].
  - intros c Hc ->. apply encodeURIComponent_chars in Hc as [Hc|Hc]; discriminate.
  - intros c Hc ->. apply encodeURIComponent_chars in Hc as [Hc|Hc]; discriminate.
  - split; [now apply encodeURIComponent_inj|reflexivity].
Qed.

(** The URL of a level determines the values it is built from. *)
Lemma request_url_inj urls (n : level) (w1 w2 : page) :
  n <> Year ->
  EstimatorSpec.request_url urls n w1 = EstimatorSpec.request_url urls n w2 ->
  same_selection Estimator.select_id n w1 w2.
Proof.
  intros Hn H l Hl. unfold EstimatorSpec.request_url in H.
  destruct n; [| | | |congruence]; cbn [EstimatorSpec.tested In] in Hl;
    apply append_inj_l in H; cbn [String.append] in H.
  - destruct Hl as [<-|[]]. injection H as H. now apply encodeURIComponent_inj.
  - destruct Hl as [<-|[]]. injection H as H. now apply encodeURIComponent_inj.
  - injection H as H. apply encoded_then_amp in H as [Hb H].
    injection H as H. apply encodeURIComponent_inj in H.
    destruct Hl as [<-|[<-|[]]]; assumption.
  - injection H as H. apply encoded_then_amp in H as [Hb H].
    injection H as H. apply encoded_then_amp in H as [Hm H].
    injection H as H. apply encodeURIComponent_inj in H.
    destruct Hl as [<-|[<-|[<-|[]]]]; assumption.
Qed.

Lemma fetched_urls_notification (message : string) (w : page) :
  fetched_urls [notification message w] = [].
Proof. unfold notification. now destruct (swal w). Qed.

Lemma no_request (l : list string) (url : string) : l = (l ++ [url])%list -> False.
Proof. intros H. apply (f_equal (@length string)) in H. rewrite length_app in H. cbn in H. lia. Qed.

Lemma one_request (l : list string) (u url : string) : (l ++ [u] = l ++ [url])%list -> url = u.
Proof. intros H. apply app_inv_head in H. congruence. Qed.

(** The requests of a listener, from the three pages it can leave. *)
Lemma requests_of_cases (w w' : page) (fetches : bool) (answer : outcome)
    (u logged shown url : string) (ok : list string -> page) (failed quiet : page) :
  w' = (if fetches then match answer with Decoded names => ok names | Rejected => failed end
        else quiet) ->
  (forall names, log (ok names) = (log w ++ [EvFetch u])%list) ->
  log failed = (log w ++ [EvFetch u; EvConsoleError logged; notification shown w])%list ->
  log quiet = log w ->
  fetched_urls (log w') = (fetched_urls (log w) ++ [url])%list ->
  url = u.
Proof.
  intros -> Hok Hfailed Hquiet.
  destruct fetches; [destruct answer|].
  - rewrite Hfailed.
    change [EvFetch u; EvConsoleError logged; notification shown w]
      with ([EvFetch u; EvConsoleError logged] ++ [notification shown w])%list.
    rewrite !fetched_urls_app, fetched_urls_notification, app_nil_r.
    apply one_request.
  - rewrite Hok, fetched_urls_app. apply one_request.
  - rewrite Hquiet. intros H. now apply no_request in H.
Qed.

Lemma estimator_requests_url urls server (n : level) (w : page) (url : string) :
  has_selects EstimatorSpec.ids w ->
  requests_url (Estimator.on_change urls server) n w url ->
  n <> Year /\ url = EstimatorSpec.request_url urls n w.
Proof.
  intros Hw. unfold requests_url, final.
  destruct (Nat.eq_dec (level_index n) 4%nat) as [Hy|Hy].
  - assert (n = Year) as -> by (destruct n; cbn in Hy; congruence).
    cbn [Estimator.on_change]. unfold Estimator.yearSelect_change.
    rewrite (validateForm_run w Hw). cbn [snd log with_submitBtn].
    intros H. now apply no_request in H.
  - assert (Hn : n <> Year) by (intros ->; apply Hy; reflexivity).
    rewrite (on_change_cases urls server n w Hw Hn). cbn [snd].
    intros H. split; [exact Hn|].
    eapply (requests_of_cases w _ _ _ _ _ _ _
              (fun names => _)); [reflexivity| | | |exact H]; reflexivity.
Qed.

Lemma english_requests_url urls server (n : level) (w : page) (url : string) :
  has_selects EstimatorEnSpec.ids w ->
  requests_url (EstimatorEnCascade.on_change urls server) n w url ->
  n <> Year /\ url = EstimatorSpec.request_url urls n w.
Proof.
  intros Hw. unfold requests_url, final.
  assert (Hcases : EstimatorEnCascadeSpec.has_listener n \/ n = Category \/ n = Year)
    by (unfold EstimatorEnCascadeSpec.has_listener; destruct n; tauto).
  destruct Hcases as [Hn|[->| ->]].
  - rewrite (en_on_change_cases urls server n w Hw Hn). cbn [snd].
    intros H. split; [destruct Hn as [->|[->| ->]]; discriminate|].
    eapply (requests_of_cases w _ _ _ _ _ _ _
              (fun names => _)); [reflexivity| | | |exact H]; reflexivity.
  - cbn. intros H. now apply no_request in H.
  - cbn [EstimatorEnCascade.on_change]. rewrite (estimatorEn_validateForm_run w Hw).
    cbn [snd log with_submitBtn]. intros H. now apply no_request in H.
Qed.

(** X17. The request of a listener names the selection without loss: when
    the listeners of one level of [car-price-estimator.js], run on two
    pages, each make one request and the two go to the same URL, the two
    pages hold the same values in the selects that URL is built from; so
    also in the English script.  [car-assessment.js] puts the values in the
    URL as they are, and there two pages that differ in brand and model can
    request the same URL. *)
Theorem same_request_same_selection :
  (forall urls server1 server2 (n : level) (w1 w2 : page) (url : string),
     has_selects EstimatorSpec.ids w1 -> has_selects EstimatorSpec.ids w2 ->
     requests_url (Estimator.on_change urls server1) n w1 url ->
     requests_url (Estimator.on_change urls server2) n w2 url ->
     same_selection Estimator.select_id n w1 w2) /\
  (forall urls server1 server2 (n : level) (w1 w2 : page) (url : string),
     has_selects EstimatorEnSpec.ids w1 -> has_selects EstimatorEnSpec.ids w2 ->
     requests_url (EstimatorEnCascade.on_change urls server1) n w1 url ->
     requests_url (EstimatorEnCascade.on_change urls server2) n w2 url ->
     same_selection Estimator.select_id n w1 w2) /\
  (exists (w1 w2 : page) (url : string),
     has_selects AssessmentSpec.ids w1 /\ has_selects AssessmentSpec.ids w2 /\
     (forall server, requests_url (Assessment.on_change server) Model w1 url) /\
     (forall server, requests_url (Assessment.on_change server) Model w2 url) /\
     value_at "brand" w1 <> value_at "brand" w2 /\
     value_at "model" w1 <> value_at "model" w2).
Proof.
  split; [|split].
  - intros urls server1 server2 n w1 w2 url Hw1 Hw2 H1 H2.
    apply estimator_requests_url in H1 as [Hn ->]; [|exact Hw1].
    apply estimator_requests_url in H2 as [_ H2]; [|exact Hw2].
    now apply (request_url_inj urls).
  - intros urls server1 server2 n w1 w2 url Hw1 Hw2 H1 H2.
    apply english_requests_url in H1 as [Hn ->]; [|exact Hw1].
    apply english_requests_url in H2 as [_ H2]; [|exact Hw2].
    now apply (request_url_inj urls).
  - exists (AssessmentSpec.example_page "SUV" "a&model=b" "c" "" ""),
           (AssessmentSpec.example_page "SUV" "a" "b&model=c" "" ""),
           "/api/variants/?brand=a&model=b&model=c"%string.
    split; [apply assessment_page_has_selects|].
    split; [apply assessment_page_has_selects|].
    split; [|split; [|split; [|vm_compute; discriminate]]].
    + intros server. unfold requests_url, final.
      rewrite assessment_on_change_cases;
        [|apply assessment_page_has_selects|discriminate].
      cbn [snd]. unfold AssessmentCascadeSpec.after_change.
      change (AssessmentSpec.fetches Model (AssessmentSpec.example_page "SUV" "a&model=b" "c" "" ""))
        with true.
      change (AssessmentSpec.request_url Model
                (AssessmentSpec.example_page "SUV" "a&model=b" "c" "" ""))
        with "/api/variants/?brand=a&model=b&model=c"%string.
      cbv iota. destruct (server _); reflexivity.
    + intros server. unfold requests_url, final.
      rewrite assessment_on_change_cases;
        [|apply assessment_page_has_selects|discriminate].
      cbn [snd]. unfold AssessmentCascadeSpec.after_change.
      change (AssessmentSpec.fetches Model (AssessmentSpec.example_page "SUV" "a" "b&model=c" "" ""))
        with true.
      change (AssessmentSpec.request_url Model
                (AssessmentSpec.example_page "SUV" "a" "b&model=c" "" ""))
        with "/api/variants/?brand=a&model=b&model=c"%string.
      cbv iota. destruct (server _); reflexivity.
    + vm_compute. discriminate.
Qed.

End RequestUrls.

Section TableCompositionClaims.
Import Js DataTable DataTableView TableSpec TableMoreSpec.

(** X18. In client-side mode a search made after a sort puts the rows back
    in the order of the held records: the view is the filtered [data], the
    same as without the sort, while [sortField] and [sortDirection] still
    name the column and direction of the sort. *)
Theorem search_forgets_sort_order fetch (field : string) (t : table)
    (Hmode : serverSide (cfg t) = false) :
  let s := sort fetch field t in
  let u := performSearch fetch s in
  filteredData u = List.filter (retained t) (data t) /\
  filteredData u = filteredData (performSearch fetch t) /\
  sortField u = Some field /\
  sortDirection u = sortDirection s.
Proof.
  cbv zeta.
  assert (Hkey : forall u, search u = search t -> filters u = filters t -> data u = data t ->
                           serverSide (cfg u) = false ->
                           filteredData (performSearch fetch u)
                           = List.filter (retained t) (data t)).
  { intros u Hs Hf Hd Hm. unfold performSearch. rewrite Hm.
    cbn [filteredData calculatePagination set_totalPages set_currentPage].
    rewrite (applyFilters_filter t u Hs Hf). now rewrite Hd. }
  assert (Hframe : forall u, sortField (performSearch fetch u) = sortField u /\
                             sortDirection (performSearch fetch u) = sortDirection u).
  { intros u. unfold performSearch. destruct (serverSide (cfg u)).
    - destruct (loadData_frame fetch [] (set_currentPage 1 u)) as (_ & _ & Hf & Hd & _).
      now rewrite Hf, Hd.
    - split; reflexivity. }
  assert (Hsort : search (sort fetch field t) = search t /\
                  filters (sort fetch field t) = filters t /\
                  data (sort fetch field t) = data t /\
                  cfg (sort fetch field t) = cfg t /\
                  sortField (sort fetch field t) = Some field).
  { unfold sort. destruct (decide (sortField t = Some field)) as [Hf|Hf];
      cbn [cfg set_sortDirection set_sortField]; rewrite Hmode; cbn; tauto. }
  destruct Hsort as (Hs & Hf & Hd & Hc & Hfield).
  destruct (Hframe (sort fetch field t)) as [Hf1 Hd1].
  split; [|split; [|split]].
  - apply Hkey; try assumption. now rewrite Hc.
  - rewrite (Hkey t) by (reflexivity || exact Hmode).
    apply Hkey; try assumption. now rewrite Hc.
  - now rewrite Hf1.
  - exact Hd1.
Qed.

Lemma search_forgets_sort_order_witness :
  let t := showing [ten; two] 25 in
  filteredData (sort (fun _ _ => Rejected) "a" t) = [two; ten] /\
  filteredData (performSearch (fun _ _ => Rejected) (sort (fun _ _ => Rejected) "a" t))
  = [ten; two].
Proof.
  cbv zeta. split; [reflexivity|].
  destruct (search_forgets_sort_order (fun _ _ => Rejected) "a" (showing [ten; two] 25) eq_refl)
    as (Hview & _).
  rewrite Hview. reflexivity.
Defined.

(** X19. [loadData] never moves the page number.  In client-side mode,
    with a positive page size and a page number of at least 1, the page
    shown after an answered reload is empty exactly when the page number is
    past the new [totalPages], however many rows the reload brought. *)
Theorem reload_keeps_page_number fetch (params : list (string * value)) (t : table)
    (r : result)
    (Hmode : serverSide (cfg t) = false) (Hsize : 0 < pageSize t)
    (Hpage : 1 <= currentPage t)
    (Hanswer : fetch (apiUrl (cfg t)) (queryParams params t) = Decoded r) :
  let t' := loadData fetch params t in
  currentPage t' = currentPage t /\
  (paginatedData t' = [] <-> totalPages t' < currentPage t').
Proof.
  cbv zeta.
  destruct (loadData_frame fetch params t) as (Hp & Hz & _ & _ & Hc & _).
  split; [exact Hp|].
  assert (Hview : totalRecords (loadData fetch params t)
                  = Z.of_nat (length (filteredData (loadData fetch params t))) /\
                  totalPages (loadData fetch params t)
                  = ceil_div (totalRecords (loadData fetch params t)) (pageSize t)).
  { unfold loadData.
    change (queryParams params (set_error None (set_loading true t))) with (queryParams params t).
    change (apiUrl (cfg (set_error None (set_loading true t)))) with (apiUrl (cfg t)).
    change (serverSide (cfg (set_error None (set_loading true t)))) with (serverSide (cfg t)).
    rewrite Hanswer, Hmode. split; reflexivity. }
  destruct Hview as [Hrec Hpages].
  set (t' := loadData fetch params t) in *.
  unfold paginatedData. rewrite Hc, Hmode, Hp, Hz, Hpages, Hrec.
  set (rows := filteredData t').
  pose proof (ceil_div_ceiling (Z.of_nat (length rows)) (pageSize t) Hsize) as Hceil.
  unfold ceiling_of in Hceil.
  rewrite slice_window by nia.
  split.
  - intros Hempty. apply (f_equal (@length record)) in Hempty.
    rewrite length_firstn, length_skipn in Hempty. cbn [length] in Hempty.
    assert (Hlen : (length rows <= Z.to_nat ((currentPage t - 1) * pageSize t))%nat) by lia.
    nia.
  - intros Hpast. rewrite skipn_all2; [apply firstn_nil|]. nia.
Qed.

Lemma reload_keeps_page_number_witness :
  let t := set_currentPage 3 (showing [two; ten; two_s; ten_s; two] 2) in
  let fetch := fun (_ : string) (_ : list (string * string)) => Decoded (RArray [two; ten]) in
  currentPage (loadData fetch [] t) = 3 /\ paginatedData (loadData fetch [] t) = [].
Proof.
  cbv zeta.
  destruct (reload_keeps_page_number
              (fun (_ : string) (_ : list (string * string)) => Decoded (RArray [two; ten])) []
              (set_currentPage 3 (showing [two; ten; two_s; ten_s; two] 2))
              (RArray [two; ten]) eq_refl eq_refl ltac:(cbn; lia) eq_refl) as (Hp & Hempty).
  split; [exact Hp|]. apply Hempty. vm_compute. reflexivity.
Defined.

End TableCompositionClaims.

Section CookieFacts.
Import Js FormComponent CookieSpec TableMoreSpec.

Lemma chars_app (s t : string) :
  list_ascii_of_string (s ++ t) = (list_ascii_of_string s ++ list_ascii_of_string t)%list.
Proof.
  induction s as [|c s IH]; [reflexivity|].
  rewrite append_cons. cbn [list_ascii_of_string app]. now rewrite IH.
Qed.

Lemma string_app_assoc (s t u : string) : ((s ++ t) ++ u = s ++ (t ++ u))%string.
Proof. induction s as [|c s IH]; [reflexivity|]. rewrite !append_cons. now rewrite IH. Qed.

Lemma string_app_nil_r (s : string) : (s ++ "")%string = s.
Proof. induction s as [|c s IH]; [reflexivity|]. rewrite append_cons. now rewrite IH. Qed.

Lemma length_string_app (s t : string) :
  String.length (s ++ t) = (String.length s + String.length t)%nat.
Proof.
  induction s as [|c s IH]; [reflexivity|].
  rewrite append_cons. cbn [String.length]. now rewrite IH.
Qed.

(** Splitting at [;]. *)
Lemma split_go_plain (cur s : string) :
  (forall c, In c (list_ascii_of_string s) -> c <> ";"%char) ->
  JsString.split_go ";" cur s = [(cur ++ s)%string].
Proof.
  revert cur. induction s as [|c s IH]; intros cur H; cbn [JsString.split_go].
  - now rewrite string_app_nil_r.
  - destruct (ascii_dec c ";") as [->|_].
    + exfalso. apply (H ";"%char); [now left|reflexivity].
    + rewrite IH by (intros d Hd; apply H; now right).
      now rewrite string_app_assoc.
Qed.

Lemma split_go_at (cur s r : string) :
  (forall c, In c (list_ascii_of_string s) -> c <> ";"%char) ->
  JsString.split_go ";" cur (s ++ String ";" r)
  = (cur ++ s)%string :: JsString.split_go ";" "" r.
Proof.
  revert cur. induction s as [|c s IH]; intros cur H;
    rewrite ?append_cons, ?append_empty; cbn [JsString.split_go].
  - destruct (ascii_dec ";" ";") as [_|Hne]; [|congruence]. now rewrite string_app_nil_r.
  - destruct (ascii_dec c ";") as [->|_].
    + exfalso. apply (H ";"%char); [now left|reflexivity].
    + rewrite IH by (intros d Hd; apply H; now right).
      now rewrite string_app_assoc.
Qed.

Lemma split_join (cur x : string) (items : list string) :
  (forall s, In s (x :: items) -> forall c, In c (list_ascii_of_string s) -> c <> ";"%char) ->
  JsString.split_go ";" cur (JsString.join "; " (x :: items))
  = (cur ++ x)%string :: map (String " ") items.
Proof.
  revert cur x. induction items as [|y items IH]; intros cur x H.
  - cbn [JsString.join map]. apply split_go_plain. apply H. now left.
  - change (JsString.join "; " (x :: y :: items))
      with (x ++ String ";" (String " " (JsString.join "; " (y :: items))))%string.
    rewrite split_go_at by (apply H; now left).
    cbn [map]. f_equal.
    change (JsString.split_go ";" "" (String " " (JsString.join "; " (y :: items))))
      with (JsString.split_go ";" " " (JsString.join "; " (y :: items))).
    apply IH. intros s Hs. apply H. now right.
Qed.

(** Trimming. *)
Lemma trimEnd_plain (s : string) :
  (forall c, In c (list_ascii_of_string s) -> is_space c = false) -> trimEnd s = s.
Proof.
  induction s as [|c s IH]; intros H; [reflexivity|]. cbn [trimEnd].
  rewrite IH by (intros d Hd; apply H; now right).
  destruct s; [|reflexivity]. rewrite (H c) by now left. reflexivity.
Qed.

Lemma trim_plain (s : string) :
  (forall c, In c (list_ascii_of_string s) -> is_space c = false) -> trim s = s.
Proof.
  intros H. unfold trim.
  assert (Hskip : skip_spaces s = s).
  { destruct s as [|c s]; [reflexivity|]. cbn [skip_spaces].
    rewrite (H c) by now left. reflexivity. }
  rewrite Hskip. now apply trimEnd_plain.
Qed.

Lemma trim_after_space (s : string) : trim (String " " s) = trim s.
Proof. reflexivity. Qed.

(** Prefixes and suffixes. *)
Lemma substring_prefix (p r : string) : String.substring 0 (String.length p) (p ++ r) = p.
Proof.
  induction p as [|c p IH]; rewrite ?append_cons, ?append_empty;
    cbn [String.length String.substring].
  - now destruct r.
  - now rewrite IH.
Qed.

Lemma substring_suffix (p r : string) :
  String.substring (String.length p) (String.length r) (p ++ r) = r.
Proof.
  induction p as [|c p IH]; rewrite ?append_cons, ?append_empty;
    cbn [String.length String.substring].
  - rewrite <- (string_app_nil_r r) at 2. now rewrite substring_prefix.
  - exact IH.
Qed.

Lemma substring_is_prefix (k : nat) (s : string) :
  exists r, s = (String.substring 0 k s ++ r)%string.
Proof.
  revert k. induction s as [|c s IH]; intros k.
  - exists ""%string. now destruct k.
  - destruct k as [|k]; cbn [String.substring].
    + now exists (String c s).
    + destruct (IH k) as [r Hr]. exists r. rewrite append_cons. now rewrite <- Hr.
Qed.

(** A name ends where the first [=] stands. *)
Lemma name_then_equals (n m r r' : string) :
  without_equals n -> without_equals m ->
  (n ++ String "=" r = m ++ String "=" r')%string -> n = m /\ r = r'.
Proof.
  revert m. induction n as [|a n IH]; intros [|b m] Hn Hm;
    rewrite ?append_cons, ?append_empty.
  - intros [= ->]. tauto.
  - intros [= <- _]. exfalso. apply (Hm "="%char); [now left|reflexivity].
  - intros [= -> _]. exfalso. apply (Hn "="%char); [now left|reflexivity].
  - intros [= -> E]. destruct (IH m) as [-> ->]; [| |exact E|tauto].
    + intros c Hc. apply Hn. now right.
    + intros c Hc. apply Hm. now right.
Qed.

(** The test and the value of one cookie. *)
Lemma cookie_test (name n v : string) :
  without_equals name -> without_equals n ->
  String.eqb (substring (pair_text (n, v)) 0 (String.length name + 1)) (name ++ "=")
  = String.eqb n name.
Proof.
  intros Hname Hn. unfold pair_text, substring. cbn [fst snd].
  rewrite Nat.min_0_l, Nat.max_0_l, Nat.sub_0_r.
  destruct (String.eqb_spec n name) as [->|Hne].
  - apply String.eqb_eq.
    rewrite <- string_app_assoc, length_string_app, length_string_app.
    cbn [String.length]. rewrite Nat.min_l by lia.
    replace (String.length name + 1)%nat with (String.length (name ++ "=")).
    + apply substring_prefix.
    + rewrite length_string_app. reflexivity.
  - apply String.eqb_neq. intros H. apply Hne.
    destruct (substring_is_prefix
                (Nat.min (String.length name + 1) (String.length (n ++ "=" ++ v)))
                (n ++ "=" ++ v)) as [r Hr].
    rewrite H in Hr. rewrite string_app_assoc in Hr.
    now apply name_then_equals in Hr.
Qed.

Lemma cookie_value (name v : string) :
  substring_from (pair_text (name, v)) (String.length name + 1) = v.
Proof.
  unfold substring_from, substring, pair_text. cbn [fst snd].
  rewrite <- string_app_assoc. rewrite (length_string_app (name ++ "=")), length_string_app.
  cbn [String.length]. rewrite Nat.min_id.
  rewrite (Nat.min_l (String.length name + 1)) by lia.
  rewrite Nat.min_l by lia. rewrite Nat.max_r by lia.
  replace (String.length name + 1 + String.length v - (String.length name + 1))%nat
    with (String.length v) by lia.
  replace (String.length name + 1)%nat with (String.length (name ++ "=")).
  - apply substring_suffix.
  - rewrite length_string_app. reflexivity.
Qed.

Lemma pair_text_plain (n v : string) (c : ascii) :
  plain n -> plain v -> In c (list_ascii_of_string (pair_text (n, v))) ->
  is_space c = false /\ c <> ";"%char.
Proof.
  intros Hn Hv. unfold pair_text. cbn [fst snd]. rewrite !chars_app.
  rewrite !in_app_iff. intros [H|[H|H]].
  - now apply Hn.
  - cbn in H. destruct H as [<-|[]]. split; [reflexivity|discriminate].
  - now apply Hv.
Qed.

(** The loop over the cookies of a jar, each as it stands or after a
    space. *)
Lemma scan_jar decode (name : string) (jar : list (string * string)) (lead : list bool) :
  well_formed jar -> without_equals name -> length lead = length jar ->
  scan decode name
    (map (fun p : bool * (string * string) =>
            if fst p then String " " (pair_text (snd p)) else pair_text (snd p))
       (combine lead jar))
  = match assoc jar name with
    | Some v => decoded decode v
    | None => Returns None
    end.
Proof.
  intros Hjar Hname. revert lead.
  induction jar as [|[n v] jar IH]; intros lead Hlen.
  - destruct lead; reflexivity.
  - destruct lead as [|b lead]; [discriminate|]. cbn [combine map fst snd scan assoc].
    destruct (Hjar n v ltac:(now left)) as (Hn & Hne & Hv).
    assert (Htrim : trim (if b then String " " (pair_text (n, v)) else pair_text (n, v))
                    = pair_text (n, v)).
    { destruct b; [rewrite trim_after_space|]; apply trim_plain;
        intros c Hc; now apply (pair_text_plain n v c Hn Hv). }
    rewrite Htrim, (cookie_test name n v Hname Hne).
    destruct (String.eqb_spec n name) as [->|Hnn].
    + rewrite cookie_value. reflexivity.
    + apply IH.
      * intros n' v' Hin. apply Hjar. now right.
      * cbn in Hlen. lia.
Qed.

Lemma lead_map (rest : list (string * string)) :
  map (fun p : bool * (string * string) =>
         if fst p then String " " (pair_text (snd p)) else pair_text (snd p))
    (combine (repeat true (length rest)) rest)
  = map (String " ") (map pair_text rest).
Proof. induction rest as [|p rest IH]; [reflexivity|]. cbn. now rewrite IH. Qed.

Lemma document_cookie_truthy (p : string * string) (rest : list (string * string)) :
  JsString.truthy (document_cookie (p :: rest)) && negb (String.eqb (document_cookie (p :: rest)) "")
  = true.
Proof.
  assert (H : exists c r, document_cookie (p :: rest) = String c r).
  { unfold document_cookie. cbn [map]. destruct p as [n v].
    assert (Hp : exists c r, pair_text (n, v) = String c r).
    { unfold pair_text. cbn [fst snd]. destruct n as [|c n].
      - rewrite append_empty. eexists _, _. reflexivity.
      - rewrite append_cons. eexists _, _. reflexivity. }
    destruct Hp as (c & r & ->).
    destruct (map pair_text rest) as [|y ys]; cbn [JsString.join].
    - eexists _, _. reflexivity.
    - rewrite append_cons. eexists _, _. reflexivity. }
  destruct H as (c & r & ->). reflexivity.
Qed.

(** X20. [getCookie(name)] reads a cookie jar back: when [document.cookie]
    lists cookies as [name=value] joined by [; ], with names and values free
    of white space and [;] and names free of [=], it returns the decoded
    value of the first cookie of that name, [null] when there is none, and
    throws when that value does not decode.  [getCsrfToken()] returns the
    value of the [csrfmiddlewaretoken] field when it is not empty, without
    looking at the cookies, and the [csrftoken] cookie otherwise. *)
Theorem getCookie_reads_jar decode (jar : list (string * string)) (name : string)
    (Hjar : well_formed jar) (Hname : without_equals name) :
  getCookie decode (document_cookie jar) name
  = match assoc jar name with
    | Some v => decoded decode v
    | None => Returns None
    end /\
  (forall v cookie, v <> ""%string -> getCsrfToken decode (Some v) cookie = Returns (Some v)) /\
  (forall field, field = None \/ field = Some ""%string ->
     getCsrfToken decode field (document_cookie jar)
     = match assoc jar "csrftoken" with
       | Some v => decoded decode v
       | None => Returns None
       end).
Proof.
  assert (Hget : forall nm, without_equals nm ->
            getCookie decode (document_cookie jar) nm
            = match assoc jar nm with
              | Some v => decoded decode v
              | None => Returns None
              end).
  { intros nm Hnm. unfold getCookie. destruct jar as [|p rest]; [reflexivity|].
    rewrite document_cookie_truthy. unfold JsString.split, document_cookie. cbn [map].
    rewrite split_join.
    - rewrite append_empty, <- lead_map.
      exact (scan_jar decode nm (p :: rest) (false :: repeat true (length rest)) Hjar Hnm
               ltac:(cbn; now rewrite repeat_length)).
    - intros s Hs c Hc.
      change (pair_text p :: map pair_text rest) with (map pair_text (p :: rest)) in Hs.
      apply in_map_iff in Hs as ([n v] & <- & Hin).
      destruct (Hjar n v Hin) as (Hn & _ & Hv).
      now apply (pair_text_plain n v c Hn Hv). }
  split; [now apply Hget|]. split.
  - intros v cookie Hv. unfold getCsrfToken. destruct v; [congruence|reflexivity].
  - intros field [->| ->]; cbn [getCsrfToken JsString.truthy]; apply Hget;
      intros c Hc; cbn in Hc; intuition (subst; discriminate).
Qed.

Lemma getCookie_reads_jar_witness :
  getCookie Some "sessionid=abc; csrftoken=t0k3n; csrftoken=old" "csrftoken"
  = Returns (Some "t0k3n"%string).
Proof.
  refine (proj1 (getCookie_reads_jar Some
                   [("sessionid", "abc"); ("csrftoken", "t0k3n"); ("csrftoken", "old")]%string
                   "csrftoken" _ _)).
  - intros n v Hin. cbn in Hin.
    repeat (destruct Hin as [[= <- <-]|Hin];
            [split; [|split]; intros c Hc; cbn in Hc;
               repeat (destruct Hc as [<-|Hc];
                       [first [discriminate | split; [reflexivity|discriminate]]|]);
               destruct Hc|]).
    destruct Hin.
  - intros c Hc. cbn in Hc.
    repeat (destruct Hc as [<-|Hc]; [discriminate|]). destruct Hc.
Defined.

End CookieFacts.

Section ModalClaims.
Import Modal ModalSpec.

(** X21. [open] shows the modal with the given title and content and
    locks the scrolling of the page; [close] hides it, keeps its title and
    content, and unlocks the page whatever locked it, leaving every other
    class of the body as it was.  So closing one of two open modals unlocks
    the page while the other is still shown, and a page that was locked
    before a modal was opened is unlocked once that modal is closed. *)
Theorem modal_scroll_lock (m : modal) (body : gset string) (t c : string) :
  let opened := open t c m body in
  let closed := close opened.1 opened.2 in
  (show opened.1 = true /\ title opened.1 = t /\ content opened.1 = c /\ locked opened.2) /\
  (show closed.1 = false /\ title closed.1 = t /\ content closed.1 = c /\ ~ locked closed.2) /\
  (forall cl, cl <> "overflow-hidden"%string -> cl ∈ closed.2 <-> cl ∈ body) /\
  (forall (other : modal) t' c',
     let both := open t' c' other opened.2 in
     let one_closed := close opened.1 both.2 in
     show both.1 = true /\ ~ locked one_closed.2).
Proof.
  cbv zeta. unfold open, close, locked. cbn [fst snd show title content].
  assert (Hunlocked : forall b : gset string,
            "overflow-hidden"%string ∉ b ∖ {["overflow-hidden"%string]}).
  { intros b H. apply elem_of_difference in H as [_ H]. apply H. now apply elem_of_singleton. }
  split; [|split; [|split]].
  - repeat split. apply elem_of_union_l. now apply elem_of_singleton.
  - repeat split. apply Hunlocked.
  - intros cl Hcl. rewrite elem_of_difference, elem_of_union, !elem_of_singleton. tauto.
  - intros other t' c'. split; [reflexivity|]. apply Hunlocked.
Qed.

End ModalClaims.

Section ReadableNames.
Import Dom ReadableSpec.

Lemma toLowerCase_app (s t : string) :
  JsString.toLowerCase (s ++ t) = (JsString.toLowerCase s ++ JsString.toLowerCase t)%string.
Proof.
  induction s as [|c s IH]; [reflexivity|].
  rewrite append_cons. cbn [JsString.toLowerCase]. rewrite append_cons. now rewrite IH.
Qed.

Lemma length_toLowerCase (s : string) :
  String.length (JsString.toLowerCase s) = String.length s.
Proof. induction s as [|c s IH]; [reflexivity|]. cbn. now rewrite IH. Qed.

Lemma lower_upper_char (c : ascii) :
  JsString.lower_char (JsString.upper_char c) = JsString.lower_char c.
Proof.
  destruct c as [[] [] [] [] [] [] [] []]; reflexivity.
Qed.

Lemma toLowerCase_capitalize (s : string) :
  JsString.toLowerCase (JsString.capitalize s) = JsString.toLowerCase s.
Proof.
  destruct s as [|c s]; [reflexivity|]. cbn [JsString.capitalize JsString.toLowerCase].
  now rewrite lower_upper_char.
Qed.

Lemma join_cons (sep x : string) (l : list string) :
  l <> [] -> JsString.join sep (x :: l) = (x ++ sep ++ JsString.join sep l)%string.
Proof. destruct l; [congruence|reflexivity]. Qed.

Lemma toLowerCase_join_capitalize (l : list string) :
  JsString.toLowerCase (JsString.join " " (map JsString.capitalize l))
  = JsString.toLowerCase (JsString.join " " l).
Proof.
  induction l as [|x l IH]; [reflexivity|].
  destruct l as [|y l].
  - cbn [map JsString.join]. apply toLowerCase_capitalize.
  - cbn [map] in *.
    rewrite (join_cons " " (JsString.capitalize x)) by discriminate.
    rewrite (join_cons " " x) by discriminate.
    rewrite !toLowerCase_app, IH, toLowerCase_capitalize. reflexivity.
Qed.

Lemma split_go_nonempty (sep : ascii) (cur s : string) : JsString.split_go sep cur s <> [].
Proof.
  revert cur. induction s as [|c s IH]; intros cur; cbn [JsString.split_go]; [discriminate|].
  destruct (ascii_dec c sep); [discriminate|apply IH].
Qed.

Lemma join_split_go (cur s : string) :
  JsString.join " " (JsString.split_go "_" cur s) = (cur ++ spaced s)%string.
Proof.
  revert cur. induction s as [|c s IH]; intros cur; cbn [JsString.split_go spaced].
  - cbn [JsString.join]. now rewrite string_app_nil_r.
  - destruct (ascii_dec c "_") as [->|Hc].
    + rewrite join_cons by apply split_go_nonempty. rewrite IH. reflexivity.
    + rewrite IH. now rewrite string_app_assoc.
Qed.

(** X22. [getReadableFieldName] of the English script returns the title
    of the card around the first input of that name when it has one.
    Otherwise it returns the field name with every [_] replaced by a space
    and some letters put in upper case: read without regard to case the two
    are the same, so the result is as long as the field name. *)
Theorem readable_name_fallback (fieldName : string) (w : page) :
  match title_of fieldName w with
  | Some title => EstimatorEn.getReadableFieldName fieldName w = title
  | None =>
      JsString.toLowerCase (EstimatorEn.getReadableFieldName fieldName w)
      = JsString.toLowerCase (spaced fieldName) /\
      String.length (EstimatorEn.getReadableFieldName fieldName w) = String.length fieldName
  end.
Proof.
  assert (Hlower : JsString.toLowerCase
                     (JsString.join " " (map JsString.capitalize (JsString.split "_" fieldName)))
                   = JsString.toLowerCase (spaced fieldName)).
  { rewrite toLowerCase_join_capitalize. unfold JsString.split.
    now rewrite join_split_go, append_empty. }
  assert (Hlen : String.length
                   (JsString.join " " (map JsString.capitalize (JsString.split "_" fieldName)))
                 = String.length fieldName).
  { rewrite <- length_toLowerCase, Hlower, length_toLowerCase.
    clear. induction fieldName as [|c s IH]; [reflexivity|]. cbn. now rewrite IH. }
  unfold title_of, EstimatorEn.getReadableFieldName.
  destruct (List.find _ (inputs w)) as [i|]; [destruct (card_title i)|]; try reflexivity;
    split; assumption.
Qed.

End ReadableNames.
